(** * GOF2BountyBot: bounties and their configuration

    A shallow embedding of [bot/gameObjects/bounties/bounty.py] and
    [bot/gameObjects/bounties/bountyConfig.py].

    Conventions of the embedding:
    - a Python [dict] is a [gmap]; [d[k]] on a missing key raises [KeyError];
    - a Python [int] is a [Z]; user ids are [Z], the unchecked marker is [-1];
    - a Python [float] is a binary64 number: the results of [/] and [*] are
      rounded to 53 significant bits, ties to even, and [int] truncates them;
    - timestamps (POSIX seconds, floats in the source) are kept on the integer
      grid: the code only compares them with the [-1.0] marker and hands them
      to the [datetime] library of the host, which is a parameter;
    - a method that mutates [self] takes the object and returns the new one;
    - an exception is a [Raise] outcome;
    - [random.choice] reads a supply of draws; a run that asks for a draw
      when the supply is used up is [Starved] (a retry loop that rejects
      every draw ends so for every finite supply). *)

From Stdlib Require Import ZArith QArith.QArith_base QArith.Qround.
From stdpp Require Import gmap strings list fin_maps.

Local Open Scope Z_scope.

(** ** Python runtime: exceptions, dictionaries, strings, random *)

Inductive exn :=
  | ValueError | IndexError | KeyError | AttributeError | OverflowError
  | OSError.

Inductive outcome (A : Type) :=
  | Ok (a : A)
  | Raise (e : exn)
  | Starved.
Arguments Ok {A} a.
Arguments Raise {A} e.
Arguments Starved {A}.

#[global] Instance outcome_ret : MRet outcome := fun A a => Ok a.
#[global] Instance outcome_bind : MBind outcome := fun A B f m =>
  match m with
  | Ok a => f a
  | Raise e => Raise e
  | Starved => Starved
  end.

(** [d[k]] *)
Definition getitem {K V} `{Countable K} (d : gmap K V) (k : K) : outcome V :=
  match d !! k with
  | Some v => Ok v
  | None => Raise KeyError
  end.

(** [k in d] *)
Definition contains {K V} `{Countable K} (d : gmap K V) (k : K) : bool :=
  bool_decide (is_Some (d !! k)).

(** A method body that mutates [self] (of type [S]) and draws from the random
    supply: it ends in an outcome and leaves the object as it is at that
    moment, also when it raises. *)
Definition run (S A : Type) : Type := S * list nat -> outcome A * (S * list nat).

#[global] Instance run_ret {S} : MRet (run S) := fun A a st => (Ok a, st).
#[global] Instance run_bind {S} : MBind (run S) := fun A B f m st =>
  match m st with
  | (Ok a, st') => f a st'
  | (Raise e, st') => (Raise e, st')
  | (Starved, st') => (Starved, st')
  end.

Definition get {S} : run S S := fun st => (Ok st.1, st).
Definition modify {S} (f : S -> S) : run S unit := fun st => (Ok tt, (f st.1, st.2)).
Definition raise {S A} (e : exn) : run S A := fun st => (Raise e, st).
Definition starve {S A} : run S A := fun st => (Starved, st).
Definition lift {S A} (o : outcome A) : run S A := fun st => (o, st).

(** [random.choice(seq)]: [IndexError] on an empty sequence, else the element
    at the drawn index. *)
Definition choice {S A} (seq : list A) : run S A := fun st =>
  match seq with
  | [] => (Raise IndexError, st)
  | x :: _ =>
      match st.2 with
      | [] => (Starved, st)
      | d :: draws => (Ok (nth (d mod length seq)%nat seq x), (st.1, draws))
      end
  end.

(** [while cond: body].  Every loop of this file draws once per round, so a
    loop entered with [n] draws left has ended or starved after [n + 1]
    tests. *)
Fixpoint while_rounds {S} (rounds : nat) (cond : run S bool) (body : run S unit)
    : run S unit :=
  match rounds with
  | O => starve
  | Datatypes.S n =>
      c ← cond;
      if (c : bool) then body ;; while_rounds n cond body else mret tt
  end.

Definition while {S} (cond : run S bool) (body : run S unit) : run S unit :=
  fun st => while_rounds (Datatypes.S (length st.2)) cond body st.

(** The marker stored in [checked] for a system nobody has checked. *)
Definition UNCHECKED : Z := -1.

(** Modelled from the spec: the class [TimedTask] of [bot/scheduling] is not
    part of the sources at hand; a task is represented by its unique
    identity. *)
Definition TimedTask := nat.

(** Modelled from the spec: [TimedTask.forceExpire] is not part of the
    sources at hand; a call is represented by the event it causes, on which
    task and whether the task's effect runs. *)
Inductive event :=
  | ForceExpire (task : TimedTask) (callExpiryFunc : bool).

(** Modelled from the spec: the ship class is not part of the sources at
    hand; a ship is kept as an opaque name. *)
Definition Ship := string.

(** Modelled from the spec: the class [Criminal] is not part of the sources
    at hand; the record carries the arguments that [Bounty.__init__] hands to
    its constructor. *)
Record Criminal := mkCriminal {
  crim_name : string;
  crim_faction : string;
  crim_icon : string;
  crim_isPlayer : bool;
  crim_aliases : list string;
  crim_wiki : string;
  crim_ship : option Ship
}.

(** [str.lower] and [str.title], on ASCII names. *)
Definition is_upper (c : Ascii.ascii) : bool :=
  let n := Ascii.nat_of_ascii c in (65 <=? n)%nat && (n <=? 90)%nat.

Definition is_lower (c : Ascii.ascii) : bool :=
  let n := Ascii.nat_of_ascii c in (97 <=? n)%nat && (n <=? 122)%nat.

Definition is_cased (c : Ascii.ascii) : bool := is_upper c || is_lower c.

Definition to_lower (c : Ascii.ascii) : Ascii.ascii :=
  if is_upper c then Ascii.ascii_of_nat (Ascii.nat_of_ascii c + 32) else c.

Definition to_upper (c : Ascii.ascii) : Ascii.ascii :=
  if is_lower c then Ascii.ascii_of_nat (Ascii.nat_of_ascii c - 32) else c.

Fixpoint lower (s : string) : string :=
  match s with
  | EmptyString => EmptyString
  | String c s' => String (to_lower c) (lower s')
  end.

(** [title]: a cased character is upper-cased when the previous character
    is not cased, and lower-cased otherwise. *)
Fixpoint title_from (previous_is_cased : bool) (s : string) : string :=
  match s with
  | EmptyString => EmptyString
  | String c s' =>
      String (if previous_is_cased then to_lower c else to_upper c)
             (title_from (is_cased c) s')
  end.

Definition title (s : string) : string := title_from false s.

(** [int(x)] of a number with a fractional part: truncation towards zero. *)
Definition py_int (q : Q) : Z := Z.quot (Qnum q) (Z.pos (Qden q)).

(** A Python number handed to a parameter annotated [int]: an [int], or a
    [float] given by its value. *)
Inductive number :=
  | Int (z : Z)
  | Float (q : Q).

Definition value (x : number) : Q :=
  match x with
  | Int z => inject_Z z
  | Float q => q
  end.

(** ** Floating point

    The float nearest to a positive fraction [num / den] is kept as a
    significand of 53 bits and an exponent, [m * 2 ^ e] with
    [2 ^ 52 <= m <= 2 ^ 53].  The exponent has no lower limit here: numbers
    below [2 ^ -1022] only ever reach [int], which sends them to [0] whether
    they have been rounded to the subnormal grid or not. *)

(** [num / den] rounded to the nearest integer, ties to the even one. *)
Definition round_half_even (num den : Z) : Z :=
  let q := num / den in
  let r := num mod den in
  if 2 * r <? den then q
  else if den <? 2 * r then q + 1
  else if Z.even q then q else q + 1.

(** [num / den / 2 ^ e] as a fraction. *)
Definition scale (num den e : Z) : Z * Z :=
  if 0 <=? e then (num, den * 2 ^ e) else (num * 2 ^ (- e), den).

(** The exponent [e] with [2 ^ 52 <= num / den / 2 ^ e < 2 ^ 53]. *)
Definition exponent (num den : Z) : Z :=
  let e := Z.log2 num - Z.log2 den - 52 in
  if 2 ^ 52 * (scale num den e).2 <=? (scale num den e).1 then e else e - 1.

Definition nearest (num den : Z) : Z * Z :=
  let e := exponent num den in
  (round_half_even (scale num den e).1 (scale num den e).2, e).

(** A rounded result of [2 ^ 1024] or more is beyond the largest float. *)
Definition finite (x : Z * Z) : bool :=
  (x.2 <? 0) || (x.1 * 2 ^ x.2 <? 2 ^ 1024).

(** [int(x)] of the float [x = m * 2 ^ e]: truncation. *)
Definition truncate (x : Z * Z) : Z :=
  if 0 <=? x.2 then x.1 * 2 ^ x.2 else x.1 / 2 ^ (- x.2).

(** [int(x)] for the float [x] nearest to [num / den], with [0 < den]. *)
Definition float_trunc (num den : Z) : Z :=
  Z.sgn num * truncate (nearest (Z.abs num) den).

(** The same with the error of a result that no float can hold: the
    [OverflowError] of [int / int], and of [int] on an infinity. *)
Definition float_int (num den : Z) : outcome Z :=
  if finite (nearest (Z.abs num) den) then Ok (float_trunc num den)
  else Raise OverflowError.

(** [float(n)] of an [int] that a float can hold. *)
Definition float_of_int (n : Z) : Z :=
  if Z.abs n <? 2 ^ 53 then n
  else Z.sgn n * ((nearest (Z.abs n) 1).1 * 2 ^ (nearest (Z.abs n) 1).2).

(** [int(n * x)] for an [int] [n]: exact for an [int] [x]; for a [float]
    [x], [n] is converted, the product is rounded and [int] truncates it. *)
Definition int_times (n : Z) (x : number) : outcome Z :=
  match x with
  | Int z => Ok (n * z)
  | Float f =>
      if finite (nearest (Z.abs n) 1)
      then float_int (float_of_int n * Qnum f) (Z.pos (Qden f))
      else Raise OverflowError
  end.

(** ** The collaborators of the configuration: game data, settings, database *)

(** Modelled from the spec: the system class is not part of the sources at
    hand; of a system the configuration only asks whether it is a valid
    route endpoint ("has jump gate"). *)
Record System := mkSystem { hasJumpGate : bool }.

(** [bbData]: the static game data. *)
Record BBData := mkBBData {
  bountyNames : gmap string (list string);
  bountyFactions : list string;
  builtInSystemObjs : gmap string System;
  builtInCriminalObjs : gmap string Criminal;
  rocketIcon : string
}.

(** The two queries that the configuration makes to the bounty database. *)
Record BountyDB := mkBountyDB {
  factionCanMakeBounty : string -> bool;
  bountyNameExists : string -> bool
}.

(** What [generate] reads from outside the object: the game data,
    [cfg.bPointsToCreditsRatio] (an [int] or a [float]), the route planner
    [lib.pathfinding.bbAStar] (not part of the sources at hand, taken as
    given), the clock reading
    [datetime.utcnow().replace(second=0).timestamp()], and the [datetime]
    library of the host: [timestampAfter t n] is
    [(datetime.utcfromtimestamp(t) + timedelta(days=n)).timestamp()], which
    raises for a date that [datetime] cannot hold and whose value depends on
    the time zone of the host, the naive date being read back as local
    time. *)
Record World := mkWorld {
  bbData : BBData;
  bPointsToCreditsRatio : number;
  bbAStar : string -> string -> outcome (list string);
  utcnow : Z;
  timestampAfter : Z -> nat -> outcome Z
}.

Definition DAY : Z := 86400.
Definition NOT_GIVEN : Z := -1.

(** ** [class BountyConfig] *)

Module BountyConfig.

Record t := mk {
  faction : string;
  name : string;
  isPlayer : bool;
  route : list string;
  start : string;
  end_ : string;
  answer : string;
  checked : gmap string Z;
  reward : Z;
  issueTime : Z;
  endTime : Z;
  icon : string;
  generated : bool;
  builtIn : bool;
  aliases : list string;
  wiki : string;
  ship : option Ship
}.

(** The arguments of [__init__]. *)
Record args := mkArgs {
  a_faction : string;
  a_name : string;
  a_isPlayer : option bool;
  a_route : list string;
  a_start : string;
  a_end : string;
  a_answer : string;
  a_checked : gmap string Z;
  a_reward : number;
  a_issueTime : Z;
  a_endTime : Z;
  a_icon : string;
  a_aliases : list string;
  a_wiki : string;
  a_ship : option Ship
}.

(** The defaults of [__init__].  The default [checked] is one dictionary
    object shared by all calls; it is empty until a [generate] that keeps
    its map has written to it. *)
Definition defaults : args :=
  mkArgs "" "" None [] "" "" "" ∅ (Int (-1)) NOT_GIVEN NOT_GIVEN "" [] "" None.

Definition init (a : args) : t :=
  {| faction := lower (a_faction a);
     name := title (a_name a);
     isPlayer := match a_isPlayer a with None => false | Some p => p end;
     route := map title (a_route a);
     start := title (a_start a);
     end_ := title (a_end a);
     answer := title (a_answer a);
     checked := a_checked a;
     reward := match a_reward a with Int z => z | Float q => py_int q end;
     issueTime := a_issueTime a;
     endTime := a_endTime a;
     icon := a_icon a;
     generated := false;
     builtIn := false;
     aliases := a_aliases a;
     wiki := a_wiki a;
     ship := a_ship a |}.

Definition set_faction (v : string) (c : t) : t :=
  mk v (name c) (isPlayer c) (route c) (start c) (end_ c) (answer c) (checked c)
     (reward c) (issueTime c) (endTime c) (icon c) (generated c) (builtIn c)
     (aliases c) (wiki c) (ship c).
Definition set_name (v : string) (c : t) : t :=
  mk (faction c) v (isPlayer c) (route c) (start c) (end_ c) (answer c) (checked c)
     (reward c) (issueTime c) (endTime c) (icon c) (generated c) (builtIn c)
     (aliases c) (wiki c) (ship c).
Definition set_route (v : list string) (c : t) : t :=
  mk (faction c) (name c) (isPlayer c) v (start c) (end_ c) (answer c) (checked c)
     (reward c) (issueTime c) (endTime c) (icon c) (generated c) (builtIn c)
     (aliases c) (wiki c) (ship c).
Definition set_start (v : string) (c : t) : t :=
  mk (faction c) (name c) (isPlayer c) (route c) v (end_ c) (answer c) (checked c)
     (reward c) (issueTime c) (endTime c) (icon c) (generated c) (builtIn c)
     (aliases c) (wiki c) (ship c).
Definition set_end (v : string) (c : t) : t :=
  mk (faction c) (name c) (isPlayer c) (route c) (start c) v (answer c) (checked c)
     (reward c) (issueTime c) (endTime c) (icon c) (generated c) (builtIn c)
     (aliases c) (wiki c) (ship c).
Definition set_answer (v : string) (c : t) : t :=
  mk (faction c) (name c) (isPlayer c) (route c) (start c) (end_ c) v (checked c)
     (reward c) (issueTime c) (endTime c) (icon c) (generated c) (builtIn c)
     (aliases c) (wiki c) (ship c).
Definition set_checked (v : gmap string Z) (c : t) : t :=
  mk (faction c) (name c) (isPlayer c) (route c) (start c) (end_ c) (answer c) v
     (reward c) (issueTime c) (endTime c) (icon c) (generated c) (builtIn c)
     (aliases c) (wiki c) (ship c).
Definition set_reward (v : Z) (c : t) : t :=
  mk (faction c) (name c) (isPlayer c) (route c) (start c) (end_ c) (answer c) (checked c)
     v (issueTime c) (endTime c) (icon c) (generated c) (builtIn c)
     (aliases c) (wiki c) (ship c).
Definition set_issueTime (v : Z) (c : t) : t :=
  mk (faction c) (name c) (isPlayer c) (route c) (start c) (end_ c) (answer c) (checked c)
     (reward c) v (endTime c) (icon c) (generated c) (builtIn c)
     (aliases c) (wiki c) (ship c).
Definition set_endTime (v : Z) (c : t) : t :=
  mk (faction c) (name c) (isPlayer c) (route c) (start c) (end_ c) (answer c) (checked c)
     (reward c) (issueTime c) v (icon c) (generated c) (builtIn c)
     (aliases c) (wiki c) (ship c).
Definition set_icon (v : string) (c : t) : t :=
  mk (faction c) (name c) (isPlayer c) (route c) (start c) (end_ c) (answer c) (checked c)
     (reward c) (issueTime c) (endTime c) v (generated c) (builtIn c)
     (aliases c) (wiki c) (ship c).
Definition set_generated (v : bool) (c : t) : t :=
  mk (faction c) (name c) (isPlayer c) (route c) (start c) (end_ c) (answer c) (checked c)
     (reward c) (issueTime c) (endTime c) (icon c) v (builtIn c)
     (aliases c) (wiki c) (ship c).
Definition set_builtIn (v : bool) (c : t) : t :=
  mk (faction c) (name c) (isPlayer c) (route c) (start c) (end_ c) (answer c) (checked c)
     (reward c) (issueTime c) (endTime c) (icon c) (generated c) v
     (aliases c) (wiki c) (ship c).

(** *** [generate] *)

Section generate.
Context (w : World) (owningDB : option BountyDB).
Context (noCriminal forceKeepChecked forceNoDBCheck : bool).

Let doDBCheck : bool := negb forceNoDBCheck.
Let systems : gmap string System := builtInSystemObjs (bbData w).

(** A method call on [owningDB], which may be [None]. *)
Definition askDB (q : BountyDB -> bool) : run t bool :=
  match owningDB with
  | None => raise AttributeError
  | Some db => mret (q db)
  end.

(** [doDBCheck and not owningDB.factionCanMakeBounty(self.faction)] *)
Definition factionFull : run t bool :=
  if doDBCheck then
    c ← get;
    ok ← askDB (fun db => factionCanMakeBounty db (faction c));
    mret (negb ok)
  else mret false.

(** [doDBCheck and owningDB.bountyNameExists(self.name)] *)
Definition nameTaken : run t bool :=
  if doDBCheck then
    c ← get;
    askDB (fun db => bountyNameExists db (name c))
  else mret false.

Definition drawFaction : run t unit :=
  f ← choice (bountyFactions (bbData w));
  modify (set_faction f).

Definition drawName : run t unit :=
  c ← get;
  names ← lift (getitem (bountyNames (bbData w)) (faction c));
  n ← choice names;
  modify (set_name n).

(** Lines 139-170: the criminal's faction and name. *)
Definition resolveCriminal : run t unit :=
  if noCriminal then
    c ← get;
    if contains (bountyNames (bbData w)) (name c) then modify (set_builtIn true)
    else
      (if String.eqb (faction c) "" then
         drawFaction ;; while factionFull drawFaction
       else
         if negb (bool_decide (faction c ∈ bountyFactions (bbData w)))
         then raise ValueError
         else
           full ← factionFull;
           if (full : bool) then raise IndexError else mret tt) ;;
      c ← get;
      if String.eqb (name c) "" then
        modify (set_builtIn true) ;;
        drawName ;; while nameTaken drawName
      else
        taken ← nameTaken;
        if (taken : bool) then raise KeyError
        else
          c ← get;
          if String.eqb (icon c) "" then modify (set_icon (rocketIcon (bbData w)))
          else mret tt
  else
    full ← factionFull;
    if (full : bool) then raise IndexError else mret tt.

(** [list(bbData.builtInSystemObjs.keys())]; the order of the keys only
    decides which draw yields which system. *)
Definition systemNames : list string := (map_to_list systems).*1.

(** [not bbData.builtInSystemObjs[s].hasJumpGate()] *)
Definition noJumpGate (s : string) : run t bool :=
  sys ← lift (getitem systems s);
  mret (negb (hasJumpGate sys)).

Definition drawStart : run t unit :=
  s ← choice systemNames;
  modify (set_start s).

Definition drawEnd : run t unit :=
  s ← choice systemNames;
  modify (set_end s).

(** [for system in self.route: if system not in ...: raise KeyError] *)
Fixpoint checkRoute (l : list string) : run t unit :=
  match l with
  | [] => mret tt
  | system :: l' =>
      if negb (contains systems system) then raise KeyError else checkRoute l'
  end.

(** Lines 172-190: the route. *)
Definition resolveRoute : run t unit :=
  c ← get;
  if bool_decide (route c = []) then
    (if String.eqb (start c) "" then
       drawStart ;;
       while (c ← get;
              if String.eqb (start c) (end_ c) then mret true
              else noJumpGate (start c))
             drawStart
     else if negb (contains systems (start c)) then raise KeyError
     else mret tt) ;;
    c ← get;
    (if String.eqb (end_ c) "" then
       drawEnd ;;
       while (c ← get;
              if String.eqb (start c) (end_ c) then mret true
              else noJumpGate (end_ c))
             drawEnd
     else if negb (contains systems (end_ c)) then raise KeyError
     else mret tt) ;;
    c ← get;
    r ← lift (bbAStar w (start c) (end_ c));
    modify (set_route r)
  else checkRoute (route c).

(** Lines 191-194: the answer. *)
Definition resolveAnswer : run t unit :=
  c ← get;
  if String.eqb (answer c) "" then
    a ← choice (route c);
    modify (set_answer a)
  else if negb (contains systems (answer c)) then raise KeyError
  else mret tt.

(** Lines 196-199: the reward. *)
Definition resolveReward : run t unit :=
  c ← get;
  if reward c =? -1 then
    r ← lift (int_times (Z.of_nat (length (route c))) (bPointsToCreditsRatio w));
    modify (set_reward r)
  else if reward c <? 0 then raise ValueError
  else mret tt.

(** Lines 200-203: the timestamps.  The end time is computed by the
    [datetime] library of the host, from the issue time and one day per
    route system. *)
Definition resolveTimes : run t unit :=
  c ← get;
  (if issueTime c =? NOT_GIVEN then modify (set_issueTime (utcnow w))
   else mret tt) ;;
  c ← get;
  if endTime c =? NOT_GIVEN then
    e ← lift (timestampAfter w (issueTime c) (length (route c)));
    modify (set_endTime e)
  else mret tt.

(** The loop of lines 207-209 on the dictionary [chk]. *)
Definition fillChecked (l : list string) (chk : gmap string Z) : gmap string Z :=
  fold_left
    (fun chk station =>
       if negb forceKeepChecked || negb (contains chk station)
          || bool_decide (chk = ∅)
       then <[station := UNCHECKED]> chk
       else chk)
    l chk.

(** Lines 205-209: the checked map. *)
Definition resolveChecked : run t unit :=
  (if negb forceKeepChecked then modify (set_checked ∅) else mret tt) ;;
  c ← get;
  modify (set_checked (fillChecked (route c) (checked c))).

Definition generate : run t unit :=
  resolveCriminal ;;
  resolveRoute ;;
  resolveAnswer ;;
  resolveReward ;;
  resolveTimes ;;
  resolveChecked ;;
  modify (set_generated true).

End generate.

End BountyConfig.

(** ** [class Bounty] *)

Module Bounty.

Record t := mk {
  criminal : Criminal;
  faction : string;
  issueTime : Z;
  endTime : Z;
  route : list string;
  reward : Z;
  checked : gmap string Z;
  answer : string;
  respawnTT : option TimedTask
}.

Definition set_checked (c : gmap string Z) (b : t) : t :=
  mk (criminal b) (faction b) (issueTime b) (endTime b) (route b) (reward b)
     c (answer b) (respawnTT b).

Definition set_respawnTT (r : option TimedTask) (b : t) : t :=
  mk (criminal b) (faction b) (issueTime b) (endTime b) (route b) (reward b)
     (checked b) (answer b) r.

(** [__init__]: [draws] is the random supply that [generate] may read. *)
Definition init (w : World) (criminalObj : option Criminal)
    (config : option BountyConfig.t) (owningDB : option BountyDB)
    (dbReload : bool) (draws : list nat) : outcome t :=
  match dbReload, owningDB with
  | false, None => Raise ValueError
  | _, _ =>
      let makeFresh := match criminalObj with None => true | Some _ => false end in
      let config :=
        match config with
        | Some c => c
        | None =>
            match criminalObj with
            | None => BountyConfig.init BountyConfig.defaults
            | Some cr =>
                BountyConfig.init
                  (BountyConfig.mkArgs (crim_faction cr) (crim_name cr) None [] "" ""
                     "" ∅ (Int (-1)) NOT_GIVEN NOT_GIVEN "" [] "" None)
            end
        end in
      config ←
        (if BountyConfig.generated config then Ok config
         else
           match BountyConfig.generate w owningDB makeFresh dbReload dbReload
                   (config, draws) with
           | (Ok _, (c, _)) => Ok c
           | (Raise e, _) => Raise e
           | (Starved, _) => Starved
           end);
      crim ←
        match criminalObj with
        | None =>
            if BountyConfig.builtIn config
            then getitem (builtInCriminalObjs (bbData w)) (BountyConfig.name config)
            else
              Ok (mkCriminal (BountyConfig.name config) (BountyConfig.faction config)
                    (BountyConfig.icon config) (BountyConfig.isPlayer config)
                    (BountyConfig.aliases config) (BountyConfig.wiki config)
                    (if BountyConfig.isPlayer config then BountyConfig.ship config
                     else None))
        | Some cr => Ok cr
        end;
      Ok {| criminal := crim;
            faction := crim_faction crim;
            issueTime := BountyConfig.issueTime config;
            endTime := BountyConfig.endTime config;
            route := BountyConfig.route config;
            reward := BountyConfig.reward config;
            checked := BountyConfig.checked config;
            answer := BountyConfig.answer config;
            respawnTT := None |}
  end.

(** [systemChecked]: [self.checked[system] != -1] *)
Definition systemChecked (b : t) (system : string) : outcome bool :=
  v ← getitem (checked b) system;
  mret (negb (v =? UNCHECKED)).

(** [check] returns the result code together with the bounty after the
    call. *)
Definition check (b : t) (system : string) (userID : Z) : outcome (Z * t) :=
  if negb (bool_decide (system ∈ route b)) then mret (0, b)
  else
    done ← systemChecked b system;
    if (done : bool) then mret (1, b)
    else
      let b' := set_checked (<[system := userID]> (checked b)) b in
      if String.eqb (answer b') system then mret (3, b')
      else mret (2, b').

(** One value of the dictionary that [calcRewards] returns. *)
Record Reward := mkReward {
  rw_reward : Z;
  rw_checked : Z;
  rw_won : bool
}.

(** [int(self.reward / len(self.route))]: the quotient is the float
    nearest to the fraction, and [int] truncates it.  It is evaluated with
    a route system at hand, so the route is not empty.  A quotient of
    [2 ^ 1024] or more, which no float can hold, is outside the model. *)
Definition share (b : t) : Z :=
  float_trunc (reward b) (Z.of_nat (length (route b))).

(** First loop of [calcRewards]: count the checked systems and open an
    entry for every contributor. *)
Fixpoint countLoop (b : t) (l : list string) (rewards : gmap Z Reward)
    (checkedSystems : Z) : outcome (gmap Z Reward * Z) :=
  match l with
  | [] => mret (rewards, checkedSystems)
  | system :: l' =>
      done ← systemChecked b system;
      if (done : bool) then
        u ← getitem (checked b) system;
        if negb (contains rewards u)
        then countLoop b l' (<[u := mkReward 0 0 false]> rewards) (checkedSystems + 1)
        else countLoop b l' rewards (checkedSystems + 1)
      else countLoop b l' rewards checkedSystems
  end.

(** Second loop of [calcRewards]: credit every checked system to its
    checker. *)
Fixpoint payLoop (b : t) (uncheckedSystems : Z) (l : list string)
    (rewards : gmap Z Reward) : outcome (gmap Z Reward) :=
  match l with
  | [] => mret rewards
  | system :: l' =>
      done ← systemChecked b system;
      if (done : bool) then
        u ← getitem (checked b) system;
        e ← getitem rewards u;
        let e1 := mkReward (rw_reward e) (rw_checked e + 1) (rw_won e) in
        if String.eqb (answer b) system then
          payLoop b uncheckedSystems l'
            (<[u := mkReward (rw_reward e1 + share b * (uncheckedSystems + 1))
                             (rw_checked e1) true]> rewards)
        else
          payLoop b uncheckedSystems l'
            (<[u := mkReward (rw_reward e1 + share b) (rw_checked e1) (rw_won e1)]>
               rewards)
      else payLoop b uncheckedSystems l' rewards
  end.

Definition calcRewards (b : t) : outcome (gmap Z Reward) :=
  '(rewards, checkedSystems) ← countLoop b (route b) ∅ 0;
  let uncheckedSystems := Z.of_nat (length (route b)) - checkedSystems in
  payLoop b uncheckedSystems (route b) rewards.

(** [isEscaped]: [self.respawnTT is None] *)
Definition isEscaped (b : t) : bool :=
  match respawnTT b with
  | None => true
  | Some _ => false
  end.

Definition escape (b : t) (tt : TimedTask) : outcome t :=
  if isEscaped b then Raise ValueError
  else mret (set_respawnTT (Some tt) b).

(** [self.respawnTT.forceExpire(...)] on [None] is an attribute lookup on
    [None]. *)
Definition forceExpire (r : option TimedTask) (callExpiryFunc : bool) : outcome event :=
  match r with
  | None => Raise AttributeError
  | Some task => mret (ForceExpire task callExpiryFunc)
  end.

Definition cancelRespawn (b : t) : outcome (event * t) :=
  if negb (isEscaped b) then Raise ValueError
  else
    ev ← forceExpire (respawnTT b) false;
    mret (ev, set_respawnTT None b).

Definition forceRespawn (b : t) : outcome (event * t) :=
  if negb (isEscaped b) then Raise ValueError
  else
    ev ← forceExpire (respawnTT b) true;
    mret (ev, set_respawnTT None b).

(** The dictionary that [toDict] builds. *)
Record dict := mkDict {
  d_faction : string;
  d_route : list string;
  d_answer : string;
  d_checked : gmap string Z;
  d_reward : Z;
  d_issueTime : Z;
  d_endTime : Z;
  d_criminal : Criminal
}.

(** Modelled from the spec: [Criminal.toDict] and [Criminal.fromDict] are
    not part of the sources at hand; the embedded criminal record is the
    criminal's own fields, which reconstruct the criminal. *)
Definition criminal_toDict (c : Criminal) : Criminal := c.
Definition criminal_fromDict (d : Criminal) : Criminal := d.

Definition toDict (b : t) : dict :=
  {| d_faction := faction b;
     d_route := route b;
     d_answer := answer b;
     d_checked := checked b;
     d_reward := reward b;
     d_issueTime := issueTime b;
     d_endTime := endTime b;
     d_criminal := criminal_toDict (criminal b) |}.

(** [fromDict]: [owningDB] and [dbReload] are the keyword arguments, absent
    ones being [None] and [false]. *)
Definition fromDict (w : World) (bounty : dict) (owningDB : option BountyDB)
    (dbReload : bool) (draws : list nat) : outcome t :=
  let newCfg :=
    BountyConfig.init
      (BountyConfig.mkArgs (d_faction bounty) "" None (d_route bounty) "" ""
         (d_answer bounty) (d_checked bounty) (Int (d_reward bounty))
         (d_issueTime bounty) (d_endTime bounty) "" [] "" None) in
  init w (Some (criminal_fromDict (d_criminal bounty))) (Some newCfg) owningDB
    dbReload draws.

End Bounty.


(** * Vocabulary of the statements *)

Module BountySpec.
Import Bounty.

(** Every route system has an entry in [checked]. *)
Definition wf (b : t) : Prop :=
  forall s, s ∈ route b -> is_Some (checked b !! s).

(** A series of [check] calls; a call that raises leaves the bounty as it
    was. *)
Fixpoint checks (b : t) (calls : list (string * Z)) : t :=
  match calls with
  | [] => b
  | (system, userID) :: calls' =>
      match check b system userID with
      | Ok (_, b') => checks b' calls'
      | _ => checks b calls'
      end
  end.

(** The number of entries of [l], repetitions included, that satisfy [p]. *)
Fixpoint tally (p : string -> bool) (l : list string) : Z :=
  match l with
  | [] => 0
  | s :: l' => (if p s then 1 else 0) + tally p l'
  end.

(** [s] has been checked. *)
Definition isChecked (b : t) (s : string) : bool :=
  match checked b !! s with
  | Some v => negb (v =? UNCHECKED)
  | None => false
  end.

(** [s] has been checked, by [u]. *)
Definition checkedBy (b : t) (u : Z) (s : string) : bool :=
  match checked b !! s with
  | Some v => negb (v =? UNCHECKED) && (v =? u)
  | None => false
  end.

Definition isAnswer (b : t) (s : string) : bool := String.eqb (answer b) s.

(** Route locations that [u] checked; those of them that are the answer;
    route locations that nobody checked. *)
Definition nChecked (b : t) (u : Z) : Z := tally (checkedBy b u) (route b).
Definition nAnswer (b : t) (u : Z) : Z :=
  tally (fun s => checkedBy b u s && isAnswer b s) (route b).
Definition uncheckedCount (b : t) : Z :=
  tally (fun s => negb (isChecked b s)) (route b).

(** A pool whose share a float can hold: [self.reward / len(self.route)]
    raises [OverflowError] only for a quotient of [2 ^ 1024] or more. *)
Definition floatPool (b : t) : Prop := Z.abs (reward b) < 2 ^ 1023.

(** [floor(reward / len(route))] *)
Definition floorShare (b : t) : Z := reward b / Z.of_nat (length (route b)).

(** The entry that the specification promises to contributor [u]: one
    share per checked location, the answer location counting for
    [uncheckedCount + 1] shares. *)
Definition promised (b : t) (u : Z) : option Reward :=
  if 0 <? nChecked b u then
    Some (mkReward
            (floorShare b * (nChecked b u - nAnswer b u)
             + floorShare b * (uncheckedCount b + 1) * nAnswer b u)
            (nChecked b u)
            (0 <? nAnswer b u))
  else None.

(** The sum of the [reward] fields of a result of [calcRewards]. *)
Definition total (rs : gmap Z Reward) : Z :=
  map_fold (fun _ e acc => rw_reward e + acc) 0 rs.

(** What the second loop of [calcRewards] adds to an entry for [n] checked
    locations other than the answer and [a] checked answer locations. *)
Definition credit (b : t) (uncheckedSystems n a : Z) (e : Reward) : Reward :=
  mkReward (rw_reward e + share b * n + share b * (uncheckedSystems + 1) * a)
           (rw_checked e + n + a)
           (rw_won e || (0 <? a)).

(** [s] is a key of [bbData.builtInSystemObjs] that [title] leaves as it
    is. *)
Definition knownSystem (w : World) (s : string) : Prop :=
  title s = s /\ is_Some (builtInSystemObjs (bbData w) !! s).

(** What the reload path relies on in a saved bounty: the route is not
    empty and names known systems, so does the answer, the reward is not
    negative, and the timestamps are not mistaken for the [-1.0] marker. *)
Definition reloadable (w : World) (b : t) : Prop :=
  route b <> [] /\
  (forall s, s ∈ route b -> knownSystem w s) /\
  answer b <> "" /\ knownSystem w (answer b) /\
  0 <= reward b /\
  issueTime b <> NOT_GIVEN /\
  (endTime b = NOT_GIVEN ->
     timestampAfter w (issueTime b) (length (route b)) = Ok NOT_GIVEN).

(** What the statements about constructed bounties assume of the game data
    and settings, none of which are part of the sources at hand: system
    names are non-empty and in title case, the planner returns a non-empty
    path of known systems, the ratio is not negative, the clock is past the
    epoch. *)
Definition shipped (w : World) : Prop :=
  (forall s, is_Some (builtInSystemObjs (bbData w) !! s) -> title s = s /\ s <> "") /\
  (forall a b r, bbAStar w a b = Ok r ->
     r <> [] /\ forall s, s ∈ r -> is_Some (builtInSystemObjs (bbData w) !! s)) /\
  Qle 0 (value (bPointsToCreditsRatio w)) /\
  0 < utcnow w.

(** A bounty as the constructor leaves it, with every system unchecked. *)
Definition blank (route : list string) (answer : string) (reward : Z) : t :=
  mk (mkCriminal "Kaamo" "terran" "" false [] "" None) "terran" 1600000000
     (1600000000 + DAY * Z.of_nat (length route)) route reward
     (list_to_map ((fun s => (s, UNCHECKED)) <$> route)) answer None.

(** The bounty of the worked example: route A, B, C, D with answer C and a
    pool of 40 credits. *)
Definition abcd : t := blank ["A"; "B"; "C"; "D"] "C" 40.

End BountySpec.

(** * Vocabulary of the statements about [generate] *)

Module ConfigSpec.
Import BountyConfig.

(** The method body [m] leaves the part [f] of the object alone, however
    it ends. *)
Definition frames {S A B} (f : S -> B) (m : run S A) : Prop :=
  forall st, f (m st).2.1 = f st.1.

(** The host reads a naive date back less than a day east of UTC, as every
    time zone in use is: the timestamp that [timestampAfter] returns is
    less than a day before the date meant. *)
Definition offsetBelowDay (w : World) : Prop :=
  forall t n v, timestampAfter w t n = Ok v -> t + DAY * Z.of_nat n - DAY < v.

(** The reward, issue time and end time that lines 196-203 settle on, for
    a reward that passes the test of line 198. *)
Definition rewardAfter (w : World) (c : t) : outcome Z :=
  if reward c =? -1
  then int_times (Z.of_nat (length (route c))) (bPointsToCreditsRatio w)
  else Ok (reward c).

Definition issueAfter (w : World) (c : t) : Z :=
  if issueTime c =? NOT_GIVEN then utcnow w else issueTime c.

Definition endAfter (w : World) (c : t) : outcome Z :=
  if endTime c =? NOT_GIVEN
  then timestampAfter w (issueAfter w c) (length (route c))
  else Ok (endTime c).

(** [floor(len(route) * ratio)] *)
Definition defaultReward (w : World) (route : list string) : Z :=
  Qfloor (Qmult (inject_Z (Z.of_nat (length route)))
                (value (bPointsToCreditsRatio w))).

(** The steps of [generate] that come before the reward. *)
Definition beforeReward (w : World) (owningDB : option BountyDB)
    (noCriminal forceNoDBCheck : bool) : run t unit :=
  resolveCriminal w owningDB noCriminal forceNoDBCheck ;;
  resolveRoute w ;;
  resolveAnswer w.

End ConfigSpec.

(** * A small game world for the worked examples *)

Module Sample.

Definition systems : gmap string System :=
  list_to_map [("A", mkSystem true); ("B", mkSystem true);
               ("C", mkSystem true); ("D", mkSystem false)].

Definition kaamo : Criminal := mkCriminal "Kaamo" "terran" "" false [] "" None.

(** The [datetime] library of CPython on a Linux host whose clock is UTC.
    [utcfromtimestamp] takes the seconds of the years 1 to 9999, from
    [-62135596800] to [253402300799]; outside them it raises [ValueError],
    [OSError] for a year that the C library cannot hold and [OverflowError]
    for a timestamp beyond 64 bits.  Adding the days raises [OverflowError]
    past the year 9999, and [timestamp] raises [ValueError] within the
    first day of the year 1. *)
Definition utcHost (t : Z) (n : nat) : outcome Z :=
  if (t <? - 2 ^ 63) || (2 ^ 63 <=? t) then Raise OverflowError
  else if (t <? -67768040609740800) || (67768036191676800 <=? t)
  then Raise OSError
  else if (t <? -62135596800) || (253402300799 <? t) then Raise ValueError
  else if 253402300799 <? t + DAY * Z.of_nat n then Raise OverflowError
  else if t + DAY * Z.of_nat n <? -62135596800 + DAY then Raise ValueError
  else Ok (t + DAY * Z.of_nat n).

(** One faction with two built-in names, a ratio of 1000 credits per
    system, a planner that joins two known endpoints directly, a host
    whose clock is UTC. *)
Definition world : World :=
  mkWorld
    (mkBBData (<["terran" := ["Kaamo"; "Loma"]]> ∅) ["terran"] systems
              (<["Kaamo" := kaamo]> ∅) "rocket.png")
    (Int 1000)
    (fun a b => if contains systems a && contains systems b
                then Ok [a; b] else Raise KeyError)
    1600000000
    utcHost.

(** The same world with the ratio [1 / 3], that is the float nearest to
    it. *)
Definition thirds : World :=
  mkWorld (bbData world) (Float (6004799503160661 # 18014398509481984))
    (bbAStar world) (utcnow world) utcHost.

(** The same world on a host twenty-four hours east of UTC. *)
Definition farEast : World :=
  mkWorld (bbData world) (Int 1000) (bbAStar world) (utcnow world)
    (fun t n => Ok (t + DAY * Z.of_nat n - DAY)).

(** A database with room everywhere and no bounty yet. *)
Definition db : BountyDB := mkBountyDB (fun _ => true) (fun _ => false).

(** A custom bounty on "Vossk" with the given route, answer and reward. *)
Definition custom (route : list string) (answer : string) (reward : number)
    : BountyConfig.args :=
  BountyConfig.mkArgs "terran" "Vossk" None route "" "" answer ∅ reward
    NOT_GIVEN NOT_GIVEN "" [] "" None.

(** A custom bounty with a pre-made checked map that has an entry for the
    first route location only. *)
Definition partial : BountyConfig.args :=
  BountyConfig.mkArgs "terran" "Vossk" None ["A"; "B"; "C"] "" "" "B"
    (<["A" := 7]> ∅) (Int 30) NOT_GIVEN NOT_GIVEN "" [] "" None.

(** A custom bounty with a pre-made checked map and timestamps: the answer
    is a known system off the route, the map has an entry for a system off
    the route, and the end time is before the issue time. *)
Definition offRoute : BountyConfig.args :=
  BountyConfig.mkArgs "terran" "Vossk" None ["A"; "B"] "" "" "C"
    (<["D" := 7]> ∅) (Int 30) 10 5 "" [] "" None.


End Sample.

(** * Vocabulary of the further statements *)

Module MoreSpec.
Import Bounty.

(** The sum of the [checked] fields of a result of [calcRewards]. *)
Definition checkedTotal (rs : gmap Z Reward) : Z :=
  map_fold (fun _ e acc => rw_checked e + acc) 0 rs.

(** Partial correctness of a method body: from a state that satisfies [P],
    a run that returns [a] ends in a state that satisfies [Q a]. *)
Definition ensures {S A} (P : S -> Prop) (m : run S A) (Q : A -> S -> Prop) : Prop :=
  forall st a st', P st.1 -> m st = (Ok a, st') -> Q a st'.1.

(** [s] is a known system with a jump gate. *)
Definition hasGate (w : World) (s : string) : Prop :=
  exists sys, builtInSystemObjs (bbData w) !! s = Some sys /\ hasJumpGate sys = true.

(** Unless the database check is switched off, there is a database and it
    has room for a bounty of faction [f]. *)
Definition hasRoom (owningDB : option BountyDB) (forceNoDBCheck : bool)
    (f : string) : Prop :=
  forceNoDBCheck = false ->
  exists db, owningDB = Some db /\ factionCanMakeBounty db f = true.

(** Unless the database check is switched off, there is a database and it
    has no bounty on the name [n]. *)
Definition nameFree (owningDB : option BountyDB) (forceNoDBCheck : bool)
    (n : string) : Prop :=
  forceNoDBCheck = false ->
  exists db, owningDB = Some db /\ bountyNameExists db n = false.

(** The string is made of ASCII characters, on which [lower] and [title]
    are [str.lower] and [str.title]. *)
Fixpoint is_ascii (s : string) : bool :=
  match s with
  | EmptyString => true
  | String c s' => (Ascii.nat_of_ascii c <? 128)%nat && is_ascii s'
  end.

(** The names among the arguments of [BountyConfig.__init__] are ASCII. *)
Definition ascii_args (a : BountyConfig.args) : Prop :=
  is_ascii (BountyConfig.a_faction a) = true /\
  is_ascii (BountyConfig.a_name a) = true /\
  Forall (fun s => is_ascii s = true) (BountyConfig.a_route a) /\
  is_ascii (BountyConfig.a_start a) = true /\
  is_ascii (BountyConfig.a_end a) = true /\
  is_ascii (BountyConfig.a_answer a) = true.

(** The arguments that hand the attributes of a configuration back to
    [BountyConfig.__init__]. *)
Definition fields (c : BountyConfig.t) : BountyConfig.args :=
  BountyConfig.mkArgs (BountyConfig.faction c) (BountyConfig.name c)
    (Some (BountyConfig.isPlayer c)) (BountyConfig.route c)
    (BountyConfig.start c) (BountyConfig.end_ c) (BountyConfig.answer c)
    (BountyConfig.checked c) (Int (BountyConfig.reward c))
    (BountyConfig.issueTime c) (BountyConfig.endTime c) (BountyConfig.icon c)
    (BountyConfig.aliases c) (BountyConfig.wiki c) (BountyConfig.ship c).

End MoreSpec.

(** * Facts about [Bounty] *)

(** Unfold the sequencing of outcomes. *)
Ltac outcome_simpl :=
  cbv [mret outcome_ret mbind outcome_bind] in *.

Section float_facts.

Lemma round_half_even_bounds a b :
  0 <= a -> 0 < b ->
  a / b <= round_half_even a b <= a / b + 1 /\
  (round_half_even a b = a / b + 1 -> b <= 2 * (a mod b)).
Proof.
  intros Ha Hb. unfold round_half_even.
  destruct (Z.ltb_spec (2 * (a mod b)) b); [lia|].
  destruct (Z.ltb_spec b (2 * (a mod b))); [lia|].
  destruct (Z.even (a / b)); lia.
Qed.

Lemma exponent_lower num den :
  0 < num -> 0 < den ->
  2 ^ 52 * (scale num den (exponent num den)).2
    <= (scale num den (exponent num den)).1.
Proof.
  intros Hn Hd. unfold exponent.
  set (e0 := Z.log2 num - Z.log2 den - 52).
  destruct (Z.leb_spec (2 ^ 52 * (scale num den e0).2) (scale num den e0).1)
    as [Hle|Hlt]; [exact Hle|].
  clear Hlt.
  pose proof (Z.log2_spec num Hn) as [Hn1 _].
  pose proof (Z.log2_spec den Hd) as [_ Hd2].
  pose proof (Z.log2_nonneg num) as Hln.
  pose proof (Z.log2_nonneg den) as Hld.
  unfold scale.
  destruct (Z.leb_spec 0 (e0 - 1)) as [He|He]; cbn [fst snd].
  - assert (2 ^ Z.log2 num = 2 ^ Z.succ (Z.log2 den) * (2 ^ (e0 - 1) * 2 ^ 52))
      as Hpow.
    { rewrite <- !Z.pow_add_r by lia. f_equal. unfold e0. lia. }
    assert (0 < 2 ^ (e0 - 1) * 2 ^ 52) by (apply Z.mul_pos_pos; by apply Z.pow_pos_nonneg).
    nia.
  - assert (2 ^ Z.log2 num * 2 ^ (- (e0 - 1)) = 2 ^ 52 * 2 ^ Z.succ (Z.log2 den))
      as Hpow.
    { rewrite <- !Z.pow_add_r by lia. f_equal. unfold e0. lia. }
    assert (0 < 2 ^ (- (e0 - 1))) by (apply Z.pow_pos_nonneg; lia).
    nia.
Qed.

Lemma float_trunc_exact n d :
  0 <= n < 2 ^ 53 -> 0 < d -> float_trunc n d = n / d.
Proof.
  intros [Hn0 Hn] Hd. unfold float_trunc.
  destruct (decide (n = 0)) as [->|Hne]; [by rewrite Z.div_0_l by lia|].
  rewrite Z.sgn_pos, Z.abs_eq, Z.mul_1_l by lia.
  unfold nearest, truncate. cbn [fst snd].
  pose proof (exponent_lower n d ltac:(lia) Hd) as Hlow.
  set (e := exponent n d) in *.
  assert (e <= 0) as He.
  { destruct (Z.leb_spec e 0) as [|Hpos]; [done|]. exfalso.
    unfold scale in Hlow. destruct (Z.leb_spec 0 e); [|lia]. cbn [fst snd] in Hlow.
    assert (2 ^ 1 <= 2 ^ e) by (apply Z.pow_le_mono_r; lia).
    change (2 ^ 53) with (2 ^ 52 * 2 ^ 1) in Hn. nia. }
  set (s := - e).
  assert (0 <= s) as Hs by lia.
  assert (0 < 2 ^ s) as Hp by (by apply Z.pow_pos_nonneg).
  assert (scale n d e = (n * 2 ^ s, d)) as Hsc.
  { unfold scale. destruct (Z.leb_spec 0 e); [|done].
    assert (e = 0) as Hz by lia. subst s. rewrite Hz. cbn. f_equal; lia. }
  rewrite Hsc in *. cbn [fst snd] in *.
  destruct (round_half_even_bounds (n * 2 ^ s) d ltac:(nia) Hd) as [[Hm1 Hm2] Hup].
  set (m := round_half_even (n * 2 ^ s) d) in *.
  assert (d < 2 * 2 ^ s) as Hprec.
  { change (2 ^ 53) with (2 * 2 ^ 52) in Hn. nia. }
  pose proof (Z.div_mod n d ltac:(lia)) as Hdiv.
  pose proof (Z.mod_pos_bound n d Hd) as Hr.
  set (k := n / d) in *. set (r := n mod d) in *.
  pose proof (Z.div_mod (n * 2 ^ s) d ltac:(lia)) as Hdiv'.
  pose proof (Z.mod_pos_bound (n * 2 ^ s) d Hd) as Hr'.
  set (q := n * 2 ^ s / d) in *. set (r' := (n * 2 ^ s) mod d) in *.
  assert (k * 2 ^ s <= m < (k + 1) * 2 ^ s) as Hbounds.
  { split.
    - assert (k * 2 ^ s <= q); [|lia].
      apply Z.div_le_lower_bound; [done|]. nia.
    - destruct (decide (m = q + 1)) as [Hq|Hq].
      + specialize (Hup Hq). nia.
      + assert (m = q) as -> by lia.
        assert (q * d < (k + 1) * 2 ^ s * d); [nia|].
        apply Z.mul_lt_mono_pos_r with d; [done|]. done. }
  assert (m / 2 ^ s = k) as Hres.
  { symmetry. apply Z.div_unique with (m - k * 2 ^ s); lia. }
  destruct (Z.leb_spec 0 e).
  - assert (e = 0) as Hz by lia. subst s. rewrite Hz in *. cbn in Hres.
    rewrite Z.div_1_r in Hres. cbn. lia.
  - exact Hres.
Qed.

Lemma float_trunc_nonneg num den : 0 <= num -> 0 < den -> 0 <= float_trunc num den.
Proof.
  intros Hn Hd. unfold float_trunc.
  destruct (decide (num = 0)) as [->|Hne]; [done|].
  rewrite Z.sgn_pos, Z.abs_eq, Z.mul_1_l by lia.
  unfold nearest, truncate. cbn [fst snd].
  set (e := exponent num den).
  assert (0 <= (scale num den e).1 /\ 0 < (scale num den e).2) as [Ha Hb].
  { unfold scale. destruct (Z.leb_spec 0 e); cbn [fst snd].
    - split; [lia|]. apply Z.mul_pos_pos; [done|]. by apply Z.pow_pos_nonneg.
    - split; [|done]. apply Z.mul_nonneg_nonneg; [done|].
      apply Z.pow_nonneg. lia. }
  destruct (round_half_even_bounds _ _ Ha Hb) as [[Hm _] _].
  assert (0 <= (scale num den e).1 / (scale num den e).2) by (by apply Z.div_pos).
  destruct (Z.leb_spec 0 e).
  - apply Z.mul_nonneg_nonneg; [lia|]. by apply Z.pow_nonneg.
  - apply Z.div_pos; [lia|]. apply Z.pow_pos_nonneg; lia.
Qed.

(** Up to [2 ^ 1023] the quotient is within the range of a float. *)
Lemma float_int_in_range n d :
  Z.abs n < 2 ^ 1023 -> 0 < d -> float_int n d = Ok (float_trunc n d).
Proof.
  intros Hn Hd. unfold float_int.
  assert (finite (nearest (Z.abs n) d) = true) as ->; [|done].
  unfold finite, nearest. cbn [fst snd].
  destruct (decide (n = 0)) as [->|Hne].
  { apply orb_true_iff. left. apply Z.ltb_lt. unfold exponent.
    pose proof (Z.log2_nonneg d). change (Z.log2 (Z.abs 0)) with 0.
    destruct (_ <=? _); lia. }
  pose proof (exponent_lower (Z.abs n) d ltac:(lia) Hd) as Hlow.
  set (e := exponent (Z.abs n) d) in *.
  destruct (Z.ltb_spec e 0) as [|He]; [done|]. simpl.
  apply Z.ltb_lt.
  unfold scale in *. destruct (Z.leb_spec 0 e); [|lia]. cbn [fst snd] in *.
  assert (0 < 2 ^ e) as Hp by (by apply Z.pow_pos_nonneg).
  destruct (round_half_even_bounds (Z.abs n) (d * 2 ^ e) ltac:(lia) ltac:(nia))
    as [[_ Hm] _].
  set (m := round_half_even (Z.abs n) (d * 2 ^ e)) in *.
  assert (Z.abs n / (d * 2 ^ e) * (d * 2 ^ e) <= Z.abs n) as Hq
    by (rewrite Z.mul_comm; apply Z.mul_div_le; nia).
  assert (0 <= Z.abs n / (d * 2 ^ e)) by (apply Z.div_pos; nia).
  assert (2 ^ e < 2 ^ 971).
  { change (2 ^ 1023) with (2 ^ 52 * 2 ^ 971) in Hn. nia. }
  change (2 ^ 1024) with (2 ^ 1023 + 2 ^ 1023).
  assert (2 ^ 971 < 2 ^ 1023) by (apply Z.pow_lt_mono_r; lia).
  nia.
Qed.

End float_facts.

Section bounty_facts.
Import Bounty BountySpec.

Lemma check_off_route b system userID :
  system ∉ route b -> check b system userID = Ok (0, b).
Proof.
  intros Hout. unfold check.
  rewrite bool_decide_eq_false_2 by done. reflexivity.
Qed.

Lemma check_on_route b system userID v :
  system ∈ route b -> checked b !! system = Some v ->
  check b system userID =
    if v =? UNCHECKED
    then Ok (if String.eqb (answer b) system then 3 else 2,
             set_checked (<[system := userID]> (checked b)) b)
    else Ok (1, b).
Proof.
  intros Hin Hv. unfold check, systemChecked, getitem.
  rewrite bool_decide_eq_true_2 by done. rewrite Hv. simpl.
  destruct (v =? UNCHECKED); simpl; [|reflexivity].
  destruct (String.eqb (answer b) system); reflexivity.
Qed.

(** [check] never touches an entry that holds a user id. *)
Lemma check_keeps_owner b system userID code b' s u :
  check b system userID = Ok (code, b') ->
  checked b !! s = Some u -> u <> UNCHECKED ->
  checked b' !! s = Some u.
Proof.
  intros Hc Hs Hu. unfold check, systemChecked, getitem in Hc.
  outcome_simpl.
  destruct (bool_decide (system ∈ route b)); simpl in Hc; [|congruence].
  destruct (checked b !! system) as [v|] eqn:Hv; [|discriminate].
  destruct (v =? UNCHECKED) eqn:Hvu; simpl in Hc; [|congruence].
  apply Z.eqb_eq in Hvu. subst v.
  assert (system <> s) by (intros ->; congruence).
  destruct (String.eqb _ _); inversion Hc; subst; simpl;
    by rewrite lookup_insert_ne.
Qed.

Lemma checks_keep_owner calls : forall b s u,
  checked b !! s = Some u -> u <> UNCHECKED ->
  checked (checks b calls) !! s = Some u.
Proof.
  induction calls as [|[system userID] calls IH]; intros b s u Hs Hu; [done|].
  simpl. destruct (check b system userID) as [[code b']| |] eqn:Hc; eauto.
  eapply IH; eauto using check_keeps_owner.
Qed.

Lemma check_route b system userID code b' :
  check b system userID = Ok (code, b') -> route b' = route b.
Proof.
  unfold check, systemChecked, getitem. outcome_simpl.
  destruct (bool_decide (system ∈ route b)); simpl; [|congruence].
  destruct (checked b !! system) as [v|]; [|discriminate].
  destruct (v =? UNCHECKED); simpl; [|congruence].
  destruct (String.eqb _ _); intros [= _ <-]; reflexivity.
Qed.

Lemma checks_route calls : forall b, route (checks b calls) = route b.
Proof.
  induction calls as [|[system userID] calls IH]; intros b; [done|].
  simpl. destruct (check b system userID) as [[code b']| |] eqn:Hc; auto.
  rewrite IH. eauto using check_route.
Qed.

(** C1, as the code has it.  Off the route [check] returns 0 and leaves the
    bounty as it is; on a system whose entry holds a user id it returns 1
    and leaves the bounty as it is; on a system whose entry is the
    unchecked marker it stores the caller's id and returns 3 for the answer
    and 2 otherwise.  A stored id other than the marker [-1] stays for
    good: whatever [check] calls follow, the entry keeps it and every
    further call on that system returns 1. *)
Theorem check_spec b system userID :
  (system ∉ route b -> check b system userID = Ok (0, b)) /\
  (forall v, system ∈ route b -> checked b !! system = Some v ->
     v <> UNCHECKED -> check b system userID = Ok (1, b)) /\
  (system ∈ route b -> checked b !! system = Some UNCHECKED ->
     check b system userID =
       Ok (if String.eqb (answer b) system then 3 else 2,
           set_checked (<[system := userID]> (checked b)) b)) /\
  (userID <> UNCHECKED ->
   forall code b', check b system userID = Ok (code, b') ->
     code = 2 \/ code = 3 ->
     forall calls,
       checked (checks b' calls) !! system = Some userID /\
       forall other,
         check (checks b' calls) system other = Ok (1, checks b' calls)).
Proof.
  split; [apply check_off_route|].
  split.
  { intros v Hin Hv Hne. rewrite (check_on_route _ _ _ v) by done.
    by apply Z.eqb_neq in Hne as ->. }
  split.
  { intros Hin Hv. by rewrite (check_on_route _ _ _ UNCHECKED). }
  intros Hid code b' Hc Hcode calls.
  assert (system ∈ route b /\ checked b' !! system = Some userID) as [Hin Hown].
  { unfold check, systemChecked, getitem in Hc. outcome_simpl.
    destruct (bool_decide (system ∈ route b)) eqn:Hd; simpl in Hc.
    2:{ destruct Hcode; congruence. }
    apply bool_decide_eq_true_1 in Hd. split; [done|].
    destruct (checked b !! system) as [v|]; [|discriminate].
    destruct (v =? UNCHECKED); simpl in Hc.
    2:{ destruct Hcode; congruence. }
    destruct (String.eqb _ _); inversion Hc; subst; simpl;
      apply lookup_insert_eq. }
  pose proof (checks_keep_owner calls b' system userID Hown Hid) as Hkept.
  split; [done|]. intros other.
  rewrite (check_on_route _ _ _ userID);
    [|by rewrite checks_route, (check_route _ _ _ _ _ Hc)|done].
  by apply Z.eqb_neq in Hid as ->.
Qed.

Lemma check_spec_witness :
  check abcd "A" 1 = Ok (2, set_checked (<["A" := 1]> (checked abcd)) abcd) /\
  checked (checks (set_checked (<["A" := 1]> (checked abcd)) abcd)
             [("A", 2); ("C", 3)]) !! "A" = Some 1.
Proof.
  destruct (check_spec abcd "A" 1) as (_ & _ & Hthird & Hlast).
  assert (check abcd "A" 1 = Ok (2, set_checked (<["A" := 1]> (checked abcd)) abcd))
    as Hcall.
  { apply Hthird; vm_compute; [repeat constructor | reflexivity]. }
  split; [exact Hcall|].
  apply (Hlast ltac:(discriminate) _ _ Hcall (or_introl eq_refl)
           [("A", 2); ("C", 3)]).
Defined.

(** The statement of C1 fails for the caller id [-1]: the call stores the
    marker itself, and the next caller takes the location over. *)
Lemma check_owner_not_permanent :
  ~ (forall b system userID code b' calls,
       check b system userID = Ok (code, b') -> code = 2 \/ code = 3 ->
       checked (checks b' calls) !! system = Some userID).
Proof.
  intros Hperm.
  specialize (Hperm (blank ["A"] "A" 10) "A" (-1) 3
                (blank ["A"] "A" 10) [("A", 7)]).
  vm_compute in Hperm.
  specialize (Hperm eq_refl (or_intror eq_refl)). discriminate.
Qed.

(** *** Counting route entries *)

Lemma tally_nonneg p l : 0 <= tally p l.
Proof. induction l as [|s l IH]; simpl; [lia|]. destruct (p s); lia. Qed.

Lemma tally_le_length p l : tally p l <= Z.of_nat (length l).
Proof. induction l as [|s l IH]; simpl; [lia|]. destruct (p s); lia. Qed.


Lemma tally_split p q l :
  tally p l = tally (fun s => p s && q s) l + tally (fun s => p s && negb (q s)) l.
Proof.
  induction l as [|s l IH]; simpl; [done|].
  rewrite IH. destruct (p s), (q s); simpl; lia.
Qed.

Lemma tally_negb p l :
  tally (fun s => negb (p s)) l = Z.of_nat (length l) - tally p l.
Proof.
  induction l as [|s l IH]; simpl length; simpl tally; [done|].
  destruct (p s); simpl; lia.
Qed.

Lemma tally_pos p l : 0 < tally p l <-> exists s, s ∈ l /\ p s = true.
Proof.
  induction l as [|s l IH]; simpl.
  - split; [lia|]. intros (s & Hs & _). by apply elem_of_nil in Hs.
  - pose proof (tally_nonneg p l). split.
    + destruct (p s) eqn:Hp; [exists s; split; [constructor|done]|].
      intros Hpos. destruct IH as [IH _].
      destruct IH as (s' & Hs' & Hp'); [lia|].
      exists s'. split; [by constructor|done].
    + intros (s' & Hs' & Hp'). apply elem_of_cons in Hs' as [->|Hs'].
      * rewrite Hp'. lia.
      * destruct IH as [_ IH]. specialize (IH (ex_intro _ s' (conj Hs' Hp'))).
        destruct (p s); lia.
Qed.

Lemma tally_le p q l :
  (forall s, p s = true -> q s = true) -> tally p l <= tally q l.
Proof.
  intros Hpq. induction l as [|s l IH]; simpl; [lia|].
  destruct (p s) eqn:Hp; [rewrite (Hpq s Hp); lia|].
  destruct (q s); lia.
Qed.

Lemma tally_none p l : (forall s, s ∈ l -> p s = false) -> tally p l = 0.
Proof.
  induction l as [|x l IH]; intros Hp; simpl; [done|].
  rewrite (Hp x) by constructor. rewrite IH; [done|].
  intros s Hs. apply Hp. by constructor.
Qed.

(** In a route without repetition the answer occurs at most once. *)
Lemma answer_once b : NoDup (route b) -> tally (isAnswer b) (route b) <= 1.
Proof.
  unfold isAnswer. generalize (answer b) as a.
  induction (route b) as [|x l IH]; intros a Hnd; simpl; [lia|].
  apply NoDup_cons in Hnd as [Hx Hl].
  destruct (String.eqb a x) eqn:Hax; [|specialize (IH a Hl); lia].
  apply String.eqb_eq in Hax. subst x.
  rewrite tally_none; [lia|].
  intros s Hs. apply String.eqb_neq. by intros <-.
Qed.

(** *** The sum of the rewards of a result *)

Lemma total_empty : total ∅ = 0.
Proof. apply map_fold_empty. Qed.

Lemma total_insert_fresh rs u e :
  rs !! u = None -> total (<[u := e]> rs) = rw_reward e + total rs.
Proof.
  intros Hu. unfold total.
  rewrite map_fold_insert_L; [done| |done].
  intros; lia.
Qed.

Lemma total_insert_over rs u e e' :
  rs !! u = Some e ->
  total (<[u := e']> rs) = total rs - rw_reward e + rw_reward e'.
Proof.
  intros Hu.
  rewrite <- (insert_delete_eq rs u e').
  rewrite <- (insert_delete_id rs u e Hu) at 2.
  rewrite !total_insert_fresh by apply lookup_delete_eq. lia.
Qed.

Lemma contains_lookup {V} (d : gmap Z V) k :
  contains d k = match d !! k with Some _ => true | None => false end.
Proof.
  unfold contains. destruct (d !! k) eqn:Hk.
  - by rewrite bool_decide_eq_true_2.
  - rewrite bool_decide_eq_false_2; [done|]. by intros [? ?].
Qed.

(** *** The two loops of [calcRewards] *)

Lemma countLoop_spec b l :
  (forall s, s ∈ l -> is_Some (checked b !! s)) ->
  forall rs n, exists rs',
    countLoop b l rs n = Ok (rs', n + tally (isChecked b) l) /\
    (forall u, rs' !! u =
       match rs !! u with
       | Some e => Some e
       | None => if 0 <? tally (checkedBy b u) l
                 then Some (mkReward 0 0 false) else None
       end) /\
    total rs' = total rs.
Proof.
  induction l as [|s l IH]; intros Hl rs n.
  { exists rs. simpl. rewrite Z.add_0_r. split; [done|]. split; [|done].
    intros u. by destruct (rs !! u). }
  assert (forall s', s' ∈ l -> is_Some (checked b !! s')) as Hl'
    by (intros; apply Hl; by constructor).
  destruct (Hl s) as [v Hv]; [constructor|].
  assert (isChecked b s = negb (v =? UNCHECKED)) as Hic
    by (unfold isChecked; by rewrite Hv).
  assert (forall u, checkedBy b u s = negb (v =? UNCHECKED) && (v =? u)) as Hcb
    by (intros; unfold checkedBy; by rewrite Hv).
  pose proof (tally_nonneg (isChecked b) l) as Hnn.
  simpl countLoop. simpl tally. rewrite Hic.
  unfold systemChecked, getitem. rewrite Hv. outcome_simpl.
  destruct (v =? UNCHECKED) eqn:Hvu; simpl negb; cbv iota.
  { destruct (IH Hl' rs n) as (rs' & Hrun & Hlook & Htot).
    exists rs'. rewrite Hrun. split; [done|]. split; [|done].
    intros u. rewrite Hlook, Hcb; simpl negb; simpl andb. done. }
  rewrite contains_lookup.
  destruct (rs !! v) as [e|] eqn:Hrv; simpl negb; cbv iota.
  - destruct (IH Hl' rs (n + 1)) as (rs' & Hrun & Hlook & Htot).
    exists rs'. rewrite Hrun. split; [do 2 f_equal; lia|]. split; [|done].
    intros u. rewrite Hlook, Hcb; simpl negb; simpl andb.
    destruct (rs !! u) as [e'|] eqn:Hru; [done|].
    destruct (v =? u) eqn:Hvu'; [apply Z.eqb_eq in Hvu'; congruence|].
    done.
  - destruct (IH Hl' (<[v := mkReward 0 0 false]> rs) (n + 1))
      as (rs' & Hrun & Hlook & Htot).
    exists rs'. rewrite Hrun. split; [do 2 f_equal; lia|]. split.
    + intros u. rewrite Hlook, Hcb; simpl negb; simpl andb. destruct (decide (v = u)) as [->|Hne].
      * rewrite lookup_insert_eq, Hrv, Z.eqb_refl.
        pose proof (tally_nonneg (checkedBy b u) l).
        simpl. destruct (0 <? 1 + _) eqn:Hpos; [done|]. apply Z.ltb_ge in Hpos. lia.
      * rewrite lookup_insert_ne by done.
        destruct (rs !! u); [done|].
        destruct (v =? u) eqn:Hvu'; [apply Z.eqb_eq in Hvu'; congruence|].
        done.
    + rewrite Htot, total_insert_fresh by done. simpl. lia.
Qed.

Lemma credit_none b unc e : credit b unc 0 0 e = e.
Proof.
  destruct e as [r c w]. unfold credit. simpl. f_equal; [lia|lia|].
  apply orb_false_r.
Qed.

Lemma payLoop_spec b unc l :
  (forall s, s ∈ l -> is_Some (checked b !! s)) ->
  forall rs,
    (forall s v, s ∈ l -> checked b !! s = Some v -> v <> UNCHECKED ->
       is_Some (rs !! v)) ->
    exists rs',
      payLoop b unc l rs = Ok rs' /\
      (forall u, rs' !! u =
         credit b unc
           (tally (fun s => checkedBy b u s && negb (isAnswer b s)) l)
           (tally (fun s => checkedBy b u s && isAnswer b s) l) <$> rs !! u) /\
      total rs' =
        total rs
        + share b * tally (fun s => isChecked b s && negb (isAnswer b s)) l
        + share b * (unc + 1) * tally (fun s => isChecked b s && isAnswer b s) l.
Proof.
  induction l as [|s l IH]; intros Hl rs Hkeys.
  { exists rs. simpl. split; [done|]. split; [|lia].
    intros u. destruct (rs !! u) as [e|]; simpl; [|done].
    by rewrite credit_none. }
  assert (forall s', s' ∈ l -> is_Some (checked b !! s')) as Hl'
    by (intros; apply Hl; by constructor).
  assert (forall rs0 : gmap Z Reward, (forall v, is_Some (rs !! v) -> is_Some (rs0 !! v)) ->
            forall s' v, s' ∈ l -> checked b !! s' = Some v -> v <> UNCHECKED ->
              is_Some (rs0 !! v)) as Hkeys'.
  { intros rs0 Hmono s' v' Hs' Hv' Hne. apply Hmono.
    apply (Hkeys s' v'); [by constructor|done|done]. }
  destruct (Hl s) as [v Hv]; [constructor|].
  assert (isChecked b s = negb (v =? UNCHECKED)) as Hic
    by (unfold isChecked; by rewrite Hv).
  assert (forall u, checkedBy b u s = negb (v =? UNCHECKED) && (v =? u)) as Hcb
    by (intros; unfold checkedBy; by rewrite Hv).
  simpl payLoop. simpl tally. rewrite Hic.
  unfold systemChecked, getitem. rewrite Hv. outcome_simpl.
  destruct (v =? UNCHECKED) eqn:Hvu; simpl negb; cbv iota.
  { destruct (IH Hl' rs (Hkeys' rs (fun _ H => H))) as (rs' & Hrun & Hlook & Htot).
    exists rs'. rewrite Hrun. split; [done|]. split.
    - intros u. rewrite Hlook, Hcb. simpl. done.
    - rewrite Htot. simpl. lia. }
  apply Z.eqb_neq in Hvu.
  destruct (Hkeys s v) as [e He]; [constructor|done|done|].
  rewrite He. fold (isAnswer b s).
  destruct (isAnswer b s) eqn:Hans; simpl.
  - match goal with |- context [payLoop b unc l ?m] =>
      destruct (IH Hl' m) as (rs' & Hrun & Hlook & Htot) end.
    { apply Hkeys'. intros v' Hv'. apply lookup_insert_is_Some'. by right. }
    exists rs'. rewrite Hrun. split; [done|]. split.
    + intros u. rewrite Hlook, Hcb. destruct (decide (v = u)) as [->|Hne].
      * rewrite lookup_insert_eq, He, Z.eqb_refl. simpl.
        pose proof (tally_nonneg (fun s0 => checkedBy b u s0 && isAnswer b s0) l).
        unfold credit. simpl. f_equal. f_equal; [lia|lia|].
        destruct (0 <? 1 + _) eqn:Hpos; [by rewrite orb_true_r|].
        apply Z.ltb_ge in Hpos. lia.
      * rewrite lookup_insert_ne by done.
        destruct (v =? u) eqn:Hvu'; [apply Z.eqb_eq in Hvu'; congruence|].
        simpl. done.
    + rewrite Htot, (total_insert_over _ _ e) by done. simpl. lia.
  - match goal with |- context [payLoop b unc l ?m] =>
      destruct (IH Hl' m) as (rs' & Hrun & Hlook & Htot) end.
    { apply Hkeys'. intros v' Hv'. apply lookup_insert_is_Some'. by right. }
    exists rs'. rewrite Hrun. split; [done|]. split.
    + intros u. rewrite Hlook, Hcb. destruct (decide (v = u)) as [->|Hne].
      * rewrite lookup_insert_eq, He, Z.eqb_refl. simpl.
        unfold credit. simpl. f_equal. f_equal; lia.
      * rewrite lookup_insert_ne by done.
        destruct (v =? u) eqn:Hvu'; [apply Z.eqb_eq in Hvu'; congruence|].
        simpl. done.
    + rewrite Htot, (total_insert_over _ _ e) by done. simpl. lia.
Qed.

(** The result of [calcRewards], entry by entry, and the sum of its
    rewards. *)
Lemma calcRewards_entries b :
  wf b ->
  exists rs,
    calcRewards b = Ok rs /\
    (forall u, rs !! u =
       if 0 <? nChecked b u then
         Some (mkReward
                 (share b * (nChecked b u - nAnswer b u)
                  + share b * (uncheckedCount b + 1) * nAnswer b u)
                 (nChecked b u)
                 (0 <? nAnswer b u))
       else None) /\
    total rs =
      share b * tally (fun s => isChecked b s && negb (isAnswer b s)) (route b)
      + share b * (uncheckedCount b + 1)
        * tally (fun s => isChecked b s && isAnswer b s) (route b).
Proof.
  intros Hwf. unfold calcRewards.
  destruct (countLoop_spec b (route b) Hwf ∅ 0) as (rs1 & Hrun1 & Hlook1 & Htot1).
  rewrite Hrun1. outcome_simpl.
  rewrite Z.add_0_l, <- tally_negb. fold (uncheckedCount b).
  destruct (payLoop_spec b (uncheckedCount b) (route b) Hwf rs1)
    as (rs & Hrun & Hlook & Htot).
  { intros s v Hs Hv Hne. rewrite Hlook1, lookup_empty.
    assert (0 < tally (checkedBy b v) (route b)) as Hpos.
    { apply tally_pos. exists s. split; [done|].
      unfold checkedBy. rewrite Hv, Z.eqb_refl.
      by apply Z.eqb_neq in Hne as ->. }
    apply Z.ltb_lt in Hpos as ->. eauto. }
  exists rs. split; [done|]. split.
  - intros u. rewrite Hlook, Hlook1, lookup_empty. fold (nChecked b u).
    destruct (0 <? nChecked b u); simpl; [|done].
    fold (nAnswer b u). unfold credit. simpl.
    assert (tally (fun s => checkedBy b u s && negb (isAnswer b s)) (route b)
            = nChecked b u - nAnswer b u) as ->.
    { unfold nChecked, nAnswer.
      rewrite (tally_split (checkedBy b u) (isAnswer b)). lia. }
    do 2 f_equal; lia.
  - rewrite Htot, Htot1, total_empty. lia.
Qed.

(** Below [2 ^ 53] the float division is exact enough for [int] to give
    the floor. *)
Lemma share_floor b :
  0 <= reward b < 2 ^ 53 -> route b <> [] -> share b = floorShare b.
Proof.
  intros Hr Hroute. unfold share, floorShare.
  apply float_trunc_exact; [done|].
  destruct (route b); [done|]. simpl length. lia.
Qed.

(** For a pool whose share a float can hold the division returns. *)
Lemma share_in_range b :
  floatPool b -> route b <> [] ->
  float_int (reward b) (Z.of_nat (length (route b))) = Ok (share b).
Proof.
  intros Hb Hroute. apply float_int_in_range; [exact Hb|].
  destruct (route b); [done|]. simpl length. lia.
Qed.

Lemma share_nonneg b : 0 <= reward b -> route b <> [] -> 0 <= share b.
Proof.
  intros Hr Hroute. apply float_trunc_nonneg; [done|].
  destruct (route b); [done|]. simpl length. lia.
Qed.



(** C4, as the code has it.  For a bounty whose route systems all have
    their entry and whose pool is not negative and below [2 ^ 53], up to
    which the float division of the pool is exact enough,
    [calcRewards] returns, for every contributor
    with at least one checked route location, [floor(reward / len(route))]
    credits per checked location, the answer location counting for
    [uncheckedCount + 1] such shares, together with the number of checked
    locations and the won flag; nobody else has an entry.  Locations are
    counted as entries of the route, and in a route without repetition a
    contributor has the answer among the checked locations once or not at
    all.  On the route A, B, C, D with answer C and a pool of 40, after X
    checked A and Y checked C, X has [checked 1, reward 10, won False] and
    Y has [checked 1, reward 30, won True]. *)
Theorem calcRewards_spec :
  (forall b, wf b -> 0 <= reward b < 2 ^ 53 ->
     exists rs, calcRewards b = Ok rs /\ forall u, rs !! u = promised b u) /\
  (forall b u, NoDup (route b) -> nAnswer b u = 0 \/ nAnswer b u = 1) /\
  (forall X Y, X <> Y -> X <> UNCHECKED -> Y <> UNCHECKED ->
     exists b1 b2,
       check abcd "A" X = Ok (2, b1) /\
       check b1 "C" Y = Ok (3, b2) /\
       uncheckedCount b2 = 2 /\
       calcRewards b2 =
         Ok (<[X := mkReward 10 1 false]> (<[Y := mkReward 30 1 true]> ∅))).
Proof.
  assert (forall b, wf b -> 0 <= reward b < 2 ^ 53 ->
     exists rs, calcRewards b = Ok rs /\ forall u, rs !! u = promised b u) as Hgen.
  { intros b Hwf Hr. destruct (calcRewards_entries b Hwf) as (rs & Hrun & Hlook & _).
    exists rs. split; [done|]. intros u. rewrite Hlook. unfold promised.
    destruct (decide (route b = [])) as [Hempty|Hroute].
    - unfold nChecked. by rewrite Hempty.
    - by rewrite share_floor. }
  split; [exact Hgen|]. split.
  { intros b u Hnd. pose proof (answer_once b Hnd) as Hone.
    assert (nAnswer b u <= tally (isAnswer b) (route b)) as Hle.
    { apply tally_le. intros s Hs. by apply andb_true_iff in Hs as [_ ?]. }
    pose proof (tally_nonneg (fun s => checkedBy b u s && isAnswer b s) (route b)).
    unfold nAnswer in *. lia. }
  intros X Y HXY HX HY.
  set (b1 := set_checked (<["A" := X]> (checked abcd)) abcd).
  set (b2 := set_checked (<["C" := Y]> (checked b1)) b1).
  exists b1, b2.
  assert (checked b2 !! "A" = Some X /\ checked b2 !! "B" = Some UNCHECKED /\
          checked b2 !! "C" = Some Y /\ checked b2 !! "D" = Some UNCHECKED)
    as (HA & HB & HC & HD) by (by vm_compute).
  split; [by vm_compute|]. split; [by vm_compute|].
  apply Z.eqb_neq in HX, HY.
  assert (uncheckedCount b2 = 2) as Hunc.
  { unfold uncheckedCount, isChecked.
    change (route b2) with ["A"; "B"; "C"; "D"]. cbn [tally].
    rewrite HA, HB, HC, HD, HX, HY. reflexivity. }
  split; [exact Hunc|].
  destruct (Hgen b2) as (rs & Hrun & Hlook).
  { intros s Hs. change (route b2) with ["A"; "B"; "C"; "D"] in Hs.
    repeat (apply elem_of_cons in Hs as [->|Hs]); eauto.
    by apply elem_of_nil in Hs. }
  { change (reward b2) with 40. lia. }
  rewrite Hrun. f_equal. apply map_eq. intros u. rewrite Hlook.
  unfold promised, nChecked, nAnswer. rewrite Hunc.
  unfold checkedBy, isAnswer, floorShare.
  change (route b2) with ["A"; "B"; "C"; "D"].
  change (answer b2) with "C". change (reward b2) with 40. cbn [tally].
  rewrite HA, HB, HC, HD, HX, HY. simpl.
  destruct (decide (X = u)) as [<-|HneX].
  - rewrite lookup_insert_eq, Z.eqb_refl.
    assert ((Y =? X) = false) as -> by (apply Z.eqb_neq; congruence).
    reflexivity.
  - rewrite lookup_insert_ne by done.
    assert ((X =? u) = false) as -> by (by apply Z.eqb_neq).
    destruct (decide (Y = u)) as [<-|HneY].
    + rewrite lookup_insert_eq, Z.eqb_refl. reflexivity.
    + rewrite lookup_insert_ne, lookup_empty by done.
      assert ((Y =? u) = false) as -> by (by apply Z.eqb_neq).
      reflexivity.
Qed.

Lemma calcRewards_spec_witness :
  (exists rs,
     calcRewards (checks abcd [("A", 1001); ("C", 1002)]) = Ok rs /\
     rs !! 1002 = promised (checks abcd [("A", 1001); ("C", 1002)]) 1002) /\
  (exists b1 b2,
     check abcd "A" 1001 = Ok (2, b1) /\
     check b1 "C" 1002 = Ok (3, b2) /\
     uncheckedCount b2 = 2 /\
     calcRewards b2 =
       Ok (<[1001 := mkReward 10 1 false]> (<[1002 := mkReward 30 1 true]> ∅))).
Proof.
  split.
  - destruct (proj1 calcRewards_spec (checks abcd [("A", 1001); ("C", 1002)]))
      as (rs & Hrun & Hlook).
    + intros s Hs. vm_compute in Hs.
      repeat (apply elem_of_cons in Hs as [->|Hs]); [by eexists..|].
      by apply elem_of_nil in Hs.
    + split; by vm_compute.
    + exists rs. split; [exact Hrun | apply Hlook].
  - apply (proj2 (proj2 calcRewards_spec) 1001 1002); discriminate.
Defined.

(** C5, as the code has it.  For a bounty whose route systems all have
    their entry, whose pool is not negative and below [2 ^ 53], and whose
    answer occurs at most once in the route, the rewards of [calcRewards]
    sum to at most the pool, and a contributor who checked no route
    location has no entry. *)
Theorem calcRewards_conserves b :
  wf b -> 0 <= reward b < 2 ^ 53 -> tally (isAnswer b) (route b) <= 1 ->
  exists rs,
    calcRewards b = Ok rs /\
    total rs <= reward b /\
    forall u, nChecked b u = 0 -> rs !! u = None.
Proof.
  intros Hwf Hr Hone.
  destruct (calcRewards_entries b Hwf) as (rs & Hrun & Hlook & Htot).
  exists rs. split; [done|]. split.
  - rewrite Htot.
    set (A := tally (fun s => isChecked b s && negb (isAnswer b s)) (route b)).
    set (B := tally (fun s => isChecked b s && isAnswer b s) (route b)).
    assert (0 <= A) by apply tally_nonneg.
    assert (0 <= B) by apply tally_nonneg.
    assert (B <= 1).
    { etrans; [|exact Hone]. apply tally_le.
      intros s Hs. by apply andb_true_iff in Hs as [_ ?]. }
    assert (uncheckedCount b = Z.of_nat (length (route b)) - (B + A)) as ->.
    { unfold uncheckedCount. rewrite tally_negb.
      by rewrite (tally_split (isChecked b) (isAnswer b)). }
    pose proof (tally_le_length (isChecked b) (route b)) as Hlen.
    rewrite (tally_split (isChecked b) (isAnswer b)) in Hlen.
    fold A B in Hlen.
    destruct (decide (route b = [])) as [Hempty|Hroute].
    { rewrite Hempty in Hlen. simpl length in Hlen.
      assert (A = 0) as -> by lia. assert (B = 0) as -> by lia. lia. }
    rewrite share_floor by done. unfold floorShare.
    set (n := Z.of_nat (length (route b))) in *.
    assert (0 < n) by (subst n; destruct (route b); [done|simpl length; lia]).
    pose proof (Z.div_pos (reward b) n ltac:(lia) ltac:(lia)).
    pose proof (Z.mul_div_le (reward b) n ltac:(lia)).
    assert (B = 0 \/ B = 1) as [->| ->] by lia; nia.
  - intros u Hu. rewrite Hlook, Hu. done.
Qed.

Lemma calcRewards_conserves_witness :
  exists rs,
    calcRewards (checks abcd [("A", 1001); ("C", 1002)]) = Ok rs /\
    total rs <= 40 /\
    forall u, nChecked (checks abcd [("A", 1001); ("C", 1002)]) u = 0 ->
              rs !! u = None.
Proof.
  apply (calcRewards_conserves (checks abcd [("A", 1001); ("C", 1002)])).
  - intros s Hs. vm_compute in Hs.
    repeat (apply elem_of_cons in Hs as [->|Hs]); [by eexists..|].
    by apply elem_of_nil in Hs.
  - by vm_compute.
  - by vm_compute.
Defined.

(** The statement of C5 fails when the answer occurs twice in the route:
    the constructor accepts the route, one check of the answer is paid at
    both positions with the bonus, and the rewards sum to more than the
    pool. *)
Lemma calcRewards_overpays :
  exists b b1 rs,
    Bounty.init Sample.world None
      (Some (BountyConfig.init (Sample.custom ["A"; "A"; "B"] "A" (Int 30))))
      (Some Sample.db) false [] = Ok b /\
    route b <> [] /\ 0 <= reward b /\
    check b "A" 1001 = Ok (3, b1) /\
    calcRewards b1 = Ok rs /\
    total rs = 40 /\ reward b1 = 30 /\ ~ total rs <= reward b1.
Proof.
  do 3 eexists. split; [vm_compute; reflexivity|].
  split; [discriminate|]. split; [by vm_compute|].
  split; [vm_compute; reflexivity|]. split; [vm_compute; reflexivity|].
  by vm_compute.
Qed.




(** C2, on the code: [isEscaped] answers [True] exactly when no respawn
    task is attached, the opposite of what its documentation says; a bounty
    fresh from the constructor, which holds no task, reports itself
    escaped. *)
Theorem isEscaped_when_no_task :
  (forall b, isEscaped b = true <-> respawnTT b = None) /\
  respawnTT abcd = None /\ isEscaped abcd = true /\
  (forall b task, isEscaped (set_respawnTT (Some task) b) = false).
Proof.
  split; [|done].
  intros b. unfold isEscaped. destruct (respawnTT b); split; done.
Qed.

(** C3, on the code: on a bounty that holds no respawn task [escape] raises
    [ValueError] and attaches nothing, and on a bounty that holds one it
    replaces the task by the new one. *)
Theorem escape_guard_inverted b old new :
  escape (set_respawnTT None b) new = Raise ValueError /\
  escape (set_respawnTT (Some old) b) new = Ok (set_respawnTT (Some new) b) /\
  escape abcd new = Raise ValueError.
Proof. done. Qed.

(** With the same test, [cancelRespawn] and [forceRespawn] never succeed. *)
Lemma respawn_calls_fail b :
  (respawnTT b = None ->
     cancelRespawn b = Raise AttributeError /\ forceRespawn b = Raise AttributeError) /\
  (respawnTT b <> None ->
     cancelRespawn b = Raise ValueError /\ forceRespawn b = Raise ValueError).
Proof.
  unfold cancelRespawn, forceRespawn, isEscaped.
  destruct (respawnTT b); split; intros; try done.
Qed.

End bounty_facts.

(** * Facts about method bodies *)

Section run_facts.
Import ConfigSpec.
Context {S : Type}.

Lemma bind_Ok_inv {A B} (m : run S A) (k : A -> run S B) st b st' :
  (m ≫= k) st = (Ok b, st') ->
  exists a st1, m st = (Ok a, st1) /\ k a st1 = (Ok b, st').
Proof.
  unfold mbind, run_bind. destruct (m st) as [[a| |] st1]; [eauto|done..].
Qed.

Lemma bind_Ok {A B} (m : run S A) (k : A -> run S B) st a st1 :
  m st = (Ok a, st1) -> (m ≫= k) st = k a st1.
Proof. unfold mbind, run_bind. by intros ->. Qed.

Section frames.
Context {B : Type} (f : S -> B).

Lemma frames_ret {A} (a : A) : frames f (mret a : run S A).
Proof. done. Qed.

Lemma frames_get : frames f get.
Proof. done. Qed.

Lemma frames_raise {A} e : frames f (raise e : run S A).
Proof. done. Qed.

Lemma frames_lift {A} (o : outcome A) : frames f (lift o).
Proof. done. Qed.

Lemma frames_choice {A} (seq : list A) : frames f (choice seq).
Proof.
  intros [c draws]. unfold choice. destruct seq; [done|].
  simpl. by destruct draws.
Qed.

Lemma frames_modify (g : S -> S) :
  (forall c, f (g c) = f c) -> frames f (modify g).
Proof. intros Hg st. apply Hg. Qed.

Lemma frames_bind {A C} (m : run S A) (k : A -> run S C) :
  frames f m -> (forall a, frames f (k a)) -> frames f (m ≫= k).
Proof.
  intros Hm Hk st. unfold mbind, run_bind.
  specialize (Hm st). destruct (m st) as [[a| |] st1]; [|done..].
  by rewrite Hk.
Qed.

Lemma frames_while (cond : run S bool) (body : run S unit) :
  frames f cond -> frames f body -> frames f (while cond body).
Proof.
  intros Hc Hb.
  assert (forall n, frames f (while_rounds n cond body)) as Hn.
  { induction n as [|n IH]; [done|]. simpl.
    apply frames_bind; [done|]. intros [|]; [|done].
    apply frames_bind; done. }
  intros st. apply Hn.
Qed.

End frames.

End run_facts.

(** Decompose a method body into its steps. *)
Ltac frames_step :=
  first
    [ apply frames_ret | apply frames_get | apply frames_raise
    | apply frames_lift | apply frames_choice
    | apply frames_modify; intros ?; reflexivity
    | apply frames_while
    | apply frames_bind; [|intros ?]
    | match goal with
      | |- ConfigSpec.frames _ (if ?c then _ else _) => destruct c
      | |- ConfigSpec.frames _ (match ?c with _ => _ end) => destruct c
      end ].

(** * Facts about [BountyConfig] *)

Section generate_steps.
Import BountyConfig ConfigSpec.

Lemma choice_Ok_elem {S A} (seq : list A) (st st' : S * list nat) x :
  choice seq st = (Ok x, st') -> x ∈ seq /\ st'.1 = st.1.
Proof.
  unfold choice. destruct seq as [|y seq]; [done|].
  destruct st as [c [|d draws]]; cbn -[nth Nat.modulo length]; [done|].
  intros [= <- <-]. split; [|done].
  apply list_elem_of_In.
  assert (d mod length (y :: seq) < length (y :: seq))%nat as Hlt
    by (apply Nat.mod_upper_bound; simpl; lia).
  exact (nth_In (y :: seq) y Hlt).
Qed.

(** The loop that fills [checked], entry by entry. *)
Lemma fillChecked_cons keep x l chk :
  fillChecked keep (x :: l) chk =
    fillChecked keep l
      (if negb keep || negb (contains chk x) || bool_decide (chk = ∅)
       then <[x := UNCHECKED]> chk else chk).
Proof. reflexivity. Qed.

Lemma not_in_cons (s x : string) l : s <> x -> s ∉ l -> s ∉ x :: l.
Proof. intros ? ? [?|?]%elem_of_cons; done. Qed.

Lemma fillChecked_fresh l : forall chk s,
  fillChecked false l chk !! s =
    if bool_decide (s ∈ l) then Some UNCHECKED else chk !! s.
Proof.
  induction l as [|x l IH]; intros chk s.
  { rewrite bool_decide_eq_false_2; [done|]. apply not_elem_of_nil. }
  rewrite fillChecked_cons, IH. cbn [negb orb].
  destruct (decide (s ∈ l)) as [Hin|Hout].
  - rewrite !bool_decide_eq_true_2; [done|by constructor|done].
  - rewrite (bool_decide_eq_false_2 (s ∈ l)) by done.
    destruct (decide (s = x)) as [->|Hne].
    + rewrite lookup_insert_eq, bool_decide_eq_true_2; [done|constructor].
    + rewrite lookup_insert_ne by done.
      rewrite bool_decide_eq_false_2; [done|]. by apply not_in_cons.
Qed.

Lemma fillChecked_keep l : forall chk s,
  fillChecked true l chk !! s =
    match chk !! s with
    | Some v => Some v
    | None => if bool_decide (s ∈ l) then Some UNCHECKED else None
    end.
Proof.
  induction l as [|x l IH]; intros chk s.
  { rewrite bool_decide_eq_false_2 by apply not_elem_of_nil.
    change (fillChecked true [] chk) with chk. by destruct (chk !! s). }
  rewrite fillChecked_cons, IH. cbn [negb orb]. unfold contains.
  destruct (chk !! x) as [vx|] eqn:Hx.
  - rewrite (bool_decide_eq_true_2 (is_Some (Some vx))) by eauto. cbn [negb orb].
    assert (bool_decide (chk = ∅) = false) as ->.
    { apply bool_decide_eq_false_2. intros ->. by rewrite lookup_empty in Hx. }
    destruct (chk !! s) as [v|] eqn:Hs; [done|].
    assert (s <> x) by congruence.
    destruct (decide (s ∈ l)).
    + rewrite !bool_decide_eq_true_2; [done|by constructor|done].
    + rewrite !bool_decide_eq_false_2; [done|by apply not_in_cons|done].
  - rewrite (bool_decide_eq_false_2 (is_Some None)) by (by intros [? ?]).
    cbn [negb orb].
    destruct (decide (s = x)) as [->|Hne].
    + rewrite lookup_insert_eq, Hx, bool_decide_eq_true_2; [done|constructor].
    + rewrite lookup_insert_ne by done.
      destruct (chk !! s); [done|].
      destruct (decide (s ∈ l)).
      * rewrite !bool_decide_eq_true_2; [done|by constructor|done].
      * rewrite !bool_decide_eq_false_2; [done|by apply not_in_cons|done].
Qed.

Lemma fillChecked_covers keep l chk s :
  s ∈ l -> is_Some (fillChecked keep l chk !! s).
Proof.
  intros Hin. destruct keep.
  - rewrite fillChecked_keep, bool_decide_eq_true_2 by done.
    destruct (chk !! s); eauto.
  - rewrite fillChecked_fresh, bool_decide_eq_true_2 by done. eauto.
Qed.

Lemma fillChecked_fresh_dom l :
  dom (fillChecked false l ∅) = list_to_set l.
Proof.
  apply set_eq. intros s.
  rewrite elem_of_dom, fillChecked_fresh, elem_of_list_to_set, lookup_empty.
  destruct (decide (s ∈ l)).
  - rewrite bool_decide_eq_true_2 by done. split; eauto.
  - rewrite bool_decide_eq_false_2 by done. split; [by intros [? ?]|done].
Qed.

Lemma fillChecked_keep_dom l chk :
  dom (fillChecked true l chk) = dom chk ∪ list_to_set l.
Proof.
  apply set_eq. intros s.
  rewrite elem_of_union, !elem_of_dom, fillChecked_keep, elem_of_list_to_set.
  destruct (chk !! s) as [v|]; [split; eauto|].
  destruct (decide (s ∈ l)).
  - rewrite bool_decide_eq_true_2 by done. split; eauto.
  - rewrite bool_decide_eq_false_2 by done.
    split; [by intros [? ?]|]. intros [[? ?]|?]; done.
Qed.

(** A map that covers the route is left as it is. *)
Lemma fillChecked_keep_id l chk :
  (forall s, s ∈ l -> is_Some (chk !! s)) -> fillChecked true l chk = chk.
Proof.
  intros Hcov. apply map_eq. intros s. rewrite fillChecked_keep.
  destruct (chk !! s) as [v|] eqn:Hs; [done|].
  rewrite bool_decide_eq_false_2; [done|].
  intros Hin. destruct (Hcov s Hin). congruence.
Qed.

Lemma float_of_int_nonneg n : 0 <= n -> 0 <= float_of_int n.
Proof.
  intros Hn. unfold float_of_int. destruct (Z.abs n <? 2 ^ 53); [done|].
  destruct (decide (n = 0)) as [->|Hne]; [done|].
  rewrite Z.sgn_pos, Z.mul_1_l by lia. unfold nearest. cbn [fst snd].
  set (e := exponent (Z.abs n) 1).
  assert (0 <= (scale (Z.abs n) 1 e).1 /\ 0 < (scale (Z.abs n) 1 e).2) as [Ha Hb].
  { unfold scale. destruct (Z.leb_spec 0 e); cbn [fst snd].
    - split; [lia|]. apply Z.mul_pos_pos; [done|]. by apply Z.pow_pos_nonneg.
    - split; [|done]. apply Z.mul_nonneg_nonneg; [lia|]. apply Z.pow_nonneg. lia. }
  destruct (round_half_even_bounds _ _ Ha Hb) as [[Hm _] _].
  assert (0 <= (scale (Z.abs n) 1 e).1 / (scale (Z.abs n) 1 e).2)
    by (by apply Z.div_pos).
  apply Z.mul_nonneg_nonneg; [lia|]. apply Z.pow_nonneg. lia.
Qed.

(** [int(n * x)] is not negative when [x] is not. *)
Lemma int_times_nonneg n x r :
  Qle 0 (value x) -> int_times (Z.of_nat n) x = Ok r -> 0 <= r.
Proof.
  destruct x as [z|[a d]]; unfold Qle; simpl; intros Hx.
  - intros [= <-]. nia.
  - destruct (finite (nearest _ 1)); [|done]. unfold float_int.
    destruct (finite _); [|done]. intros [= <-].
    apply float_trunc_nonneg; [|done].
    pose proof (float_of_int_nonneg (Z.of_nat n) ltac:(lia)). nia.
Qed.

(** For an [int] ratio the product is exact. *)
Lemma defaultReward_Int w l z :
  bPointsToCreditsRatio w = Int z ->
  defaultReward w l = Z.of_nat (length l) * z.
Proof.
  intros Hz. unfold defaultReward. rewrite Hz. simpl.
  unfold Qfloor. simpl. apply Z.div_1_r.
Qed.

End generate_steps.

Section config_facts.
Import BountyConfig ConfigSpec.
Context (w : World) (owningDB : option BountyDB).
Context (noCriminal forceKeepChecked forceNoDBCheck : bool).

Lemma resolveCriminal_frames :
  frames (fun c => (route c, start c, end_ c, answer c, checked c, reward c,
                    issueTime c, endTime c, generated c))
         (resolveCriminal w owningDB noCriminal forceNoDBCheck).
Proof.
  unfold resolveCriminal, factionFull, nameTaken, drawFaction, drawName, askDB.
  repeat frames_step.
Qed.

Lemma checkRoute_frames {B} (f : t -> B) l : frames f (checkRoute w l).
Proof.
  induction l as [|s l IH]; simpl; [apply frames_ret|].
  destruct (negb _); [apply frames_raise | exact IH].
Qed.

Lemma resolveRoute_frames :
  frames (fun c => (answer c, checked c, reward c, issueTime c, endTime c,
                    generated c))
         (resolveRoute w).
Proof.
  unfold resolveRoute, drawStart, drawEnd, noJumpGate.
  repeat first [apply checkRoute_frames | frames_step].
Qed.

Lemma resolveAnswer_frames :
  frames (fun c => (route c, checked c, reward c, issueTime c, endTime c,
                    generated c))
         (resolveAnswer w).
Proof. unfold resolveAnswer. repeat frames_step. Qed.

Lemma beforeReward_frames :
  frames (fun c => (checked c, reward c, issueTime c, endTime c, generated c))
         (beforeReward w owningDB noCriminal forceNoDBCheck).
Proof.
  unfold beforeReward.
  apply frames_bind; [|intros ?; apply frames_bind; [|intros ?]].
  - intros st.
    pose proof (resolveCriminal_frames st) as H. simpl in H. by inversion H.
  - intros st. pose proof (resolveRoute_frames st) as H. simpl in H. by inversion H.
  - intros st. pose proof (resolveAnswer_frames st) as H. simpl in H. by inversion H.
Qed.

(** The steps of [generate] from the reward on: a reward below [-1] is
    refused; otherwise the product and the host's date arithmetic decide
    how they end. *)
Lemma afterReward_spec c d :
  let rest := resolveReward w ;; resolveTimes w ;;
              resolveChecked forceKeepChecked ;; modify (set_generated true) in
  (reward c <> -1 -> reward c < 0 -> rest (c, d) = (Raise ValueError, (c, d))) /\
  (reward c = -1 \/ 0 <= reward c ->
   exists c',
     (rest (c, d)).2 = (c', d) /\
     route c' = route c /\ answer c' = answer c /\
     match rewardAfter w c with
     | Ok r =>
         reward c' = r /\ issueTime c' = issueAfter w c /\
         match endAfter w c with
         | Ok e =>
             (rest (c, d)).1 = Ok tt /\ endTime c' = e /\
             checked c' =
               fillChecked forceKeepChecked (route c)
                 (if forceKeepChecked then checked c else ∅) /\
             generated c' = true
         | Raise x =>
             (rest (c, d)).1 = Raise x /\ endTime c' = endTime c /\
             checked c' = checked c /\ generated c' = generated c
         | Starved =>
             (rest (c, d)).1 = Starved /\ endTime c' = endTime c /\
             checked c' = checked c /\ generated c' = generated c
         end
     | Raise x => (rest (c, d)).1 = Raise x /\ c' = c
     | Starved => (rest (c, d)).1 = Starved /\ c' = c
     end).
Proof.
  cbv zeta. split.
  - intros Hne Hneg.
    unfold resolveReward, get, raise, mbind, run_bind. cbn [fst snd].
    apply Z.eqb_neq in Hne as ->. by apply Z.ltb_lt in Hneg as ->.
  - intros Hok.
    unfold rewardAfter, endAfter, issueAfter.
    unfold resolveReward, resolveTimes, resolveChecked, get, modify, raise, lift,
      mbind, run_bind, mret, run_ret.
    cbn [fst snd].
    destruct (reward c =? -1) eqn:Hdef.
    + destruct (int_times _ _) as [r| |]; [|by eexists..].
      cbn [fst snd].
      destruct (issueTime c =? NOT_GIVEN) eqn:Hi, (endTime c =? NOT_GIVEN) eqn:He;
        cbn; rewrite ?Hi, ?He; cbn;
        try (destruct (timestampAfter w _ _) as [e| |]);
        destruct forceKeepChecked; repeat (progress (cbn; rewrite ?Hi, ?He));
        eexists; (split; [reflexivity|]);
        repeat (progress (cbn; rewrite ?Hi, ?He)); done.
    + assert ((reward c <? 0) = false) as ->.
      { apply Z.ltb_ge. apply Z.eqb_neq in Hdef. lia. }
      cbn [fst snd].
      destruct (issueTime c =? NOT_GIVEN) eqn:Hi, (endTime c =? NOT_GIVEN) eqn:He;
        cbn; rewrite ?Hi, ?He; cbn;
        try (destruct (timestampAfter w _ _) as [e| |]);
        destruct forceKeepChecked; repeat (progress (cbn; rewrite ?Hi, ?He));
        eexists; (split; [reflexivity|]);
        repeat (progress (cbn; rewrite ?Hi, ?He)); done.
Qed.

Lemma generate_split st :
  generate w owningDB noCriminal forceKeepChecked forceNoDBCheck st =
    (beforeReward w owningDB noCriminal forceNoDBCheck ;;
     resolveReward w ;; resolveTimes w ;;
     resolveChecked forceKeepChecked ;; modify (set_generated true)) st.
Proof.
  unfold generate, beforeReward, mbind, run_bind.
  destruct (resolveCriminal _ _ _ _ st) as [[[]| |] st1]; [|done..].
  destruct (resolveRoute _ st1) as [[[]| |] st2]; [|done..].
  destruct (resolveAnswer _ st2) as [[[]| |] st3]; done.
Qed.

Lemma resolveAnswer_Ok c d c' d' :
  resolveAnswer w (c, d) = (Ok tt, (c', d')) ->
  route c' = route c /\
  (answer c = "" -> answer c' ∈ route c') /\
  (answer c <> "" ->
     answer c' = answer c /\
     is_Some (builtInSystemObjs (bbData w) !! answer c)).
Proof.
  unfold resolveAnswer, get, mbind, run_bind. cbn [fst snd].
  destruct (String.eqb (answer c) "") eqn:Hempty.
  - destruct (choice (route c) (c, d)) as [[a| |] st1] eqn:Hch; [|done..].
    apply choice_Ok_elem in Hch as [Hin Hst]. unfold modify. cbn [fst snd].
    intros [= <- <-]. rewrite Hst. cbn. split; [done|]. split; [done|].
    apply String.eqb_eq in Hempty. done.
  - apply String.eqb_neq in Hempty. unfold contains.
    destruct (decide (is_Some (builtInSystemObjs (bbData w) !! answer c)))
      as [Hknown|Hunknown].
    + rewrite bool_decide_eq_true_2 by done. intros [= <- <-]. done.
    + rewrite bool_decide_eq_false_2 by done. done.
Qed.

Lemma beforeReward_answer c d c' d' :
  beforeReward w owningDB noCriminal forceNoDBCheck (c, d) = (Ok tt, (c', d')) ->
  (answer c = "" -> answer c' ∈ route c') /\
  (answer c <> "" ->
     answer c' = answer c /\
     is_Some (builtInSystemObjs (bbData w) !! answer c)).
Proof.
  unfold beforeReward. intros Hrun.
  apply bind_Ok_inv in Hrun as ([] & [c1 d1] & H1 & Hrun).
  apply bind_Ok_inv in Hrun as ([] & [c2 d2] & H2 & H3).
  pose proof (resolveCriminal_frames (c, d)) as F1. rewrite H1 in F1.
  pose proof (resolveRoute_frames (c1, d1)) as F2. rewrite H2 in F2.
  cbn in F1, F2. inversion F1. inversion F2.
  apply resolveAnswer_Ok in H3 as (_ & Hempty & Hgiven).
  split; intros Ha; [apply Hempty | rewrite (proj1 (Hgiven ltac:(congruence)))];
    try congruence.
  split; [congruence|]. destruct (Hgiven ltac:(congruence)) as [_ Hk]. congruence.
Qed.

(** What a successful [generate] leaves behind. *)
Lemma generate_Ok_inv c d c' d' :
  generate w owningDB noCriminal forceKeepChecked forceNoDBCheck (c, d)
    = (Ok tt, (c', d')) ->
  exists c3,
    beforeReward w owningDB noCriminal forceNoDBCheck (c, d) = (Ok tt, (c3, d')) /\
    (reward c = -1 \/ 0 <= reward c) /\
    route c' = route c3 /\ answer c' = answer c3 /\
    (if reward c =? -1
     then int_times (Z.of_nat (length (route c'))) (bPointsToCreditsRatio w)
     else Ok (reward c)) = Ok (reward c') /\
    issueTime c' =
      (if issueTime c =? NOT_GIVEN then utcnow w else issueTime c) /\
    (if endTime c =? NOT_GIVEN
     then timestampAfter w (issueTime c') (length (route c'))
     else Ok (endTime c)) = Ok (endTime c') /\
    checked c' =
      fillChecked forceKeepChecked (route c')
        (if forceKeepChecked then checked c else ∅) /\
    generated c' = true.
Proof.
  rewrite generate_split. intros Hrun.
  apply bind_Ok_inv in Hrun as ([] & [c3 d3] & Hbefore & Hrest).
  pose proof (beforeReward_frames (c, d)) as F. rewrite Hbefore in F.
  cbn in F. inversion F as [[Hchk Hrew Hiss Hend Hgen]].
  destruct (afterReward_spec c3 d3) as [Hraise Hfine]. cbv zeta in Hraise, Hfine.
  assert (reward c3 = -1 \/ 0 <= reward c3) as Hok.
  { destruct (decide (reward c3 = -1)); [by left|right].
    destruct (decide (0 <= reward c3)); [done|].
    rewrite Hraise in Hrest by lia. done. }
  destruct (Hfine Hok) as (c4 & Hst & Hr & Ha & Hcase).
  rewrite Hrest in Hst, Hcase. cbn in Hst, Hcase. inversion Hst; subst c4 d3.
  unfold rewardAfter, endAfter, issueAfter in Hcase.
  exists c3. rewrite Hr. split; [done|]. split; [done|].
  split; [done|]. split; [done|].
  destruct (if reward c3 =? -1 then _ else _) as [r| |];
    [|by destruct Hcase..].
  destruct Hcase as (Hrw & Hi & Hcase). rewrite Hi.
  destruct (if endTime c3 =? NOT_GIVEN then _ else _) as [e| |];
    [|by destruct Hcase..].
  destruct Hcase as (_ & He & Hc & Hg).
  rewrite Hrw, He. done.
Qed.

(** C6, as the code has it.  After a successful [generate]: every route
    location is a key of [checked]; the keys are exactly the route
    locations when [forceKeepChecked] is off, and the keys of the supplied
    map together with the route locations when it is on; the reward is
    not negative (for a ratio that is not negative); the answer is a
    member of the route when no answer was supplied; the end time is
    after the issue time when no end time was supplied and the route is
    not empty, on a host that reads a naive date back less than a day east
    of UTC; and the configuration is marked generated. *)
Theorem generate_invariants c d c' d' :
  generate w owningDB noCriminal forceKeepChecked forceNoDBCheck (c, d)
    = (Ok tt, (c', d')) ->
  (forall s, s ∈ route c' -> is_Some (checked c' !! s)) /\
  (forceKeepChecked = false ->
     dom (checked c') = (list_to_set (route c') : gset string)) /\
  (forceKeepChecked = true ->
     dom (checked c') = dom (checked c) ∪ (list_to_set (route c') : gset string)) /\
  (Qle 0 (value (bPointsToCreditsRatio w)) -> 0 <= reward c') /\
  (answer c = "" -> answer c' ∈ route c') /\
  (offsetBelowDay w -> endTime c = NOT_GIVEN -> route c' <> [] ->
     issueTime c' < endTime c') /\
  generated c' = true.
Proof.
  intros Hrun.
  apply generate_Ok_inv in Hrun
    as (c3 & Hbefore & Hrew & Hr & Ha & Hrw & Hi & He & Hc & Hg).
  split; [intros s Hs; rewrite Hc; by apply fillChecked_covers|].
  split; [intros ->; rewrite Hc; apply fillChecked_fresh_dom|].
  split; [intros ->; rewrite Hc; apply fillChecked_keep_dom|].
  split.
  { intros Hratio. destruct (reward c =? -1) eqn:Hdef.
    - by apply (int_times_nonneg _ _ _ Hratio Hrw).
    - apply Z.eqb_neq in Hdef. injection Hrw as <-. lia. }
  split.
  { intros Hempty. rewrite Ha, Hr.
    by apply (beforeReward_answer _ _ _ _ Hbefore). }
  split; [|done].
  intros Hhost Hend Hroute. rewrite Hend, Z.eqb_refl in He.
  apply Hhost in He.
  destruct (route c'); [done|]. unfold DAY in *. simpl length in He. lia.
Qed.

(** C8, as the code has it.  Once the faction, name, route and answer
    steps have passed: with a reward below [-1] [generate] raises
    [ValueError], the reward still as given and the configuration not
    marked generated; with the reward [-1], the marker of a reward that is
    not supplied, and provided the product and the host's date arithmetic
    return, it succeeds and the reward is [int(len(route) * ratio)], which
    for an [int] ratio is [floor(len(route) * ratio)].  Whatever the earlier
    steps do, with a reward below [-1] [generate] does not return, leaves
    the reward as given and does not mark the configuration generated. *)
Theorem generate_reward a z d :
  a_reward a = Int z ->
  (forall c3 d3,
     beforeReward w owningDB noCriminal forceNoDBCheck (init a, d)
       = (Ok tt, (c3, d3)) ->
     (z < -1 ->
        generate w owningDB noCriminal forceKeepChecked forceNoDBCheck (init a, d)
          = (Raise ValueError, (c3, d3)) /\
        reward c3 = z /\ generated c3 = false) /\
     (z = -1 ->
        forall r e,
          int_times (Z.of_nat (length (route c3))) (bPointsToCreditsRatio w)
            = Ok r ->
          endAfter w c3 = Ok e ->
          exists c',
            generate w owningDB noCriminal forceKeepChecked forceNoDBCheck
              (init a, d) = (Ok tt, (c', d3)) /\
            reward c' = r /\
            (forall k, bPointsToCreditsRatio w = Int k ->
               reward c' = defaultReward w (route c')))) /\
  (z < -1 ->
     let st := generate w owningDB noCriminal forceKeepChecked forceNoDBCheck
                 (init a, d) in
     (forall u, st.1 <> Ok u) /\ reward st.2.1 = z /\ generated st.2.1 = false).
Proof.
  intros Hz.
  assert (reward (init a) = z) as Hinit by (unfold init; simpl; by rewrite Hz).
  assert (forall c3 d3,
     beforeReward w owningDB noCriminal forceNoDBCheck (init a, d)
       = (Ok tt, (c3, d3)) -> reward c3 = z /\ generated c3 = false) as Hframe.
  { intros c3 d3 Hbefore.
    pose proof (beforeReward_frames (init a, d)) as F. rewrite Hbefore in F.
    cbn in F. inversion F as [[Hchk Hrew Hiss Hend Hgen]].
    rewrite Hrew. done. }
  assert (forall c3 d3,
     beforeReward w owningDB noCriminal forceNoDBCheck (init a, d)
       = (Ok tt, (c3, d3)) -> z < -1 ->
     generate w owningDB noCriminal forceKeepChecked forceNoDBCheck (init a, d)
       = (Raise ValueError, (c3, d3))) as Hraise.
  { intros c3 d3 Hbefore Hneg. destruct (Hframe _ _ Hbefore) as [Hrew _].
    rewrite generate_split, (bind_Ok _ _ _ _ _ Hbefore).
    apply (proj1 (afterReward_spec c3 d3)); lia. }
  split.
  - intros c3 d3 Hbefore. destruct (Hframe _ _ Hbefore) as [Hrew Hgen]. split.
    + intros Hneg. split; [by apply Hraise|done].
    + intros -> r e Hprod Hend.
      destruct (proj2 (afterReward_spec c3 d3)) as (c' & Hst & Hr & _ & Hcase);
        [by left|].
      unfold rewardAfter in Hcase. rewrite Hrew in Hcase. cbn in Hcase.
      rewrite Hprod, Hend in Hcase. destruct Hcase as (Hrw & _ & Hok & _).
      exists c'. rewrite generate_split, (bind_Ok _ _ _ _ _ Hbefore).
      split; [by apply injective_projections|]. split; [done|].
      intros k Hk. rewrite (defaultReward_Int _ _ _ Hk), Hrw, Hr.
      rewrite Hk in Hprod. by injection Hprod as <-.
  - intros Hneg. cbv zeta.
    destruct (beforeReward w owningDB noCriminal forceNoDBCheck (init a, d))
      as [[[]| |] [c3 d3]] eqn:Hbefore.
    + rewrite (Hraise _ _ eq_refl Hneg). cbn.
      destruct (Hframe _ _ eq_refl). done.
    + pose proof (beforeReward_frames (init a, d)) as F. rewrite Hbefore in F.
      cbn in F. inversion F as [[Hchk Hrew Hiss Hend Hgen]].
      assert (generate w owningDB noCriminal forceKeepChecked forceNoDBCheck
                (init a, d) = (Raise e, (c3, d3))) as ->.
      { rewrite generate_split. unfold mbind, run_bind. by rewrite Hbefore. }
      cbn. rewrite Hrew, Hz. done.
    + pose proof (beforeReward_frames (init a, d)) as F. rewrite Hbefore in F.
      cbn in F. inversion F as [[Hchk Hrew Hiss Hend Hgen]].
      assert (generate w owningDB noCriminal forceKeepChecked forceNoDBCheck
                (init a, d) = (Starved, (c3, d3))) as ->.
      { rewrite generate_split. unfold mbind, run_bind. by rewrite Hbefore. }
      cbn. rewrite Hrew, Hz. done.
Qed.

End config_facts.

(** * Worked runs of [generate] *)

Section generate_runs.
Import BountyConfig ConfigSpec.

Lemma sample_offset : offsetBelowDay Sample.world.
Proof.
  intros t n v. cbn. unfold Sample.utcHost.
  repeat (destruct (_ || _); [done|]). repeat (destruct (_ <? _); [done|]).
  intros [= <-]. unfold DAY. lia.
Qed.

Lemma generate_invariants_witness :
  let st := generate Sample.world (Some Sample.db) true false false
              (init (Sample.custom [] "" (Int (-1))), [0; 1; 2; 3; 4]%nat) in
  st.1 = Ok tt /\
  (forall s, s ∈ route st.2.1 -> is_Some (checked st.2.1 !! s)) /\
  dom (checked st.2.1) = (list_to_set (route st.2.1) : gset string) /\
  0 <= reward st.2.1 /\
  answer st.2.1 ∈ route st.2.1 /\
  issueTime st.2.1 < endTime st.2.1.
Proof.
  cbv zeta.
  set (st := generate Sample.world (Some Sample.db) true false false
               (init (Sample.custom [] "" (Int (-1))), [0; 1; 2; 3; 4]%nat)).
  assert (generate Sample.world (Some Sample.db) true false false
            (init (Sample.custom [] "" (Int (-1))), [0; 1; 2; 3; 4]%nat)
          = (Ok tt, (st.2.1, st.2.2))) as Hrun by (by vm_compute).
  destruct (generate_invariants _ _ _ _ _ _ _ _ _ Hrun)
    as (Hcov & Hdom & _ & Hrew & Hans & Htime & _).
  split; [by vm_compute|]. split; [exact Hcov|].
  split; [by apply Hdom|]. split; [apply Hrew; by vm_compute|].
  split; [by apply Hans|].
  apply Htime; [apply sample_offset | by vm_compute..].
Defined.

(** The statement of C6 fails on supplied values, here with the flags of
    the reload path: [generate] accepts a supplied answer that is a known
    system off the route, keeps the extra entries of a supplied checked map
    under [forceKeepChecked], and does not compare supplied timestamps. *)
Lemma generate_breaks_invariants :
  let st := generate Sample.world None false true true
              (init Sample.offRoute, []) in
  st.1 = Ok tt /\
  (answer st.2.1 ∉ route st.2.1) /\
  dom (checked st.2.1) <> (list_to_set (route st.2.1) : gset string) /\
  ~ (issueTime st.2.1 < endTime st.2.1).
Proof.
  cbv zeta.
  set (st := generate Sample.world None false true true
               (init Sample.offRoute, [])).
  assert (st.1 = Ok tt /\ answer st.2.1 = "C" /\ route st.2.1 = ["A"; "B"] /\
          checked st.2.1 !! "D" = Some 7 /\
          issueTime st.2.1 = 10 /\ endTime st.2.1 = 5)
    as (Hok & -> & Hroute & HD & -> & ->) by (by vm_compute).
  rewrite Hroute. split; [exact Hok|]. split; [|split].
  - intros H. repeat (apply elem_of_cons in H as [H|H]; [discriminate|]).
    by apply elem_of_nil in H.
  - intros Heq. assert ("D" ∈ dom (checked st.2.1)) as Hin
      by (apply elem_of_dom; eauto).
    rewrite Heq in Hin. apply elem_of_list_to_set in Hin.
    repeat (apply elem_of_cons in Hin as [Hin|Hin]; [discriminate|]).
    by apply elem_of_nil in Hin.
  - lia.
Qed.

Lemma generate_reward_witness :
  (generate Sample.world (Some Sample.db) true false false
     (init (Sample.custom ["A"; "B"] "A" (Int (-5))), [])).1 = Raise ValueError /\
  exists c',
    generate Sample.world (Some Sample.db) true false false
      (init (Sample.custom ["A"; "B"] "A" (Int (-1))), []) = (Ok tt, (c', [])) /\
    reward c' = defaultReward Sample.world (route c').
Proof.
  split.
  - destruct (generate_reward Sample.world (Some Sample.db) true false false
                (Sample.custom ["A"; "B"] "A" (Int (-5))) (-5) [] eq_refl)
      as [Hsteps _].
    set (st := beforeReward Sample.world (Some Sample.db) true false
                 (init (Sample.custom ["A"; "B"] "A" (Int (-5))), [])).
    destruct (Hsteps st.2.1 st.2.2) as [Hneg _]; [by vm_compute|].
    destruct Hneg as (-> & _); [lia|]. reflexivity.
  - destruct (generate_reward Sample.world (Some Sample.db) true false false
                (Sample.custom ["A"; "B"] "A" (Int (-1))) (-1) [] eq_refl)
      as [Hsteps _].
    set (st := beforeReward Sample.world (Some Sample.db) true false
                 (init (Sample.custom ["A"; "B"] "A" (Int (-1))), [])).
    destruct (Hsteps st.2.1 st.2.2) as [_ Hdef]; [by vm_compute|].
    destruct (Hdef eq_refl 2000 1600172800) as (c' & Hrun & _ & Hfloor);
      [by vm_compute..|].
    exists c'. split; [exact Hrun | by apply (Hfloor 1000)].
Defined.

(** The statement of C8 fails for the explicit reward [-1], which
    [generate] takes for a reward that is not supplied and replaces by the
    default, and for a float between [-1] and [0], which the constructor
    truncates to [0]. *)
Lemma generate_replaces_negative_reward :
  (exists c',
     generate Sample.world (Some Sample.db) true false false
       (init (Sample.custom ["A"; "B"] "A" (Int (-1))), []) = (Ok tt, (c', [])) /\
     reward c' = 2000) /\
  (exists c',
     generate Sample.world (Some Sample.db) true false false
       (init (Sample.custom ["A"; "B"] "A" (Float (-1 # 2))), []) = (Ok tt, (c', [])) /\
     reward c' = 0).
Proof. split; eexists; by vm_compute. Qed.

End generate_runs.

(** * From the configuration to the bounty *)

Section lifecycle_facts.
Import BountySpec.

Lemma wf_check b system userID code b' :
  wf b -> Bounty.check b system userID = Ok (code, b') -> wf b'.
Proof.
  intros Hwf Hc s Hs. rewrite (check_route _ _ _ _ _ Hc) in Hs.
  destruct (Hwf s Hs) as [v Hv].
  revert Hc. unfold Bounty.check, Bounty.systemChecked, getitem. outcome_simpl.
  destruct (bool_decide (system ∈ Bounty.route b)); simpl; [|intros [= _ <-]; eauto].
  destruct (Bounty.checked b !! system) as [v'|]; [|done].
  destruct (v' =? UNCHECKED); simpl; [|intros [= _ <-]; eauto].
  destruct (String.eqb _ _); intros [= _ <-]; simpl;
    apply lookup_insert_is_Some'; eauto.
Qed.

Lemma wf_checks calls : forall b, wf b -> wf (checks b calls).
Proof.
  induction calls as [|[system userID] calls IH]; intros b Hwf; [done|].
  simpl. destruct (Bounty.check b system userID) as [[code b']| |] eqn:Hc; eauto.
  eapply IH, wf_check; eauto.
Qed.




End lifecycle_facts.

(** * Saving and reloading a bounty *)

Section reload_facts.
Import BountySpec ConfigSpec.

Lemma map_title_fixed w l :
  (forall s, s ∈ l -> knownSystem w s) -> map title l = l.
Proof.
  induction l as [|x l IH]; intros Hl; [done|]. simpl.
  rewrite (proj1 (Hl x ltac:(constructor))), IH; [done|].
  intros s Hs. apply Hl. by constructor.
Qed.

Lemma checkRoute_known w l st :
  (forall s, s ∈ l -> is_Some (builtInSystemObjs (bbData w) !! s)) ->
  BountyConfig.checkRoute w l st = (Ok tt, st).
Proof.
  induction l as [|x l IH]; intros Hl; [done|]. simpl. unfold contains.
  rewrite bool_decide_eq_true_2 by (apply Hl; constructor). simpl.
  apply IH. intros s Hs. apply Hl. by constructor.
Qed.

(** [generate] on the configuration that [fromDict] builds, on the reload
    path. *)
Lemma generate_reload w b owningDB d :
  reloadable w b ->
  exists c',
    BountyConfig.generate w owningDB false true true
      (BountyConfig.init
         (BountyConfig.mkArgs (Bounty.faction b) "" None (Bounty.route b) "" ""
            (Bounty.answer b) (Bounty.checked b) (Int (Bounty.reward b))
            (Bounty.issueTime b) (Bounty.endTime b) "" [] "" None), d)
      = (Ok tt, (c', d)) /\
    BountyConfig.route c' = Bounty.route b /\
    BountyConfig.answer c' = Bounty.answer b /\
    BountyConfig.reward c' = Bounty.reward b /\
    BountyConfig.issueTime c' = Bounty.issueTime b /\
    BountyConfig.endTime c' = Bounty.endTime b /\
    BountyConfig.checked c' =
      BountyConfig.fillChecked true (Bounty.route b) (Bounty.checked b).
Proof.
  intros (Hne & Hroute & Hans & [Htitle Hknown] & Hrew & Hiss & Hend).
  set (c := BountyConfig.init _).
  assert (BountyConfig.route c = Bounty.route b) as Hr
    by (by apply (map_title_fixed w)).
  assert (BountyConfig.answer c = Bounty.answer b) as Ha by exact Htitle.
  assert (beforeReward w owningDB false true (c, d) = (Ok tt, (c, d))) as Hbefore.
  { unfold beforeReward, BountyConfig.resolveCriminal, BountyConfig.factionFull,
      BountyConfig.resolveRoute, BountyConfig.resolveAnswer.
    unfold mbind, run_bind, mret, run_ret, get. cbn [negb fst snd].
    rewrite Hr. rewrite bool_decide_eq_false_2 by done.
    rewrite checkRoute_known by (intros s Hs; by apply Hroute).
    cbn [fst snd]. rewrite Ha.
    apply String.eqb_neq in Hans as ->.
    unfold contains. by rewrite bool_decide_eq_true_2. }
  destruct (proj2 (afterReward_spec w true c d)) as (c' & Hst & Hr' & Ha' & Hcase).
  { right. exact Hrew. }
  assert (rewardAfter w c = Ok (Bounty.reward b)) as Hrw.
  { unfold rewardAfter. change (BountyConfig.reward c) with (Bounty.reward b).
    by assert ((Bounty.reward b =? -1) = false) as -> by (apply Z.eqb_neq; lia). }
  assert (issueAfter w c = Bounty.issueTime b) as Hi.
  { unfold issueAfter. change (BountyConfig.issueTime c) with (Bounty.issueTime b).
    by apply Z.eqb_neq in Hiss as ->. }
  assert (endAfter w c = Ok (Bounty.endTime b)) as He.
  { unfold endAfter. rewrite Hi, Hr.
    change (BountyConfig.endTime c) with (Bounty.endTime b).
    destruct (Bounty.endTime b =? NOT_GIVEN) eqn:He'; [|done].
    apply Z.eqb_eq in He'. rewrite He'. by apply Hend. }
  rewrite Hrw, He, Hi in Hcase.
  destruct Hcase as (Hrw' & Hi' & Hok & He' & Hc & _).
  exists c'. rewrite generate_split, (bind_Ok _ _ _ _ _ Hbefore).
  split; [by apply injective_projections|].
  rewrite Hr', Ha', Hc, Hr, Ha. done.
Qed.

(** The round trip on the reload path, for a saved bounty that is
    reloadable. *)
Lemma reload_round_trip w b owningDB draws :
  reloadable w b ->
  exists b',
    Bounty.fromDict w (Bounty.toDict b) owningDB true draws = Ok b' /\
    Bounty.route b' = Bounty.route b /\
    Bounty.answer b' = Bounty.answer b /\
    Bounty.reward b' = Bounty.reward b /\
    Bounty.issueTime b' = Bounty.issueTime b /\
    Bounty.endTime b' = Bounty.endTime b /\
    Bounty.criminal b' = Bounty.criminal b /\
    (forall s, Bounty.checked b' !! s =
       match Bounty.checked b !! s with
       | Some v => Some v
       | None => if bool_decide (s ∈ Bounty.route b) then Some UNCHECKED else None
       end) /\
    (wf b -> Bounty.checked b' = Bounty.checked b).
Proof.
  intros Hb.
  destruct (generate_reload w b owningDB draws Hb)
    as (c' & Hrun & Hr & Ha & Hrw & Hi & He & Hc).
  unfold Bounty.fromDict, Bounty.init, Bounty.toDict. cbn [Bounty.d_faction
    Bounty.d_route Bounty.d_answer Bounty.d_checked Bounty.d_reward
    Bounty.d_issueTime Bounty.d_endTime Bounty.d_criminal].
  change (BountyConfig.generated (BountyConfig.init _)) with false. cbv iota.
  rewrite Hrun. outcome_simpl. eexists. split; [reflexivity|].
  cbn. unfold Bounty.criminal_fromDict, Bounty.criminal_toDict.
  rewrite Hr, Ha, Hrw, Hi, He, Hc.
  repeat split; try done.
  - intros s. apply fillChecked_keep.
  - intros Hwf. by apply fillChecked_keep_id.
Qed.

End reload_facts.

(** * Every bounty that the constructor builds can be reloaded *)

Section constructed_facts.
Import BountySpec ConfigSpec.

Lemma checkRoute_Ok w l st st' :
  BountyConfig.checkRoute w l st = (Ok tt, st') ->
  st' = st /\ forall s, s ∈ l -> is_Some (builtInSystemObjs (bbData w) !! s).
Proof.
  induction l as [|x l IH]; simpl.
  { intros [= <-]. split; [done|]. intros s Hs. by apply elem_of_nil in Hs. }
  unfold contains.
  destruct (decide (is_Some (builtInSystemObjs (bbData w) !! x))) as [Hx|Hx].
  - rewrite bool_decide_eq_true_2 by done. simpl. intros Hrun.
    destruct (IH Hrun) as [-> Hl]. split; [done|].
    intros s [->|Hs]%elem_of_cons; auto.
  - rewrite bool_decide_eq_false_2 by done. done.
Qed.

Lemma resolveRoute_Ok w c d c' d' :
  BountyConfig.resolveRoute w (c, d) = (Ok tt, (c', d')) ->
  (BountyConfig.route c' = BountyConfig.route c /\
   BountyConfig.route c <> [] /\
   forall s, s ∈ BountyConfig.route c ->
     is_Some (builtInSystemObjs (bbData w) !! s)) \/
  (exists a b, bbAStar w a b = Ok (BountyConfig.route c')).
Proof.
  unfold BountyConfig.resolveRoute. intros Hrun.
  apply bind_Ok_inv in Hrun as (c0 & st0 & Hget & Hrun).
  inversion Hget; subst c0 st0. cbn [fst] in Hrun.
  destruct (decide (BountyConfig.route c = [])) as [Hnil|Hcons].
  - right. rewrite bool_decide_eq_true_2 in Hrun by done.
    apply bind_Ok_inv in Hrun as (? & st1 & _ & Hrun).
    apply bind_Ok_inv in Hrun as (c1 & ? & Hget1 & Hrun).
    apply bind_Ok_inv in Hrun as (? & st2 & _ & Hrun).
    apply bind_Ok_inv in Hrun as (c2 & ? & Hget2 & Hrun).
    apply bind_Ok_inv in Hrun as (r & st3 & Hplan & Hrun).
    unfold lift in Hplan. inversion Hplan as [[Hr Hst]].
    unfold modify in Hrun. inversion Hrun; subst. cbn. eauto.
  - left. rewrite bool_decide_eq_false_2 in Hrun by done.
    apply checkRoute_Ok in Hrun as [[= <- <-] Hknown]. done.
Qed.

Lemma beforeReward_route w owningDB noCriminal forceNoDBCheck c d c' d' :
  shipped w ->
  beforeReward w owningDB noCriminal forceNoDBCheck (c, d) = (Ok tt, (c', d')) ->
  BountyConfig.route c' <> [] /\
  forall s, s ∈ BountyConfig.route c' ->
    is_Some (builtInSystemObjs (bbData w) !! s).
Proof.
  intros (_ & Hplanner & _) Hrun. unfold beforeReward in Hrun.
  apply bind_Ok_inv in Hrun as ([] & [c1 d1] & H1 & Hrun).
  apply bind_Ok_inv in Hrun as ([] & [c2 d2] & H2 & H3).
  apply resolveAnswer_Ok in H3 as (-> & _).
  apply resolveRoute_Ok in H2 as [(-> & Hne & Hknown)|(a & b & Hplan)]; [done|].
  by apply (Hplanner a b).
Qed.

Lemma generate_reloadable w owningDB noCriminal forceKeepChecked forceNoDBCheck
    c d c' d' :
  shipped w ->
  BountyConfig.generate w owningDB noCriminal forceKeepChecked forceNoDBCheck
    (c, d) = (Ok tt, (c', d')) ->
  BountyConfig.route c' <> [] /\
  (forall s, s ∈ BountyConfig.route c' -> knownSystem w s) /\
  BountyConfig.answer c' <> "" /\ knownSystem w (BountyConfig.answer c') /\
  0 <= BountyConfig.reward c' /\
  BountyConfig.issueTime c' <> NOT_GIVEN /\
  (BountyConfig.endTime c' = NOT_GIVEN ->
     timestampAfter w (BountyConfig.issueTime c')
       (length (BountyConfig.route c')) = Ok NOT_GIVEN) /\
  (forall s, s ∈ BountyConfig.route c' ->
     is_Some (BountyConfig.checked c' !! s)).
Proof.
  intros Hw Hrun.
  pose proof Hw as (Hnames & _ & Hratio & Hnow).
  apply generate_Ok_inv in Hrun
    as (c3 & Hbefore & Hgiven_reward & Hr & Ha & Hrw & Hi & He & Hc & _).
  assert (forall s, s ∈ BountyConfig.route c' ->
            is_Some (BountyConfig.checked c' !! s)) as Hcov
    by (intros s Hs; rewrite Hc; by apply fillChecked_covers).
  assert (0 <= BountyConfig.reward c') as Hrew.
  { destruct (BountyConfig.reward c =? -1) eqn:Hdef.
    - by apply (int_times_nonneg _ _ _ Hratio Hrw).
    - apply Z.eqb_neq in Hdef. injection Hrw as <-. lia. }
  destruct (beforeReward_route _ _ _ _ _ _ _ _ Hw Hbefore) as [Hne Hknown].
  destruct (beforeReward_answer _ _ _ _ _ _ _ _ Hbefore) as [Hdrawn Hgiven].
  assert (forall s, is_Some (builtInSystemObjs (bbData w) !! s) -> knownSystem w s)
    as Hks by (intros s Hs; split; [by apply Hnames|done]).
  rewrite Hr, Ha.
  assert (is_Some (builtInSystemObjs (bbData w) !! BountyConfig.answer c3))
    as Hans.
  { destruct (decide (BountyConfig.answer c = "")) as [Hempty|Hfull].
    - apply Hknown. by apply Hdrawn.
    - destruct (Hgiven Hfull) as [-> ?]. done. }
  split; [done|]. split; [by auto|].
  split; [by apply Hnames|]. split; [by auto|].
  split; [exact Hrew|]. split.
  - rewrite Hi. destruct (BountyConfig.issueTime c =? NOT_GIVEN) eqn:Hq.
    + unfold NOT_GIVEN. lia.
    + by apply Z.eqb_neq in Hq.
  - split; [|by rewrite <- Hr].
    intros Hmarker. rewrite <- Hr.
    destruct (BountyConfig.endTime c =? NOT_GIVEN) eqn:Hq.
    + by rewrite He, Hmarker.
    + apply Z.eqb_neq in Hq. injection He as He. congruence.
Qed.

(** A bounty built from a configuration that was not generated beforehand
    is reloadable and its checked map covers its route. *)
Lemma init_reloadable w criminalObj config owningDB dbReload draws b :
  shipped w ->
  (forall c, config = Some c -> BountyConfig.generated c = false) ->
  Bounty.init w criminalObj config owningDB dbReload draws = Ok b ->
  reloadable w b /\ wf b.
Proof.
  intros Hw Hfresh. unfold Bounty.init.
  set (c0 := match config with Some c => c | None => _ end).
  assert (BountyConfig.generated c0 = false) as ->.
  { subst c0. destruct config as [c|]; [by apply Hfresh|].
    by destruct criminalObj. }
  intros Hinit.
  assert (exists c' d', BountyConfig.generate w owningDB
            match criminalObj with None => true | Some _ => false end
            dbReload dbReload (c0, draws) = (Ok tt, (c', d')) /\
          Bounty.route b = BountyConfig.route c' /\
          Bounty.answer b = BountyConfig.answer c' /\
          Bounty.reward b = BountyConfig.reward c' /\
          Bounty.issueTime b = BountyConfig.issueTime c' /\
          Bounty.endTime b = BountyConfig.endTime c' /\
          Bounty.checked b = BountyConfig.checked c')
    as (c' & d' & Hrun & Hr & Ha & Hrw & Hi & He & Hc).
  { destruct dbReload, owningDB; try done;
      destruct (BountyConfig.generate _ _ _ _ _ _) as [[[]| |] [c' d']];
      try done; outcome_simpl; exists c', d'; (split; [done|]);
      match type of Hinit with
      | match ?x with _ => _ end = _ => destruct x; [|done..]
      end; by inversion Hinit. }
  pose proof (generate_reloadable _ _ _ _ _ _ _ _ _ Hw Hrun) as Hgen.
  unfold reloadable, wf. rewrite Hr, Ha, Hrw, Hi, He, Hc.
  destruct Hgen as (? & ? & ? & ? & ? & ? & ? & ?). done.
Qed.

Lemma checks_only_checked calls : forall b,
  exists m, checks b calls = Bounty.set_checked m b.
Proof.
  induction calls as [|[system userID] calls IH]; intros b.
  { exists (Bounty.checked b). by destruct b. }
  simpl. destruct (Bounty.check b system userID) as [[code b']| |] eqn:Hc; auto.
  destruct (IH b') as [m ->]. exists m.
  revert Hc. unfold Bounty.check, Bounty.systemChecked, getitem. outcome_simpl.
  destruct (bool_decide _); simpl; [|by intros [= _ <-]].
  destruct (Bounty.checked b !! system) as [v|]; [|done].
  destruct (v =? UNCHECKED); simpl; [|by intros [= _ <-]].
  destruct (String.eqb _ _); by intros [= _ <-].
Qed.

Lemma reloadable_checks w b calls :
  reloadable w b -> reloadable w (checks b calls).
Proof. destruct (checks_only_checked calls b) as [m ->]. done. Qed.

(** C7, as the code has it.  On the reload path ([dbReload] given as true)
    [fromDict] of [toDict] returns, whatever the database (none, a full
    one) and the random supply, a bounty with the same route, answer,
    reward, issue time, end time and criminal.  For a bounty that the
    constructor built, and after any [check] calls on it, the checked map
    is the same too; for a saved bounty whose map lacks entries, it is the
    saved map with the unchecked marker filled in for every route location
    without an entry. *)
Theorem fromDict_toDict w :
  (shipped w ->
   forall criminalObj config owningDB dbReload draws b,
     (forall c, config = Some c -> BountyConfig.generated c = false) ->
     Bounty.init w criminalObj config owningDB dbReload draws = Ok b ->
     forall calls owningDB' draws',
     exists b',
       Bounty.fromDict w (Bounty.toDict (checks b calls)) owningDB' true draws'
         = Ok b' /\
       Bounty.route b' = Bounty.route (checks b calls) /\
       Bounty.answer b' = Bounty.answer (checks b calls) /\
       Bounty.checked b' = Bounty.checked (checks b calls) /\
       Bounty.reward b' = Bounty.reward (checks b calls) /\
       Bounty.issueTime b' = Bounty.issueTime (checks b calls) /\
       Bounty.endTime b' = Bounty.endTime (checks b calls)) /\
  (forall b owningDB draws,
     reloadable w b ->
     exists b',
       Bounty.fromDict w (Bounty.toDict b) owningDB true draws = Ok b' /\
       Bounty.route b' = Bounty.route b /\
       Bounty.answer b' = Bounty.answer b /\
       Bounty.reward b' = Bounty.reward b /\
       Bounty.issueTime b' = Bounty.issueTime b /\
       Bounty.endTime b' = Bounty.endTime b /\
       Bounty.criminal b' = Bounty.criminal b /\
       (forall s, Bounty.checked b' !! s =
          match Bounty.checked b !! s with
          | Some v => Some v
          | None =>
              if bool_decide (s ∈ Bounty.route b) then Some UNCHECKED else None
          end) /\
       (wf b -> Bounty.checked b' = Bounty.checked b)).
Proof.
  split.
  - intros Hw criminalObj config owningDB dbReload draws b Hfresh Hinit
      calls owningDB' draws'.
    destruct (init_reloadable _ _ _ _ _ _ _ Hw Hfresh Hinit) as [Hb Hwf].
    destruct (reload_round_trip w (checks b calls) owningDB' draws')
      as (b' & Hrun & Hr & Ha & Hrw & Hi & He & _ & _ & Hc).
    { by apply reloadable_checks. }
    exists b'. repeat split; try done. by apply Hc, wf_checks.
  - intros b owningDB draws Hb. by apply reload_round_trip.
Qed.

End constructed_facts.

(** * Worked reloads *)

Section reload_runs.
Import BountySpec.

Lemma sample_known s :
  is_Some (Sample.systems !! s) -> s ∈ ["A"; "B"; "C"; "D"].
Proof.
  intros Hs. apply elem_of_dom in Hs.
  assert (dom Sample.systems = (list_to_set ["A"; "B"; "C"; "D"] : gset string))
    as Hdom by (by vm_compute).
  rewrite Hdom in Hs. by apply elem_of_list_to_set in Hs.
Qed.

Lemma sample_shipped : shipped Sample.world.
Proof.
  split; [|split; [|split]].
  - intros s Hs. apply sample_known in Hs.
    repeat (apply elem_of_cons in Hs as [->|Hs]); [by vm_compute..|].
    by apply elem_of_nil in Hs.
  - intros a b r. cbn. unfold contains.
    destruct (decide (is_Some (Sample.systems !! a))) as [Ha|Ha];
      [rewrite (bool_decide_eq_true_2 _ Ha)
      |rewrite (bool_decide_eq_false_2 _ Ha); done].
    destruct (decide (is_Some (Sample.systems !! b))) as [Hb|Hb];
      [rewrite (bool_decide_eq_true_2 _ Hb)
      |rewrite (bool_decide_eq_false_2 _ Hb); done].
    intros [= <-]. split; [done|].
    intros s Hs. repeat (apply elem_of_cons in Hs as [->|Hs]); [done..|].
    by apply elem_of_nil in Hs.
  - by vm_compute.
  - by vm_compute.
Qed.

Lemma abcd_reloadable : reloadable Sample.world abcd.
Proof.
  assert (forall s, s ∈ ["A"; "B"; "C"; "D"] -> knownSystem Sample.world s) as Hk.
  { intros s Hs. repeat (apply elem_of_cons in Hs as [->|Hs]);
      [split; [reflexivity | eexists; vm_compute; reflexivity]..|].
    by apply elem_of_nil in Hs. }
  split; [done|]. split; [exact Hk|]. split; [done|].
  split; [apply Hk; repeat constructor|].
  split; [by vm_compute|]. split; [by vm_compute|]. by vm_compute.
Qed.

Lemma fromDict_toDict_witness :
  (exists b b',
     Bounty.init Sample.world None
       (Some (BountyConfig.init (Sample.custom ["A"; "B"; "C"] "B" (Int 900))))
       (Some Sample.db) false [] = Ok b /\
     Bounty.fromDict Sample.world (Bounty.toDict (checks b [("A", 1001)]))
       None true [] = Ok b' /\
     Bounty.route b' = ["A"; "B"; "C"] /\
     Bounty.checked b' !! "A" = Some 1001) /\
  (exists b',
     Bounty.fromDict Sample.world
       (Bounty.toDict (checks abcd [("A", 1001); ("C", 1002)])) None true []
       = Ok b' /\
     Bounty.route b' = ["A"; "B"; "C"; "D"] /\
     Bounty.answer b' = "C" /\
     Bounty.reward b' = 40 /\
     Bounty.checked b' = Bounty.checked (checks abcd [("A", 1001); ("C", 1002)])).
Proof.
  destruct (fromDict_toDict Sample.world) as [Hbuilt Hsaved]. split.
  - destruct (Bounty.init Sample.world None
                (Some (BountyConfig.init (Sample.custom ["A"; "B"; "C"] "B" (Int 900))))
                (Some Sample.db) false []) as [b| |] eqn:Hinit;
      [|by vm_compute in Hinit..].
    assert (forall c,
              Some (BountyConfig.init (Sample.custom ["A"; "B"; "C"] "B" (Int 900)))
                = Some c -> BountyConfig.generated c = false) as Hfresh
      by (by intros c [= <-]).
    destruct (Hbuilt sample_shipped _ _ _ _ _ b Hfresh Hinit [("A", 1001)] None [])
      as (b' & Hrun & Hr & _ & Hc & _).
    exists b, b'. split; [done|]. split; [exact Hrun|].
    rewrite Hr, Hc. vm_compute in Hinit. injection Hinit as <-.
    split; by vm_compute.
  - destruct (Hsaved (checks abcd [("A", 1001); ("C", 1002)]) None [])
      as (b' & Hrun & Hr & Ha & Hrw & _ & _ & _ & _ & Hc).
    + apply reloadable_checks, abcd_reloadable.
    + exists b'. split; [exact Hrun|].
      split; [exact Hr|]. split; [exact Ha|]. split; [exact Hrw|].
      apply Hc. apply wf_checks. intros s Hs.
      repeat (apply elem_of_cons in Hs as [->|Hs]); [by eexists..|].
      by apply elem_of_nil in Hs.
Defined.

(** The statement of C7 fails for the call as written, without
    [dbReload]: without a database [fromDict] raises [ValueError], and with
    one it takes the normal path, which checks the database and starts
    from a blank checked map. *)
Lemma fromDict_without_dbReload :
  Bounty.fromDict Sample.world
    (Bounty.toDict (checks abcd [("A", 1001); ("C", 1002)])) None false []
    = Raise ValueError /\
  Bounty.checked (checks abcd [("A", 1001); ("C", 1002)]) !! "A" = Some 1001 /\
  (exists b',
     Bounty.fromDict Sample.world
       (Bounty.toDict (checks abcd [("A", 1001); ("C", 1002)]))
       (Some Sample.db) false [] = Ok b' /\
     Bounty.checked b' !! "A" = Some UNCHECKED) /\
  Bounty.fromDict Sample.world
    (Bounty.toDict (checks abcd [("A", 1001); ("C", 1002)]))
    (Some (mkBountyDB (fun _ => false) (fun _ => false))) false []
    = Raise IndexError.
Proof.
  split; [by vm_compute|]. split; [by vm_compute|].
  split; [eexists; by vm_compute|]. by vm_compute.
Qed.

End reload_runs.

(** * Further facts about [check] *)

Section check_more.
Import Bounty BountySpec.

(** [check], case by case. *)
Lemma check_cases b system userID :
  check b system userID =
    if bool_decide (system ∈ route b) then
      match checked b !! system with
      | None => Raise KeyError
      | Some v =>
          if v =? UNCHECKED
          then Ok (if String.eqb (answer b) system then 3 else 2,
                   set_checked (<[system := userID]> (checked b)) b)
          else Ok (1, b)
      end
    else Ok (0, b).
Proof.
  unfold check, systemChecked, getitem. outcome_simpl.
  destruct (bool_decide (system ∈ route b)); simpl; [|done].
  destruct (checked b !! system) as [v|]; [|done].
  destruct (v =? UNCHECKED); simpl; [|done].
  by destruct (String.eqb _ _).
Qed.

Lemma set_checked_same b : set_checked (checked b) b = b.
Proof. by destruct b. Qed.

(** X1.  A call of [check] that returns does so with a code from 0 to 3,
    changes no attribute of the bounty other than [checked], and in
    [checked] touches no entry other than that of the system asked for,
    which it never removes; with code 0 or 1 the bounty is as before. *)
Theorem check_touches_one_entry b system userID code b' :
  check b system userID = Ok (code, b') ->
  0 <= code <= 3 /\
  b' = set_checked (checked b') b /\
  (forall s, s <> system -> checked b' !! s = checked b !! s) /\
  (is_Some (checked b !! system) -> is_Some (checked b' !! system)) /\
  (code = 0 \/ code = 1 -> b' = b).
Proof.
  rewrite check_cases.
  destruct (bool_decide (system ∈ route b)).
  2:{ intros [= <- <-]. rewrite set_checked_same. repeat split; auto; lia. }
  destruct (checked b !! system) as [v|] eqn:Hv; [|done].
  destruct (v =? UNCHECKED).
  2:{ intros [= <- <-]. rewrite set_checked_same, Hv. repeat split; eauto; lia. }
  intros [= <- <-]. cbn.
  split; [destruct (String.eqb _ _); lia|]. split; [done|].
  split; [intros s Hs; by rewrite lookup_insert_ne|].
  split; [intros _; rewrite lookup_insert_eq; eauto|].
  destruct (String.eqb _ _); intros [|]; discriminate.
Qed.

Lemma check_touches_one_entry_witness :
  exists b',
    check abcd "C" 1002 = Ok (3, b') /\
    checked b' !! "A" = checked abcd !! "A" /\
    b' = set_checked (checked b') abcd.
Proof.
  eexists. split; [by vm_compute|].
  destruct (check_touches_one_entry abcd "C" 1002 3 _ ltac:(by vm_compute))
    as (_ & Hsame & Hother & _).
  split; [by apply Hother | exact Hsame].
Defined.

(** X2.  Calls of [check] on two different systems do not influence each
    other: in either order they leave the same bounty, and the code that
    the call on one system returns is the same before and after the call
    on the other. *)
Theorem checks_commute b s1 u1 s2 u2 :
  s1 <> s2 ->
  checks b [(s1, u1); (s2, u2)] = checks b [(s2, u2); (s1, u1)] /\
  forall code b1 code2 b2,
    check b s1 u1 = Ok (code, b1) ->
    check b s2 u2 = Ok (code2, b2) ->
    exists b12, check b2 s1 u1 = Ok (code, b12).
Proof.
  intros Hne. split.
  - cbn [checks].
    destruct (bool_decide (s1 ∈ route b)) eqn:H1,
             (bool_decide (s2 ∈ route b)) eqn:H2,
             (checked b !! s1) as [v1|] eqn:Hv1,
             (checked b !! s2) as [v2|] eqn:Hv2;
      try destruct (v1 =? UNCHECKED) eqn:E1;
      try destruct (v2 =? UNCHECKED) eqn:E2;
      repeat (rewrite check_cases;
              cbn [route checked answer set_checked];
              rewrite ?H1, ?H2;
              rewrite ?lookup_insert_ne by done;
              rewrite ?Hv1, ?Hv2, ?E1, ?E2;
              cbv beta iota);
      try reflexivity.
    unfold set_checked. cbn. f_equal. by apply insert_insert_ne.
  - intros code b1 code2 b2. rewrite !check_cases.
    destruct (bool_decide (s2 ∈ route b)) eqn:H2.
    2:{ intros Hc [= <- <-]. rewrite Hc. eauto. }
    destruct (checked b !! s2) as [v2|]; [|done].
    destruct (v2 =? UNCHECKED).
    2:{ intros Hc [= <- <-]. rewrite Hc. eauto. }
    intros Hc [= <- <-]. cbn [route checked answer set_checked].
    rewrite lookup_insert_ne by done.
    destruct (bool_decide (s1 ∈ route b)); [|by inversion Hc; eauto].
    destruct (checked b !! s1) as [v1|]; [|done].
    destruct (v1 =? UNCHECKED); inversion Hc; eauto.
Qed.

Lemma checks_commute_witness :
  checks abcd [("A", 1001); ("C", 1002)] = checks abcd [("C", 1002); ("A", 1001)].
Proof. apply (checks_commute abcd "A" 1001 "C" 1002). discriminate. Defined.

Lemma checks_answer calls b : answer (checks b calls) = answer b.
Proof. destruct (checks_only_checked calls b) as [m ->]. done. Qed.

(** X3.  The answer is found once: after a call of [check] that returned 3
    for a caller id other than [-1], no later call returns 3, whatever
    calls were made in between. *)
Theorem answer_found_once b system userID b' :
  userID <> UNCHECKED ->
  check b system userID = Ok (3, b') ->
  forall calls s u code b'',
    check (checks b' calls) s u = Ok (code, b'') -> code <> 3.
Proof.
  intros Hid Hfound calls s u code b''.
  assert (checked b' !! answer b' = Some userID) as Hown.
  { revert Hfound. rewrite check_cases.
    destruct (bool_decide (system ∈ route b)); [|done].
    destruct (checked b !! system) as [v|]; [|done].
    destruct (v =? UNCHECKED); [|done].
    destruct (String.eqb (answer b) system) eqn:Hans; [|done].
    apply String.eqb_eq in Hans. intros [= <-]. cbn. rewrite Hans.
    apply lookup_insert_eq. }
  pose proof (checks_keep_owner calls b' _ _ Hown Hid) as Hkept.
  rewrite check_cases, checks_answer.
  destruct (bool_decide (s ∈ route (checks b' calls))); [|by intros [= <- _]].
  destruct (checked (checks b' calls) !! s) as [v|] eqn:Hv; [|done].
  destruct (v =? UNCHECKED) eqn:Hvu; [|by intros [= <- _]].
  destruct (String.eqb (answer b') s) eqn:Hans; [|by intros [= <- _]].
  apply String.eqb_eq in Hans. subst s. apply Z.eqb_eq in Hvu. congruence.
Qed.

Lemma answer_found_once_witness :
  exists b'',
    check (checks (checks abcd [("C", 1002)]) [("A", 1001)]) "C" 1003
      = Ok (1, b'') /\ 1 <> 3.
Proof.
  eexists. split; [by vm_compute|].
  eapply (answer_found_once abcd "C" 1002 (checks abcd [("C", 1002)])
            ltac:(discriminate) ltac:(by vm_compute) [("A", 1001)] "C" 1003 1).
  vm_compute. reflexivity.
Defined.

(** X4.  A route system without an entry in [checked] makes [check] and
    [systemChecked] on it raise [KeyError], and makes [calcRewards] raise
    [KeyError] whatever the other entries are. *)
Theorem missing_entry_raises b s :
  s ∈ route b -> checked b !! s = None ->
  (forall u, check b s u = Raise KeyError) /\
  systemChecked b s = Raise KeyError /\
  calcRewards b = Raise KeyError.
Proof.
  intros Hin Hnone. split; [|split].
  - intros u. rewrite check_cases, bool_decide_eq_true_2, Hnone; done.
  - unfold systemChecked, getitem. by rewrite Hnone.
  - unfold calcRewards.
    assert (forall l rs n, s ∈ l -> countLoop b l rs n = Raise KeyError) as Hloop.
    { induction l as [|x l IH]; intros rs n Hl; [by apply elem_of_nil in Hl|].
      simpl. unfold systemChecked, getitem. outcome_simpl.
      destruct (checked b !! x) as [v|] eqn:Hx.
      - assert (s ∈ l) as Hl'.
        { apply elem_of_cons in Hl as [->|?]; [congruence|done]. }
        destruct (negb (v =? UNCHECKED)); [|by apply IH].
        destruct (negb (contains rs v)); by apply IH.
      - done. }
    by rewrite Hloop.
Qed.

Lemma missing_entry_raises_witness :
  calcRewards (set_checked (<["A" := 7]> ∅) abcd) = Raise KeyError.
Proof.
  apply (missing_entry_raises (set_checked (<["A" := 7]> ∅) abcd) "B").
  - vm_compute. repeat constructor.
  - by vm_compute.
Defined.

(** X5.  [cancelRespawn] and [forceRespawn] succeed on no bounty: they
    raise [AttributeError] exactly when the bounty holds no respawn task,
    and [ValueError] exactly when it holds one; and [escape] attaches a
    task only to a bounty that holds one already. *)
Theorem respawn_never_succeeds b :
  (forall r, cancelRespawn b <> Ok r) /\
  (forall r, forceRespawn b <> Ok r) /\
  (cancelRespawn b = Raise AttributeError <-> respawnTT b = None) /\
  (forceRespawn b = Raise AttributeError <-> respawnTT b = None) /\
  (cancelRespawn b = Raise ValueError <-> respawnTT b <> None) /\
  (forceRespawn b = Raise ValueError <-> respawnTT b <> None) /\
  (forall task b', escape b task = Ok b' -> respawnTT b <> None).
Proof.
  unfold cancelRespawn, forceRespawn, escape, isEscaped.
  destruct (respawnTT b); simpl; repeat split; try done.
Qed.

End check_more.

(** * Further facts about [calcRewards] *)

Section rewards_more.
Import Bounty BountySpec MoreSpec.

Lemma checkedTotal_insert_fresh rs u e :
  rs !! u = None -> checkedTotal (<[u := e]> rs) = rw_checked e + checkedTotal rs.
Proof.
  intros Hu. unfold checkedTotal.
  rewrite map_fold_insert_L; [done| |done].
  intros; lia.
Qed.

Lemma checkedTotal_insert_over rs u e e' :
  rs !! u = Some e ->
  checkedTotal (<[u := e']> rs) = checkedTotal rs - rw_checked e + rw_checked e'.
Proof.
  intros Hu.
  rewrite <- (insert_delete_eq rs u e').
  rewrite <- (insert_delete_id rs u e Hu) at 2.
  rewrite !checkedTotal_insert_fresh by apply lookup_delete_eq. lia.
Qed.

Lemma checkedTotal_zero (rs : gmap Z Reward) :
  (forall u e, rs !! u = Some e -> rw_checked e = 0) -> checkedTotal rs = 0.
Proof.
  induction rs as [|u e rs Hu IH] using map_ind; intros Hz.
  { apply map_fold_empty. }
  rewrite checkedTotal_insert_fresh by done.
  rewrite (Hz u e) by apply lookup_insert_eq.
  rewrite IH; [done|]. intros u' e' Hu'. apply (Hz u').
  rewrite lookup_insert_ne; [done|]. intros ->. congruence.
Qed.

Lemma payLoop_checkedTotal b unc l :
  (forall s, s ∈ l -> is_Some (checked b !! s)) ->
  forall rs,
    (forall s v, s ∈ l -> checked b !! s = Some v -> v <> UNCHECKED ->
       is_Some (rs !! v)) ->
    forall rs', payLoop b unc l rs = Ok rs' ->
      checkedTotal rs' = checkedTotal rs + tally (isChecked b) l.
Proof.
  induction l as [|s l IH]; intros Hl rs Hkeys rs'.
  { simpl. intros [= <-]. lia. }
  assert (forall s', s' ∈ l -> is_Some (checked b !! s')) as Hl'
    by (intros; apply Hl; by constructor).
  assert (forall rs0 : gmap Z Reward,
            (forall v, is_Some (rs !! v) -> is_Some (rs0 !! v)) ->
            forall s' v, s' ∈ l -> checked b !! s' = Some v -> v <> UNCHECKED ->
              is_Some (rs0 !! v)) as Hkeys'.
  { intros rs0 Hmono s' v' Hs' Hv' Hne. apply Hmono.
    apply (Hkeys s' v'); [by constructor|done|done]. }
  destruct (Hl s) as [v Hv]; [constructor|].
  assert (isChecked b s = negb (v =? UNCHECKED)) as Hic
    by (unfold isChecked; by rewrite Hv).
  simpl payLoop. simpl tally. rewrite Hic.
  unfold systemChecked, getitem. rewrite Hv. outcome_simpl.
  destruct (v =? UNCHECKED) eqn:Hvu; simpl negb; cbv iota.
  { intros Hrun. rewrite (IH Hl' rs (Hkeys' rs (fun _ H => H)) rs' Hrun). lia. }
  apply Z.eqb_neq in Hvu.
  destruct (Hkeys s v) as [e He]; [constructor|done|done|].
  rewrite He.
  destruct (String.eqb (answer b) s); simpl; intros Hrun;
    (rewrite (IH Hl' _ ltac:(apply Hkeys'; intros v' Hv';
                              apply lookup_insert_is_Some'; by right) rs' Hrun));
    rewrite (checkedTotal_insert_over _ _ e) by done; simpl; lia.
Qed.

(** X6.  For a pool whose share a float can hold, [calcRewards] returns and
    the [checked] fields of its result add up to the number of route
    entries that have been checked. *)
Theorem calcRewards_checked_total b :
  wf b -> floatPool b ->
  exists rs,
    calcRewards b = Ok rs /\
    checkedTotal rs = Z.of_nat (length (route b)) - uncheckedCount b.
Proof.
  intros Hwf _.
  destruct (calcRewards_entries b Hwf) as (rs & Hrun & _).
  exists rs. split; [done|].
  revert Hrun. unfold calcRewards.
  destruct (countLoop_spec b (route b) Hwf ∅ 0) as (rs1 & Hrun1 & Hlook1 & _).
  rewrite Hrun1. outcome_simpl. intros Hrun.
  assert (forall s v, s ∈ route b -> checked b !! s = Some v -> v <> UNCHECKED ->
            is_Some (rs1 !! v)) as Hkeys.
  { intros s v Hs Hv Hne. rewrite Hlook1, lookup_empty.
    assert (0 < tally (checkedBy b v) (route b)) as Hpos.
    { apply tally_pos. exists s. split; [done|].
      unfold checkedBy. rewrite Hv, Z.eqb_refl.
      by apply Z.eqb_neq in Hne as ->. }
    apply Z.ltb_lt in Hpos as ->. eauto. }
  rewrite (payLoop_checkedTotal b _ (route b) Hwf rs1 Hkeys rs Hrun).
  rewrite checkedTotal_zero.
  - unfold uncheckedCount. rewrite tally_negb. lia.
  - intros u e. rewrite Hlook1, lookup_empty.
    destruct (0 <? _); [by intros [= <-]|done].
Qed.

Lemma wf_sample_checks calls : wf (checks abcd calls).
Proof.
  apply wf_checks. intros s Hs.
  repeat (apply elem_of_cons in Hs as [->|Hs]); [by eexists..|].
  by apply elem_of_nil in Hs.
Qed.

Lemma calcRewards_checked_total_witness :
  exists rs,
    calcRewards (checks abcd [("A", 1001); ("C", 1002); ("B", 1001)]) = Ok rs /\
    checkedTotal rs = 3.
Proof.
  destruct (calcRewards_checked_total
              (checks abcd [("A", 1001); ("C", 1002); ("B", 1001)]))
    as (rs & Hrun & Hsum); [apply wf_sample_checks | by vm_compute |].
  exists rs. split; [exact Hrun|]. rewrite Hsum. by vm_compute.
Defined.

Lemma tally_both p q l :
  (forall s, p s = true -> q s = true) -> (forall s, q s = true -> p s = true) ->
  tally p l = tally q l.
Proof.
  intros Hpq Hqp. induction l as [|s l IH]; simpl; [done|].
  rewrite IH. destruct (p s) eqn:Hp, (q s) eqn:Hq; try done.
  - rewrite (Hpq s Hp) in Hq. done.
  - rewrite (Hqp s Hq) in Hp. done.
Qed.

Lemma tally_answer_checked b :
  tally (fun s => isChecked b s && isAnswer b s) (route b) =
    if isChecked b (answer b) then tally (isAnswer b) (route b) else 0.
Proof.
  destruct (isChecked b (answer b)) eqn:Hc.
  - apply tally_both; intros s.
    + intros Hs. by apply andb_true_iff in Hs as [_ ?].
    + intros Hs. pose proof Hs as Heq. apply String.eqb_eq in Heq.
      subst s. by rewrite Hc.
  - apply tally_none. intros s _. unfold isAnswer.
    destruct (String.eqb (answer b) s) eqn:Heq; [|by rewrite andb_false_r].
    apply String.eqb_eq in Heq. subst s. by rewrite Hc.
Qed.

(** X7.  What [calcRewards] pays in all, for a pool whose share a float
    can hold.  Once the answer, which occurs once in the route, has been
    checked, the rewards add up to [len(route)] shares, which for a pool
    that is not negative and below [2 ^ 53] is the pool less the remainder
    of the division; as long as the answer is unchecked they add up to one
    share per checked route entry. *)
Theorem calcRewards_pays b :
  wf b -> floatPool b ->
  exists rs,
    calcRewards b = Ok rs /\
    (tally (isAnswer b) (route b) = 1 -> isChecked b (answer b) = true ->
       total rs = share b * Z.of_nat (length (route b)) /\
       (0 <= reward b < 2 ^ 53 ->
          total rs = reward b - reward b mod Z.of_nat (length (route b)))) /\
    (isChecked b (answer b) = false ->
       total rs = share b * (Z.of_nat (length (route b)) - uncheckedCount b)).
Proof.
  intros Hwf _.
  destruct (calcRewards_entries b Hwf) as (rs & Hrun & _ & Htot).
  exists rs. split; [done|].
  rewrite tally_answer_checked in Htot.
  assert (tally (fun s => isChecked b s && negb (isAnswer b s)) (route b)
          = Z.of_nat (length (route b)) - uncheckedCount b
            - (if isChecked b (answer b) then tally (isAnswer b) (route b) else 0))
    as Hrest.
  { unfold uncheckedCount. rewrite tally_negb.
    rewrite (tally_split (isChecked b) (isAnswer b)), tally_answer_checked. lia. }
  rewrite Hrest in Htot. split.
  - intros Hone Hc. rewrite Hc, Hone in Htot.
    assert (total rs = share b * Z.of_nat (length (route b))) as Hall
      by (rewrite Htot; ring).
    split; [exact Hall|]. intros Hr.
    assert (route b <> []) as Hroute by (intros Hempty; by rewrite Hempty in Hone).
    rewrite Hall, share_floor by done.
    unfold floorShare.
    destruct (route b) as [|s0 l0]; [done|].
    pose proof (Z.div_mod (reward b) (Z.of_nat (length (s0 :: l0)))
                  ltac:(simpl length; lia)).
    lia.
  - intros Hc. rewrite Hc in Htot. rewrite Htot. ring.
Qed.

Lemma calcRewards_pays_witness :
  exists rs,
    calcRewards (checks (blank ["A"; "B"; "C"] "B" 100) [("B", 1001)]) = Ok rs /\
    total rs = 99.
Proof.
  destruct (calcRewards_pays (checks (blank ["A"; "B"; "C"] "B" 100) [("B", 1001)]))
    as (rs & Hrun & Hfound & _).
  - apply wf_checks. intros s Hs.
    repeat (apply elem_of_cons in Hs as [->|Hs]); [by eexists..|].
    by apply elem_of_nil in Hs.
  - by vm_compute.
  - exists rs. split; [exact Hrun|].
    destruct Hfound as [_ Hpool]; [by vm_compute..|].
    rewrite Hpool; [by vm_compute | split; by vm_compute].
Defined.

(** X8.  As long as no route system has been checked, and in particular for
    an empty route, where nothing is divided, [calcRewards] returns the
    empty dictionary. *)
Theorem calcRewards_nothing_checked b :
  (forall s, s ∈ route b -> checked b !! s = Some UNCHECKED) ->
  calcRewards b = Ok ∅.
Proof.
  intros Hblank.
  destruct (calcRewards_entries b) as (rs & -> & Hlook & _).
  { intros s Hs. rewrite (Hblank s Hs). eauto. }
  f_equal. apply map_eq. intros u. rewrite Hlook, lookup_empty.
  unfold nChecked. rewrite tally_none; [done|].
  intros s Hs. unfold checkedBy. by rewrite (Hblank s Hs).
Qed.

Lemma calcRewards_nothing_checked_witness :
  calcRewards abcd = Ok ∅ /\ calcRewards (blank [] "" 40) = Ok ∅.
Proof.
  split; apply calcRewards_nothing_checked; intros s Hs.
  - repeat (apply elem_of_cons in Hs as [->|Hs]); [by vm_compute..|].
    by apply elem_of_nil in Hs.
  - by apply elem_of_nil in Hs.
Defined.

End rewards_more.

(** * Further facts about [generate] and the constructor *)

Section generate_more.
Import BountyConfig ConfigSpec MoreSpec.
Context (w : World) (owningDB : option BountyDB).
Context (noCriminal forceKeepChecked forceNoDBCheck : bool).

Lemma afterReward_frames :
  frames (fun c => (faction c, name c, isPlayer c, route c, start c, end_ c,
                    answer c, icon c, builtIn c, aliases c, wiki c, ship c))
         (resolveReward w ;; resolveTimes w ;;
          resolveChecked forceKeepChecked ;; modify (set_generated true)).
Proof.
  unfold resolveReward, resolveTimes, resolveChecked. repeat frames_step.
Qed.

Lemma generate_frames :
  frames (fun c => (isPlayer c, aliases c, wiki c, ship c))
         (generate w owningDB noCriminal forceKeepChecked forceNoDBCheck).
Proof.
  unfold generate, resolveCriminal, factionFull, nameTaken, drawFaction, drawName,
    askDB, resolveRoute, drawStart, drawEnd, noJumpGate, resolveAnswer,
    resolveReward, resolveTimes, resolveChecked.
  repeat first [apply checkRoute_frames | frames_step].
Qed.

(** A supplied route is only validated. *)
Lemma resolveRoute_supplied c d c' d' :
  route c <> [] ->
  resolveRoute w (c, d) = (Ok tt, (c', d')) ->
  c' = c /\ d' = d /\
  forall s, s ∈ route c -> is_Some (builtInSystemObjs (bbData w) !! s).
Proof.
  intros Hroute. unfold resolveRoute. intros Hrun.
  apply bind_Ok_inv in Hrun as (c0 & st0 & Hget & Hrun).
  inversion Hget; subst c0 st0. cbn [fst] in Hrun.
  rewrite bool_decide_eq_false_2 in Hrun by done.
  apply checkRoute_Ok in Hrun as [[= <- <-] Hknown]. done.
Qed.

(** X9.  [generate] marks the configuration generated when it succeeds and
    only then: when it raises, or starves, the flag is as before, and so
    are [checked] and the end time.  (The reward and the issue time may
    have been filled in by then: the date arithmetic of line 203 comes
    after them, and raises for a date that [datetime] cannot hold.) *)
Theorem generate_marks_success_only st :
  let r := generate w owningDB noCriminal forceKeepChecked forceNoDBCheck st in
  (r.1 = Ok tt -> generated r.2.1 = true) /\
  (r.1 <> Ok tt ->
     generated r.2.1 = generated st.1 /\ checked r.2.1 = checked st.1 /\
     endTime r.2.1 = endTime st.1).
Proof.
  cbv zeta. destruct st as [c d]. rewrite generate_split.
  pose proof (beforeReward_frames w owningDB noCriminal forceNoDBCheck (c, d)) as F.
  destruct (beforeReward w owningDB noCriminal forceNoDBCheck (c, d))
    as [[[]| |] [c3 d3]] eqn:Hb; cbn in F;
    inversion F as [[Hchk Hrew Hiss Hend Hgen]].
  - rewrite (bind_Ok _ _ _ _ _ Hb).
    destruct (afterReward_spec w forceKeepChecked c3 d3) as [Hraise Hfine].
    cbv zeta in Hraise, Hfine.
    destruct (decide (reward c3 = -1 \/ 0 <= reward c3)) as [Hok|Hbad].
    + destruct (Hfine Hok) as (c4 & Hst & _ & _ & Hcase).
      destruct ((resolveReward w ;; resolveTimes w ;;
                 resolveChecked forceKeepChecked ;; modify (set_generated true))
                  (c3, d3)) as [o [c5 d5]].
      cbn in Hst, Hcase |- *. injection Hst as -> ->.
      destruct (rewardAfter w c3) as [r| |].
      * destruct Hcase as (_ & _ & Hcase).
        destruct (endAfter w c3) as [e| |].
        -- destruct Hcase as (-> & _ & _ & Hg). split; [done|]. by intros [].
        -- destruct Hcase as (-> & He & Hc & Hg). split; [done|]. intros _.
           rewrite Hg, Hc, He. done.
        -- destruct Hcase as (-> & He & Hc & Hg). split; [done|]. intros _.
           rewrite Hg, Hc, He. done.
      * destruct Hcase as (-> & ->). split; [done|]. done.
      * destruct Hcase as (-> & ->). split; [done|]. done.
    + rewrite Hraise by lia. split; [done|]. intros _. cbn. done.
  - match goal with |- context [(?m ≫= ?k) (c, d)] =>
      assert ((m ≫= k) (c, d) = (Raise e, (c3, d3))) as ->
        by (unfold mbind at 1, run_bind; by rewrite Hb) end.
    split; [done|]. intros _. cbn. done.
  - match goal with |- context [(?m ≫= ?k) (c, d)] =>
      assert ((m ≫= k) (c, d) = (Starved, (c3, d3))) as ->
        by (unfold mbind at 1, run_bind; by rewrite Hb) end.
    split; [done|]. intros _. cbn. done.
Qed.

(** X10.  A successful [generate] only fills in what was not supplied: a
    supplied route, answer, reward, issue time and end time are kept as
    given, and so are, always, the player flag, the aliases, the wiki page
    and the ship. *)
Theorem generate_keeps_supplied c d c' d' :
  generate w owningDB noCriminal forceKeepChecked forceNoDBCheck (c, d)
    = (Ok tt, (c', d')) ->
  (route c <> [] -> route c' = route c) /\
  (answer c <> "" -> answer c' = answer c) /\
  (reward c <> -1 -> reward c' = reward c) /\
  (issueTime c <> NOT_GIVEN -> issueTime c' = issueTime c) /\
  (endTime c <> NOT_GIVEN -> endTime c' = endTime c) /\
  isPlayer c' = isPlayer c /\ aliases c' = aliases c /\
  wiki c' = wiki c /\ ship c' = ship c.
Proof.
  intros Hrun.
  pose proof (generate_frames (c, d)) as F. rewrite Hrun in F. cbn in F.
  inversion F as [[Hp Hal Hwk Hsh]].
  apply generate_Ok_inv in Hrun as (c3 & Hbefore & _ & Hr & Ha & Hrw & Hi & He & _).
  split.
  { intros Hroute. rewrite Hr. unfold beforeReward in Hbefore.
    apply bind_Ok_inv in Hbefore as ([] & [c1 d1] & H1 & Hbefore).
    apply bind_Ok_inv in Hbefore as ([] & [c2 d2] & H2 & H3).
    pose proof (resolveCriminal_frames w owningDB noCriminal forceNoDBCheck (c, d))
      as F1. rewrite H1 in F1. cbn in F1. inversion F1 as [[Hr1 H0 H2' H3' H4 H5 H6 H7 H8]].
    apply resolveAnswer_Ok in H3 as (-> & _).
    apply resolveRoute_supplied in H2 as (-> & _); [done|congruence]. }
  split.
  { intros Hans. rewrite Ha.
    by destruct (proj2 (beforeReward_answer _ _ _ _ _ _ _ _ Hbefore) Hans). }
  split; [intros Hne; apply Z.eqb_neq in Hne; rewrite Hne in Hrw;
          by injection Hrw|].
  split; [intros Hne; rewrite Hi; by apply Z.eqb_neq in Hne as ->|].
  split; [intros Hne; apply Z.eqb_neq in Hne; rewrite Hne in He;
          by injection He|].
  done.
Qed.

Lemma ensures_while {S} (I J : S -> Prop) (cond : run S bool) (body : run S unit) :
  ensures I cond (fun b c => I c /\ (b = false -> J c)) ->
  ensures I body (fun _ c => I c) ->
  ensures I (while cond body) (fun _ c => I c /\ J c).
Proof.
  intros Hc Hb.
  assert (forall n, ensures I (while_rounds n cond body) (fun _ c => I c /\ J c))
    as Hn.
  { induction n as [|n IH]; intros st a st' HI Hrun; simpl in Hrun; [done|].
    apply bind_Ok_inv in Hrun as (b & st1 & Hcond & Hrun).
    destruct (Hc st b st1 HI Hcond) as [HI1 HJ].
    destruct b.
    - apply bind_Ok_inv in Hrun as ([] & st2 & Hbody & Hrun).
      eapply IH; [|exact Hrun]. eapply Hb; eauto.
    - inversion Hrun; subst. auto. }
  intros st a st' HI Hrun. unfold while in Hrun. eapply Hn; eauto.
Qed.

(** *** The random choices of faction and name *)

Lemma factionFull_ensures (I : t -> Prop) :
  ensures I (factionFull owningDB forceNoDBCheck)
    (fun b c => I c /\ (b = false -> hasRoom owningDB forceNoDBCheck (faction c))).
Proof.
  intros [c d] b st' HI.
  unfold factionFull, askDB, get, raise, mbind, run_bind, mret, run_ret, hasRoom.
  destruct forceNoDBCheck; cbn.
  - intros [= <- <-]. split; [done|]. intros _ ?. done.
  - destruct owningDB as [db|]; cbn; [|done]. intros [= <- <-]. cbn.
    split; [done|]. intros Hb _. exists db. split; [done|].
    by apply negb_false_iff.
Qed.

Lemma nameTaken_ensures (I : t -> Prop) :
  ensures I (nameTaken owningDB forceNoDBCheck)
    (fun b c => I c /\ (b = false -> nameFree owningDB forceNoDBCheck (name c))).
Proof.
  intros [c d] b st' HI.
  unfold nameTaken, askDB, get, raise, mbind, run_bind, mret, run_ret, nameFree.
  destruct forceNoDBCheck; cbn.
  - intros [= <- <-]. split; [done|]. intros _ ?. done.
  - destruct owningDB as [db|]; cbn; [|done]. intros [= <- <-]. cbn.
    split; [done|]. intros Hb _. exists db. done.
Qed.

Lemma drawFaction_ensures (I : t -> Prop) :
  (forall c f, I c -> I (set_faction f c)) ->
  ensures I (drawFaction w)
    (fun _ c => I c /\ faction c ∈ bountyFactions (bbData w)).
Proof.
  intros Hset [c d] [] st' HI Hrun. unfold drawFaction in Hrun.
  apply bind_Ok_inv in Hrun as (f & [c1 d1] & Hch & Hmod).
  apply choice_Ok_elem in Hch as [Hin Hst]. cbn in Hst. subst c1.
  unfold modify in Hmod. inversion Hmod; subst. cbn. split; [by apply Hset|done].
Qed.

Lemma drawName_ensures (I : t -> Prop) :
  (forall c n, I c -> I (set_name n c)) ->
  ensures I (drawName w)
    (fun _ c => I c /\
       exists l, bountyNames (bbData w) !! faction c = Some l /\ name c ∈ l).
Proof.
  intros Hset [c d] [] st' HI Hrun. unfold drawName in Hrun.
  apply bind_Ok_inv in Hrun as (c0 & st0 & Hget & Hrun).
  inversion Hget; subst c0 st0. cbn [fst] in Hrun.
  apply bind_Ok_inv in Hrun as (l & st1 & Hl & Hrun).
  unfold lift, getitem in Hl.
  destruct (bountyNames (bbData w) !! faction c) as [l'|] eqn:Hnames; [|done].
  inversion Hl; subst l' st1.
  apply bind_Ok_inv in Hrun as (n & [c1 d1] & Hch & Hmod).
  apply choice_Ok_elem in Hch as [Hin Hst]. cbn in Hst. subst c1.
  unfold modify in Hmod. inversion Hmod; subst. cbn.
  split; [by apply Hset|]. eauto.
Qed.

(** The faction and the name that [generate] settles on for a new
    criminal whose name is not a key of [bountyNames]. *)
Lemma resolveCriminal_new c d c' d' :
  resolveCriminal w owningDB true forceNoDBCheck (c, d) = (Ok tt, (c', d')) ->
  contains (bountyNames (bbData w)) (name c) = false ->
  faction c' ∈ bountyFactions (bbData w) /\
  hasRoom owningDB forceNoDBCheck (faction c') /\
  nameFree owningDB forceNoDBCheck (name c') /\
  (faction c <> "" -> faction c' = faction c) /\
  (name c <> "" -> name c' = name c /\ builtIn c' = builtIn c) /\
  (name c = "" ->
     builtIn c' = true /\
     exists l, bountyNames (bbData w) !! faction c' = Some l /\ name c' ∈ l).
Proof.
  unfold resolveCriminal. intros Hrun Hnb.
  apply bind_Ok_inv in Hrun as (c0 & st0 & Hget & Hrun).
  inversion Hget; subst c0 st0. cbn [fst] in Hrun. rewrite Hnb in Hrun.
  apply bind_Ok_inv in Hrun as ([] & [c1 d1] & Hfac & Hrun).
  assert (name c1 = name c /\ builtIn c1 = builtIn c /\
          faction c1 ∈ bountyFactions (bbData w) /\
          hasRoom owningDB forceNoDBCheck (faction c1) /\
          (faction c <> "" -> faction c1 = faction c))
    as (Hn1 & Hb1 & Hin1 & Hroom1 & Hkeep1).
  { destruct (String.eqb (faction c) "") eqn:Hfe.
    - apply String.eqb_eq in Hfe.
      apply bind_Ok_inv in Hfac as ([] & st1 & Hdraw & Hloop).
      set (I := fun x : t => name x = name c /\ builtIn x = builtIn c).
      assert (forall x f, I x -> I (set_faction f x)) as Hset by (by intros x f [? ?]).
      destruct (drawFaction_ensures I Hset (c, d) tt st1 (conj eq_refl eq_refl) Hdraw)
        as [HI Hin].
      destruct (ensures_while (fun x => I x /\ faction x ∈ bountyFactions (bbData w))
                  (fun x => hasRoom owningDB forceNoDBCheck (faction x))
                  (factionFull owningDB forceNoDBCheck) (drawFaction w)
                  (factionFull_ensures _)
                  (fun st a st' HI' Hr =>
                     drawFaction_ensures I Hset st a st' (proj1 HI') Hr)
                  st1 tt (c1, d1) (conj HI Hin) Hloop)
        as [[[? ?] ?] ?].
      repeat split; try done.
    - apply String.eqb_neq in Hfe.
      destruct (decide (faction c ∈ bountyFactions (bbData w))) as [Hin|Hout].
      2:{ rewrite bool_decide_eq_false_2 in Hfac by done. done. }
      rewrite bool_decide_eq_true_2 in Hfac by done. cbn [negb] in Hfac.
      apply bind_Ok_inv in Hfac as (full & st1 & Hfull & Hrest).
      destruct (factionFull_ensures (fun x => x = c) (c, d) full st1 eq_refl Hfull)
        as [Heq Hroom].
      destruct st1 as [cx dx]. cbn in Heq, Hroom. subst cx.
      destruct full; [done|]. unfold mret, run_ret in Hrest.
      injection Hrest as <- <-. repeat split; auto. }
  apply bind_Ok_inv in Hrun as (c0 & st0 & Hget1 & Hrun).
  inversion Hget1; subst c0 st0. cbn [fst] in Hrun. rewrite Hn1 in Hrun.
  destruct (String.eqb (name c) "") eqn:Hne.
  - apply String.eqb_eq in Hne.
    apply bind_Ok_inv in Hrun as ([] & st2 & Hmark & Hrun).
    unfold modify in Hmark. inversion Hmark; subst st2. cbn [fst snd] in Hrun.
    apply bind_Ok_inv in Hrun as ([] & st3 & Hdraw & Hloop).
    set (I := fun x : t => faction x = faction c1 /\ builtIn x = true).
    assert (forall x n, I x -> I (set_name n x)) as Hset by (by intros x n [? ?]).
    destruct (drawName_ensures I Hset (set_builtIn true c1, d1) tt st3
                (conj eq_refl eq_refl) Hdraw)
      as [HI Hin].
    destruct (ensures_while
                (fun x => I x /\
                   exists l, bountyNames (bbData w) !! faction x = Some l /\ name x ∈ l)
                (fun x => nameFree owningDB forceNoDBCheck (name x))
                (nameTaken owningDB forceNoDBCheck) (drawName w)
                (nameTaken_ensures _)
                (fun st a st' HI' Hr =>
                   drawName_ensures I Hset st a st' (proj1 HI') Hr)
                st3 tt (c', d') (conj HI Hin) Hloop)
      as [[[Hf' Hb'] Hl'] Hfree'].
    cbn [fst] in Hf', Hb', Hl', Hfree'.
    rewrite Hf'. repeat split; auto; try congruence.
    by rewrite <- Hf'.
  - apply String.eqb_neq in Hne.
    apply bind_Ok_inv in Hrun as (taken & st2 & Htaken & Hrun).
    destruct (nameTaken_ensures (fun x => x = c1) (c1, d1) taken st2 eq_refl Htaken)
      as [Heq Hfree].
    destruct taken; [done|]. destruct st2 as [c2 d2]. cbn in Heq. subst c2.
    specialize (Hfree eq_refl).
    apply bind_Ok_inv in Hrun as (c0 & st0 & Hget2 & Hrun).
    inversion Hget2; subst c0 st0. cbn [fst] in Hrun.
    assert (faction c' = faction c1 /\ name c' = name c1 /\ builtIn c' = builtIn c1)
      as (Hf' & Hn' & Hb').
    { destruct (String.eqb (icon c1) ""); inversion Hrun; subst; done. }
    rewrite Hf', Hn', Hb', Hn1. repeat split; auto; try congruence.
    by rewrite <- Hn1.
Qed.

Lemma afterCriminal_frames :
  frames (fun c => (faction c, name c, builtIn c))
         (resolveRoute w ;; resolveAnswer w ;; resolveReward w ;; resolveTimes w ;;
          resolveChecked forceKeepChecked ;; modify (set_generated true)).
Proof.
  unfold resolveRoute, drawStart, drawEnd, noJumpGate, resolveAnswer,
    resolveReward, resolveTimes, resolveChecked.
  repeat first [apply checkRoute_frames | frames_step].
Qed.

(** X11.  The faction and name of a successfully generated configuration
    respect the registry.  For an existing criminal they are as given and
    the faction has room.  For a new criminal whose name is not a key of
    [bountyNames]: the faction is one of [bountyFactions] and has room, the
    name is not in use, a supplied faction or name is kept, and a drawn
    name is one of the names of the faction.  Room and use are those that
    the database reports, which is there unless the check is switched
    off. *)
Theorem generate_respects_registry c d c' d' :
  generate w owningDB noCriminal forceKeepChecked forceNoDBCheck (c, d)
    = (Ok tt, (c', d')) ->
  (noCriminal = false ->
     faction c' = faction c /\ name c' = name c /\
     hasRoom owningDB forceNoDBCheck (faction c')) /\
  (noCriminal = true -> contains (bountyNames (bbData w)) (name c) = false ->
     faction c' ∈ bountyFactions (bbData w) /\
     hasRoom owningDB forceNoDBCheck (faction c') /\
     nameFree owningDB forceNoDBCheck (name c') /\
     (faction c <> "" -> faction c' = faction c) /\
     (name c <> "" -> name c' = name c) /\
     (name c = "" ->
        builtIn c' = true /\
        exists l, bountyNames (bbData w) !! faction c' = Some l /\ name c' ∈ l)).
Proof.
  unfold generate. intros Hrun.
  apply bind_Ok_inv in Hrun as ([] & [c1 d1] & Hcrim & Hrest).
  pose proof (afterCriminal_frames (c1, d1)) as F. rewrite Hrest in F.
  cbn in F. inversion F as [[Hf Hn Hb]]. split.
  - intros ->. unfold resolveCriminal in Hcrim.
    apply bind_Ok_inv in Hcrim as (full & st1 & Hfull & Hret).
    destruct (factionFull_ensures (fun x => x = c) (c, d) full st1 eq_refl Hfull)
      as [Heq Hroom].
    destruct st1 as [cx dx]. cbn in Heq, Hroom. subst cx.
    destruct full; [done|]. unfold mret, run_ret in Hret.
    injection Hret as <- <-. rewrite Hf, Hn. repeat split; auto.
  - intros -> Hnb. rewrite Hf, Hn, Hb.
    destruct (resolveCriminal_new _ _ _ _ Hcrim Hnb)
      as (Hin & Hroom & Hfree & Hkf & Hkn & Hdrawn).
    repeat split; auto.
    + intros Hne. by destruct (Hkn Hne).
    + by destruct (Hdrawn H).
    + by destruct (Hdrawn H).
Qed.

End generate_more.

Section generate_more_runs.
Import BountyConfig ConfigSpec MoreSpec.

Lemma generate_keeps_supplied_witness :
  let st := generate Sample.world (Some Sample.db) true false false
              (init (Sample.custom ["A"; "B"] "A" (Int 30)), []) in
  st.1 = Ok tt /\ route st.2.1 = ["A"; "B"] /\ answer st.2.1 = "A" /\
  reward st.2.1 = 30.
Proof.
  cbv zeta.
  set (st := generate Sample.world (Some Sample.db) true false false
               (init (Sample.custom ["A"; "B"] "A" (Int 30)), [])).
  assert (generate Sample.world (Some Sample.db) true false false
            (init (Sample.custom ["A"; "B"] "A" (Int 30)), [])
          = (Ok tt, (st.2.1, st.2.2))) as Hrun by (by vm_compute).
  destruct (generate_keeps_supplied _ _ _ _ _ _ _ _ _ Hrun)
    as (Hr & Ha & Hrw & _).
  split; [by vm_compute|].
  split; [by rewrite Hr by (by vm_compute)|].
  split; [by rewrite Ha by (by vm_compute)|].
  by rewrite Hrw by (by vm_compute).
Defined.

Lemma generate_respects_registry_witness :
  let st := generate Sample.world (Some Sample.db) true false false
              (init (Sample.custom [] "" (Int (-1))), [0; 1; 2; 3; 4]%nat) in
  st.1 = Ok tt /\
  faction st.2.1 ∈ bountyFactions (bbData Sample.world) /\
  hasRoom (Some Sample.db) false (faction st.2.1) /\
  nameFree (Some Sample.db) false (name st.2.1) /\
  faction st.2.1 = "terran" /\ name st.2.1 = "Vossk".
Proof.
  cbv zeta.
  set (st := generate Sample.world (Some Sample.db) true false false
               (init (Sample.custom [] "" (Int (-1))), [0; 1; 2; 3; 4]%nat)).
  assert (generate Sample.world (Some Sample.db) true false false
            (init (Sample.custom [] "" (Int (-1))), [0; 1; 2; 3; 4]%nat)
          = (Ok tt, (st.2.1, st.2.2))) as Hrun by (by vm_compute).
  destruct (generate_respects_registry _ _ _ _ _ _ _ _ _ Hrun) as [_ Hnew].
  destruct (Hnew eq_refl) as (Hin & Hroom & Hfree & Hkf & Hkn & _);
    [by vm_compute|].
  split; [by vm_compute|]. split; [exact Hin|]. split; [exact Hroom|].
  split; [exact Hfree|].
  split; [by rewrite Hkf by (by vm_compute) | by rewrite Hkn by (by vm_compute)].
Defined.

End generate_more_runs.

(** * The route that [generate] plans *)

Section route_more.
Import BountyConfig ConfigSpec MoreSpec.
Context (w : World).

Lemma systemNames_known s :
  s ∈ systemNames w -> is_Some (builtInSystemObjs (bbData w) !! s).
Proof.
  unfold systemNames. intros Hs.
  apply list_elem_of_fmap in Hs as ([k v] & -> & Hkv).
  apply elem_of_map_to_list in Hkv. eauto.
Qed.

Lemma drawStart_ensures (I : t -> Prop) :
  (forall c s, I c -> I (set_start s c)) ->
  ensures I (drawStart w)
    (fun _ c => I c /\ is_Some (builtInSystemObjs (bbData w) !! start c)).
Proof.
  intros Hset [c d] [] st' HI Hrun. unfold drawStart in Hrun.
  apply bind_Ok_inv in Hrun as (s & [c1 d1] & Hch & Hmod).
  apply choice_Ok_elem in Hch as [Hin Hst]. cbn in Hst. subst c1.
  unfold modify in Hmod. inversion Hmod; subst. cbn.
  split; [by apply Hset | by apply systemNames_known].
Qed.

Lemma drawEnd_ensures (I : t -> Prop) :
  (forall c s, I c -> I (set_end s c)) ->
  ensures I (drawEnd w)
    (fun _ c => I c /\ is_Some (builtInSystemObjs (bbData w) !! end_ c)).
Proof.
  intros Hset [c d] [] st' HI Hrun. unfold drawEnd in Hrun.
  apply bind_Ok_inv in Hrun as (s & [c1 d1] & Hch & Hmod).
  apply choice_Ok_elem in Hch as [Hin Hst]. cbn in Hst. subst c1.
  unfold modify in Hmod. inversion Hmod; subst. cbn.
  split; [by apply Hset | by apply systemNames_known].
Qed.

(** The test of the two drawing loops, on the endpoint [pick]. *)
Lemma endpoint_test_ensures (I : t -> Prop) (pick : t -> string) :
  ensures I
    (c ← get;
     if String.eqb (start c) (end_ c) then mret true
     else noJumpGate w (pick c))
    (fun b c => I c /\ (b = false -> start c <> end_ c /\ hasGate w (pick c))).
Proof.
  intros [c d] b st' HI Hrun.
  apply bind_Ok_inv in Hrun as (c0 & st0 & Hget & Hrun).
  inversion Hget; subst c0 st0. cbn [fst] in Hrun.
  destruct (String.eqb (start c) (end_ c)) eqn:Heq.
  - inversion Hrun; subst. split; [done|]. done.
  - apply String.eqb_neq in Heq. unfold noJumpGate in Hrun.
    apply bind_Ok_inv in Hrun as (sys & st1 & Hsys & Hret).
    unfold lift, getitem in Hsys.
    destruct (builtInSystemObjs (bbData w) !! pick c) as [sys'|] eqn:Hlook; [|done].
    inversion Hsys; subst sys' st1. inversion Hret; subst. cbn.
    split; [done|]. intros Hgate. split; [done|].
    exists sys. split; [done|]. by apply negb_false_iff.
Qed.

(** The route phase on a configuration without a route. *)
Lemma resolveRoute_drawn c d c' d' :
  resolveRoute w (c, d) = (Ok tt, (c', d')) ->
  route c = [] ->
  bbAStar w (start c') (end_ c') = Ok (route c') /\
  is_Some (builtInSystemObjs (bbData w) !! start c') /\
  is_Some (builtInSystemObjs (bbData w) !! end_ c') /\
  (start c <> "" -> start c' = start c) /\
  (end_ c <> "" -> end_ c' = end_ c) /\
  (start c = "" -> hasGate w (start c') /\ start c' <> end_ c) /\
  (end_ c = "" -> hasGate w (end_ c') /\ start c' <> end_ c').
Proof.
  unfold resolveRoute. intros Hrun Hroute.
  apply bind_Ok_inv in Hrun as (c0 & st0 & Hget & Hrun).
  inversion Hget; subst c0 st0. cbn [fst] in Hrun.
  rewrite bool_decide_eq_true_2 in Hrun by done.
  apply bind_Ok_inv in Hrun as ([] & [c1 d1] & Hstart & Hrun).
  assert (end_ c1 = end_ c /\
          is_Some (builtInSystemObjs (bbData w) !! start c1) /\
          (start c <> "" -> start c1 = start c) /\
          (start c = "" -> hasGate w (start c1) /\ start c1 <> end_ c))
    as (He1 & Hk1 & Hkeep1 & Hdrawn1).
  { destruct (String.eqb (start c) "") eqn:Hse.
    - apply String.eqb_eq in Hse.
      apply bind_Ok_inv in Hstart as ([] & st1 & Hdraw & Hloop).
      set (I := fun x : t => end_ x = end_ c).
      assert (forall x s, I x -> I (set_start s x)) as Hset by done.
      destruct (drawStart_ensures I Hset (c, d) tt st1 eq_refl Hdraw) as [HI Hin].
      destruct (ensures_while
                  (fun x => I x /\ is_Some (builtInSystemObjs (bbData w) !! start x))
                  (fun x => start x <> end_ x /\ hasGate w (start x))
                  _ (drawStart w)
                  (endpoint_test_ensures _ start)
                  (fun st a st' HI' Hr =>
                     drawStart_ensures I Hset st a st' (proj1 HI') Hr)
                  st1 tt (c1, d1) (conj HI Hin) Hloop)
        as [[HI1 Hin1] [Hne Hgate]].
      cbn [fst] in HI1, Hin1, Hne, Hgate. unfold I in HI1.
      repeat split; try done. by rewrite <- HI1.
    - apply String.eqb_neq in Hse. unfold contains in Hstart.
      destruct (decide (is_Some (builtInSystemObjs (bbData w) !! start c)))
        as [Hknown|Hunknown].
      2:{ by rewrite bool_decide_eq_false_2 in Hstart. }
      rewrite bool_decide_eq_true_2 in Hstart by done.
      inversion Hstart; subst. done. }
  apply bind_Ok_inv in Hrun as (c0 & st0 & Hget1 & Hrun).
  inversion Hget1; subst c0 st0. cbn [fst] in Hrun.
  apply bind_Ok_inv in Hrun as ([] & [c2 d2] & Hend & Hrun).
  assert (start c2 = start c1 /\
          is_Some (builtInSystemObjs (bbData w) !! end_ c2) /\
          (end_ c1 <> "" -> end_ c2 = end_ c1) /\
          (end_ c1 = "" -> hasGate w (end_ c2) /\ start c2 <> end_ c2))
    as (Hs2 & Hk2 & Hkeep2 & Hdrawn2).
  { destruct (String.eqb (end_ c1) "") eqn:Hee.
    - apply String.eqb_eq in Hee.
      apply bind_Ok_inv in Hend as ([] & st1 & Hdraw & Hloop).
      set (I := fun x : t => start x = start c1).
      assert (forall x s, I x -> I (set_end s x)) as Hset by done.
      destruct (drawEnd_ensures I Hset (c1, d1) tt st1 eq_refl Hdraw) as [HI Hin].
      destruct (ensures_while
                  (fun x => I x /\ is_Some (builtInSystemObjs (bbData w) !! end_ x))
                  (fun x => start x <> end_ x /\ hasGate w (end_ x))
                  _ (drawEnd w)
                  (endpoint_test_ensures _ end_)
                  (fun st a st' HI' Hr =>
                     drawEnd_ensures I Hset st a st' (proj1 HI') Hr)
                  st1 tt (c2, d2) (conj HI Hin) Hloop)
        as [[HI1 Hin1] [Hne Hgate]].
      cbn [fst] in HI1, Hin1, Hne, Hgate. unfold I in HI1.
      repeat split; done.
    - apply String.eqb_neq in Hee. unfold contains in Hend.
      destruct (decide (is_Some (builtInSystemObjs (bbData w) !! end_ c1)))
        as [Hknown|Hunknown].
      2:{ by rewrite bool_decide_eq_false_2 in Hend. }
      rewrite bool_decide_eq_true_2 in Hend by done.
      inversion Hend; subst. done. }
  apply bind_Ok_inv in Hrun as (c0 & st0 & Hget2 & Hrun).
  inversion Hget2; subst c0 st0. cbn [fst] in Hrun.
  apply bind_Ok_inv in Hrun as (r & st3 & Hplan & Hmod).
  unfold lift in Hplan. inversion Hplan as [[Hr Hst]]. subst st3.
  unfold modify in Hmod. inversion Hmod; subst c' d'. cbn.
  rewrite Hs2. rewrite He1 in Hkeep2, Hdrawn2.
  split; [by rewrite <- Hs2|]. split; [done|]. split; [done|].
  split; [done|]. split; [done|]. split; [done|].
  intros He. rewrite <- Hs2. by apply Hdrawn2.
Qed.

Lemma afterRoute_frames forceKeepChecked :
  frames (fun c => (route c, start c, end_ c))
         (resolveAnswer w ;; resolveReward w ;; resolveTimes w ;;
          resolveChecked forceKeepChecked ;; modify (set_generated true)).
Proof.
  unfold resolveAnswer, resolveReward, resolveTimes, resolveChecked.
  repeat frames_step.
Qed.

(** X12.  The route of a successfully generated configuration that came
    without one is the path that the planner returns between its start and
    end.  Both are known systems; a supplied one is kept; a drawn one has a
    jump gate; and start and end differ as soon as one of them is drawn. *)
Theorem generate_plans_route owningDB noCriminal forceKeepChecked forceNoDBCheck
    c d c' d' :
  generate w owningDB noCriminal forceKeepChecked forceNoDBCheck (c, d)
    = (Ok tt, (c', d')) ->
  route c = [] ->
  bbAStar w (start c') (end_ c') = Ok (route c') /\
  is_Some (builtInSystemObjs (bbData w) !! start c') /\
  is_Some (builtInSystemObjs (bbData w) !! end_ c') /\
  (start c <> "" -> start c' = start c) /\
  (end_ c <> "" -> end_ c' = end_ c) /\
  (start c = "" -> hasGate w (start c')) /\
  (end_ c = "" -> hasGate w (end_ c')) /\
  (start c = "" \/ end_ c = "" -> start c' <> end_ c').
Proof.
  unfold generate. intros Hrun Hroute.
  apply bind_Ok_inv in Hrun as ([] & [c1 d1] & Hcrim & Hrun).
  apply bind_Ok_inv in Hrun as ([] & [c2 d2] & Hplan & Hrest).
  pose proof (resolveCriminal_frames w owningDB noCriminal forceNoDBCheck (c, d))
    as F1. rewrite Hcrim in F1. cbn in F1.
  injection F1 as Hr1 Hs1 He1 _ _ _ _ _ _.
  pose proof (afterRoute_frames forceKeepChecked (c2, d2)) as F2.
  rewrite Hrest in F2. cbn in F2. inversion F2 as [[Hr2 Hs2 He2]].
  rewrite Hr2, Hs2, He2, <- Hs1, <- He1.
  destruct (resolveRoute_drawn _ _ _ _ Hplan ltac:(congruence))
    as (Hpath & Hks & Hke & Hkeeps & Hkeepe & Hds & Hde).
  split; [done|]. split; [done|]. split; [done|]. split; [done|].
  split; [done|]. split; [intros H; by apply Hds|].
  split; [intros H; by apply Hde|].
  intros [Hs|He]; [|by apply Hde].
  destruct (decide (end_ c1 = "")) as [Hempty|Hgiven]; [by apply Hde|].
  rewrite (Hkeepe Hgiven). by apply Hds.
Qed.

End route_more.

Section route_more_runs.
Import BountyConfig ConfigSpec MoreSpec.

Lemma generate_plans_route_witness :
  let st := generate Sample.world (Some Sample.db) true false false
              (init (Sample.custom [] "" (Int (-1))), [0; 1; 2; 3; 4]%nat) in
  st.1 = Ok tt /\
  bbAStar Sample.world (start st.2.1) (end_ st.2.1) = Ok (route st.2.1) /\
  hasGate Sample.world (start st.2.1) /\ hasGate Sample.world (end_ st.2.1) /\
  start st.2.1 <> end_ st.2.1.
Proof.
  cbv zeta.
  set (st := generate Sample.world (Some Sample.db) true false false
               (init (Sample.custom [] "" (Int (-1))), [0; 1; 2; 3; 4]%nat)).
  assert (generate Sample.world (Some Sample.db) true false false
            (init (Sample.custom [] "" (Int (-1))), [0; 1; 2; 3; 4]%nat)
          = (Ok tt, (st.2.1, st.2.2))) as Hrun by (by vm_compute).
  destruct (generate_plans_route _ _ _ _ _ _ _ _ _ Hrun eq_refl)
    as (Hpath & _ & _ & _ & _ & Hs & He & Hne).
  split; [by vm_compute|]. split; [exact Hpath|].
  split; [by apply Hs|]. split; [by apply He|]. apply Hne. by left.
Defined.

End route_more_runs.

(** * What [generate] and [fromDict] refuse *)

Section errors_more.
Import BountyConfig ConfigSpec.

Lemma checkRoute_unknown w l st :
  (exists s, s ∈ l /\ builtInSystemObjs (bbData w) !! s = None) ->
  checkRoute w l st = (Raise KeyError, st).
Proof.
  induction l as [|x l IH]; intros (s & Hs & Hnone).
  - by apply elem_of_nil in Hs.
  - simpl. unfold contains.
    destruct (builtInSystemObjs (bbData w) !! x) as [sys|] eqn:Hx.
    + rewrite bool_decide_eq_true_2 by eauto. simpl. apply IH.
      apply elem_of_cons in Hs as [->|Hs]; [congruence|eauto].
    + rewrite bool_decide_eq_false_2; [done|]. by intros [? ?].
Qed.

(** X13.  What [generate] refuses of a new criminal whose name is not a key
    of [bountyNames] and whose faction is supplied, and of an existing
    criminal.  A faction outside [bountyFactions] is a [ValueError]; a
    faction for which the database has no room is an [IndexError]; a
    supplied name on which the database has a bounty is a [KeyError]; and
    a database check without a database is an [AttributeError].  In each
    case the configuration and the random supply are left as they were. *)
Theorem generate_refuses_criminal w owningDB noCriminal forceKeepChecked
    forceNoDBCheck c d :
  (noCriminal = true ->
     contains (bountyNames (bbData w)) (name c) = false /\ faction c <> "") ->
  let r := generate w owningDB noCriminal forceKeepChecked forceNoDBCheck (c, d) in
  (noCriminal = true -> faction c ∉ bountyFactions (bbData w) ->
     r = (Raise ValueError, (c, d))) /\
  (forceNoDBCheck = false ->
   (noCriminal = true -> faction c ∈ bountyFactions (bbData w)) ->
     (owningDB = None -> r = (Raise AttributeError, (c, d))) /\
     (forall db, owningDB = Some db ->
        (factionCanMakeBounty db (faction c) = false ->
           r = (Raise IndexError, (c, d))) /\
        (noCriminal = true -> factionCanMakeBounty db (faction c) = true ->
         name c <> "" -> bountyNameExists db (name c) = true ->
           r = (Raise KeyError, (c, d))))).
Proof.
  intros Hnew. cbv zeta.
  unfold generate, resolveCriminal, factionFull, nameTaken, askDB.
  unfold get, raise, mbind, run_bind, mret, run_ret.
  split.
  - intros ->. destruct (Hnew eq_refl) as [Hnb Hf]. intros Hout.
    cbn [fst snd]. rewrite Hnb. apply String.eqb_neq in Hf as ->.
    by rewrite bool_decide_eq_false_2.
  - intros -> Hin. cbn [negb]. split.
    + intros ->. destruct noCriminal; [|done].
      destruct (Hnew eq_refl) as [Hnb Hf]. cbn [fst snd]. rewrite Hnb.
      apply String.eqb_neq in Hf as ->.
      by rewrite bool_decide_eq_true_2 by auto.
    + intros db ->. split.
      * intros Hfull. destruct noCriminal; cbn [fst snd]; [|by rewrite Hfull].
        destruct (Hnew eq_refl) as [Hnb Hf]. rewrite Hnb.
        apply String.eqb_neq in Hf as ->.
        rewrite bool_decide_eq_true_2 by auto. cbn. by rewrite Hfull.
      * intros -> Hroom Hn Htaken. destruct (Hnew eq_refl) as [Hnb Hf].
        cbn [fst snd]. rewrite Hnb. apply String.eqb_neq in Hf as ->.
        rewrite bool_decide_eq_true_2 by auto. cbn. rewrite Hroom. cbn.
        apply String.eqb_neq in Hn as ->. cbn. by rewrite Htaken.
Qed.

(** The steps of [generate] up to the answer on the reload path, for a
    configuration with a route and an answer. *)
Lemma beforeReward_reload w owningDB c d :
  route c <> [] -> answer c <> "" ->
  beforeReward w owningDB false true (c, d) =
    if bool_decide (Forall (fun s => is_Some (builtInSystemObjs (bbData w) !! s))
                      (route c))
       && contains (builtInSystemObjs (bbData w)) (answer c)
    then (Ok tt, (c, d)) else (Raise KeyError, (c, d)).
Proof.
  intros Hroute Hans.
  unfold beforeReward, resolveCriminal, factionFull, resolveRoute, resolveAnswer.
  unfold mbind, run_bind, mret, run_ret, get, raise. cbn [negb fst snd].
  rewrite bool_decide_eq_false_2 by done.
  destruct (decide (Forall (fun s => is_Some (builtInSystemObjs (bbData w) !! s))
                      (route c))) as [Hall|Hsome].
  - rewrite bool_decide_eq_true_2 by done.
    rewrite checkRoute_known by (by apply Forall_forall).
    cbn [fst snd andb]. apply String.eqb_neq in Hans as ->.
    by destruct (contains _ _).
  - rewrite bool_decide_eq_false_2 by done.
    rewrite checkRoute_unknown; [done|].
    apply not_Forall_Exists in Hsome; [|apply _].
    apply Exists_exists in Hsome as (s & Hs & Hnot). exists s. split; [done|].
    destruct (builtInSystemObjs (bbData w) !! s) eqn:E; [|done].
    destruct Hnot. rewrite E. eauto.
Qed.

(** X14.  What [fromDict] refuses on the reload path of a saved bounty with
    a route and an answer: a route system or an answer that, in title case,
    is not a known system is a [KeyError], the route being looked at first;
    with those in order, a reward below [-1] is a [ValueError]. *)
Theorem fromDict_refuses w bounty owningDB draws :
  Bounty.d_route bounty <> [] ->
  title (Bounty.d_answer bounty) <> "" ->
  let r := Bounty.fromDict w bounty owningDB true draws in
  let known s := is_Some (builtInSystemObjs (bbData w) !! title s) in
  ((exists s, s ∈ Bounty.d_route bounty /\ ~ known s) -> r = Raise KeyError) /\
  (~ known (Bounty.d_answer bounty) -> r = Raise KeyError) /\
  ((forall s, s ∈ Bounty.d_route bounty -> known s) ->
   known (Bounty.d_answer bounty) -> Bounty.d_reward bounty < -1 ->
     r = Raise ValueError).
Proof.
  intros Hroute Hans. cbv zeta.
  unfold Bounty.fromDict, Bounty.init.
  set (c := init _).
  assert (route c = map title (Bounty.d_route bounty)) as Hr by done.
  assert (answer c = title (Bounty.d_answer bounty)) as Ha by done.
  assert (reward c = Bounty.d_reward bounty) as Hrw by done.
  assert (route c <> []) as Hroute'.
  { rewrite Hr. by destruct (Bounty.d_route bounty). }
  assert (answer c <> "") as Hans' by (by rewrite Ha).
  change (generated c) with false. cbv iota.
  pose proof (beforeReward_reload w owningDB c draws Hroute' Hans') as Hbefore.
  rewrite Hr, Ha in Hbefore.
  assert (forall e, beforeReward w owningDB false true (c, draws)
                      = (Raise e, (c, draws)) ->
          generate w owningDB false true true (c, draws) = (Raise e, (c, draws)))
    as Hfail.
  { intros e He. rewrite generate_split. unfold mbind at 1, run_bind.
    by rewrite He. }
  split; [|split].
  - intros (s & Hs & Hnot). rewrite (Hfail KeyError); [done|]. rewrite Hbefore.
    rewrite bool_decide_eq_false_2; [done|].
    intros Hall. apply Hnot. rewrite Forall_forall in Hall. apply Hall.
    apply list_elem_of_fmap. eauto.
  - intros Hnot. rewrite (Hfail KeyError); [done|]. rewrite Hbefore. unfold contains.
    rewrite (bool_decide_eq_false_2 (is_Some _)) by done.
    by rewrite andb_false_r.
  - intros Hall Hknown Hneg.
    rewrite bool_decide_eq_true_2 in Hbefore.
    2:{ apply Forall_forall. intros s Hs.
        apply list_elem_of_fmap in Hs as (s' & -> & Hs'). by apply Hall. }
    unfold contains in Hbefore. rewrite bool_decide_eq_true_2 in Hbefore by done.
    rewrite generate_split, (bind_Ok _ _ _ _ _ Hbefore).
    rewrite (proj1 (afterReward_spec w true c draws)) by lia. done.
Qed.

End errors_more.

Section errors_more_runs.
Import BountyConfig ConfigSpec.

Lemma generate_refuses_criminal_witness :
  let pirate := init (mkArgs "pirate" "Vossk" None [] "" "" "" ∅ (Int (-1))
                        NOT_GIVEN NOT_GIVEN "" [] "" None) in
  let vossk := init (Sample.custom [] "" (Int (-1))) in
  let full := mkBountyDB (fun _ => false) (fun _ => false) in
  let busy := mkBountyDB (fun _ => true) (fun _ => true) in
  generate Sample.world (Some Sample.db) true false false (pirate, [0%nat])
    = (Raise ValueError, (pirate, [0%nat])) /\
  generate Sample.world (Some full) true false false (vossk, [0%nat])
    = (Raise IndexError, (vossk, [0%nat])) /\
  generate Sample.world (Some busy) true false false (vossk, [0%nat])
    = (Raise KeyError, (vossk, [0%nat])) /\
  generate Sample.world None false false false (vossk, [0%nat])
    = (Raise AttributeError, (vossk, [0%nat])).
Proof.
  cbv zeta. split; [|split; [|split]].
  - destruct (generate_refuses_criminal Sample.world (Some Sample.db) true false
                false
                (init (mkArgs "pirate" "Vossk" None [] "" "" "" ∅ (Int (-1))
                         NOT_GIVEN NOT_GIVEN "" [] "" None)) [0%nat])
      as [Hfaction _].
    + intros _. split; [by vm_compute|discriminate].
    + apply Hfaction; [done|]. intros H.
      repeat (apply elem_of_cons in H as [H|H]; [discriminate|]).
      by apply elem_of_nil in H.
  - destruct (generate_refuses_criminal Sample.world
                (Some (mkBountyDB (fun _ => false) (fun _ => false))) true false
                false (init (Sample.custom [] "" (Int (-1)))) [0%nat])
      as [_ Hdb].
    + intros _. split; [by vm_compute|discriminate].
    + destruct (Hdb eq_refl) as [_ Hsome]; [intros _; repeat constructor|].
      destruct (Hsome _ eq_refl) as [Hfull _]. exact (Hfull eq_refl).
  - destruct (generate_refuses_criminal Sample.world
                (Some (mkBountyDB (fun _ => true) (fun _ => true))) true false
                false (init (Sample.custom [] "" (Int (-1)))) [0%nat])
      as [_ Hdb].
    + intros _. split; [by vm_compute|discriminate].
    + destruct (Hdb eq_refl) as [_ Hsome]; [intros _; repeat constructor|].
      destruct (Hsome _ eq_refl) as [_ Htaken].
      apply Htaken; [done | done | discriminate | done].
  - destruct (generate_refuses_criminal Sample.world None false false
                false (init (Sample.custom [] "" (Int (-1)))) [0%nat])
      as [_ Hdb].
    + discriminate.
    + destruct (Hdb eq_refl) as [Hnone _]; [discriminate|]. exact (Hnone eq_refl).
Defined.

Lemma fromDict_refuses_witness :
  Bounty.fromDict Sample.world
    (Bounty.mkDict "terran" ["A"; "Z"] "A" ∅ 30 1600000000 1600172800 Sample.kaamo)
    None true [] = Raise KeyError /\
  Bounty.fromDict Sample.world
    (Bounty.mkDict "terran" ["A"; "B"] "Z" ∅ 30 1600000000 1600172800 Sample.kaamo)
    None true [] = Raise KeyError /\
  Bounty.fromDict Sample.world
    (Bounty.mkDict "terran" ["A"; "B"] "a" ∅ (-30) 1600000000 1600172800
       Sample.kaamo)
    None true [] = Raise ValueError.
Proof.
  split; [|split].
  - refine (proj1 (fromDict_refuses Sample.world _ None [] _ _) _);
      [discriminate | discriminate |].
    exists "Z". split; [repeat constructor|]. intros [? H]. vm_compute in H.
    discriminate.
  - refine (proj1 (proj2 (fromDict_refuses Sample.world _ None [] _ _)) _);
      [discriminate | discriminate |].
    intros [? H]. vm_compute in H. discriminate.
  - refine (proj2 (proj2 (fromDict_refuses Sample.world _ None [] _ _)) _ _ _);
      [discriminate | discriminate | | |].
    + intros s Hs.
      repeat (apply elem_of_cons in Hs as [->|Hs];
              [eexists; vm_compute; reflexivity|]).
      by apply elem_of_nil in Hs.
    + eexists. vm_compute. reflexivity.
    + cbn. lia.
Defined.

End errors_more_runs.

(** * Further facts about the two constructors *)

Section constructor_more.
Import BountySpec MoreSpec.

Lemma to_lower_idem x : to_lower (to_lower x) = to_lower x.
Proof. destruct x as [[] [] [] [] [] [] [] []]; by vm_compute. Qed.

Lemma to_upper_idem x : to_upper (to_upper x) = to_upper x.
Proof. destruct x as [[] [] [] [] [] [] [] []]; by vm_compute. Qed.

Lemma is_cased_to_lower x : is_cased (to_lower x) = is_cased x.
Proof. destruct x as [[] [] [] [] [] [] [] []]; by vm_compute. Qed.

Lemma is_cased_to_upper x : is_cased (to_upper x) = is_cased x.
Proof. destruct x as [[] [] [] [] [] [] [] []]; by vm_compute. Qed.

Lemma lower_idem s : lower (lower s) = lower s.
Proof. induction s as [|x s IH]; [done|]. simpl. by rewrite to_lower_idem, IH. Qed.

Lemma title_from_idem s : forall p,
  title_from p (title_from p s) = title_from p s.
Proof.
  induction s as [|x s IH]; intros p; [done|]. simpl.
  destruct p; rewrite ?to_lower_idem, ?to_upper_idem, ?is_cased_to_lower,
    ?is_cased_to_upper, IH; done.
Qed.

Lemma title_idem s : title (title s) = title s.
Proof. apply title_from_idem. Qed.

Lemma map_title_idem l : map title (map title l) = map title l.
Proof. induction l as [|x l IH]; [done|]. simpl. by rewrite title_idem, IH. Qed.

Lemma to_lower_ascii x :
  (Ascii.nat_of_ascii x <? 128)%nat = true ->
  (Ascii.nat_of_ascii (to_lower x) <? 128)%nat = true.
Proof. destruct x as [[] [] [] [] [] [] [] []]; by vm_compute. Qed.

Lemma to_upper_ascii x :
  (Ascii.nat_of_ascii x <? 128)%nat = true ->
  (Ascii.nat_of_ascii (to_upper x) <? 128)%nat = true.
Proof. destruct x as [[] [] [] [] [] [] [] []]; by vm_compute. Qed.

Lemma lower_ascii s : is_ascii s = true -> is_ascii (lower s) = true.
Proof.
  induction s as [|x s IH]; [done|]. simpl.
  intros [Hx Hs]%andb_true_iff. by rewrite to_lower_ascii, IH.
Qed.

Lemma title_from_ascii s : forall p,
  is_ascii s = true -> is_ascii (title_from p s) = true.
Proof.
  induction s as [|x s IH]; intros p; [done|]. simpl.
  intros [Hx Hs]%andb_true_iff. rewrite IH by done.
  destruct p; by rewrite ?to_lower_ascii, ?to_upper_ascii.
Qed.

(** X15.  On ASCII names [BountyConfig.__init__] normalises once and for
    all: the names of the configuration are ASCII again, and a
    configuration constructed from the attributes of a constructed
    configuration is that configuration. *)
Theorem init_idempotent a :
  ascii_args a ->
  ascii_args (fields (BountyConfig.init a)) /\
  BountyConfig.init (fields (BountyConfig.init a)) = BountyConfig.init a.
Proof.
  intros (Hf & Hn & Hr & Hs & He & Ha). split.
  - unfold ascii_args, fields, BountyConfig.init. cbn.
    split; [by apply lower_ascii|]. split; [by apply title_from_ascii|].
    split; [|by split; [|split]; apply title_from_ascii].
    induction Hr as [|x l Hx Hl IH]; constructor; [|exact IH].
    by apply title_from_ascii.
  - unfold BountyConfig.init, fields. cbn.
    rewrite lower_idem, !title_idem, map_title_idem.
    by destruct (BountyConfig.a_isPlayer a).
Qed.

(** What the constructor takes from the configuration it generates. *)
Lemma init_Ok_inv w criminalObj config owningDB dbReload draws b :
  (forall c, config = Some c -> BountyConfig.generated c = false) ->
  Bounty.init w criminalObj config owningDB dbReload draws = Ok b ->
  exists c0 c' d',
    BountyConfig.generate w owningDB
      match criminalObj with None => true | Some _ => false end
      dbReload dbReload (c0, draws) = (Ok tt, (c', d')) /\
    Bounty.route b = BountyConfig.route c' /\
    Bounty.answer b = BountyConfig.answer c' /\
    Bounty.reward b = BountyConfig.reward c' /\
    Bounty.issueTime b = BountyConfig.issueTime c' /\
    Bounty.endTime b = BountyConfig.endTime c' /\
    Bounty.checked b = BountyConfig.checked c' /\
    Bounty.respawnTT b = None /\
    Bounty.faction b = crim_faction (Bounty.criminal b) /\
    (forall cr, criminalObj = Some cr -> Bounty.criminal b = cr).
Proof.
  intros Hfresh. unfold Bounty.init.
  set (c0 := match config with Some c => c | None => _ end).
  assert (BountyConfig.generated c0 = false) as ->.
  { subst c0. destruct config as [c|]; [by apply Hfresh|].
    by destruct criminalObj. }
  intros Hinit. exists c0.
  destruct dbReload, owningDB; try done;
    destruct (BountyConfig.generate _ _ _ _ _ _) as [[[]| |] [c' d']];
    try done; outcome_simpl; exists c', d'; (split; [done|]);
    match type of Hinit with
    | match ?x with _ => _ end = _ => destruct x eqn:Hcrim; [|done..]
    end; inversion Hinit; subst b; cbn; repeat split; try done;
    intros cr ->; by inversion Hcrim.
Qed.

(** X16.  A bounty constructed outside a reload, from a configuration that
    was not generated beforehand, starts blank: every route system is
    unchecked, [checked] has no other key, no respawn is scheduled, the
    faction is the criminal's, a supplied criminal is the bounty's, and
    [calcRewards] returns the empty dictionary. *)
Theorem init_fresh_blank w criminalObj config owningDB draws b :
  (forall c, config = Some c -> BountyConfig.generated c = false) ->
  Bounty.init w criminalObj config owningDB false draws = Ok b ->
  (forall s, s ∈ Bounty.route b -> Bounty.checked b !! s = Some UNCHECKED) /\
  dom (Bounty.checked b) =@{gset string} list_to_set (Bounty.route b) /\
  Bounty.respawnTT b = None /\
  Bounty.faction b = crim_faction (Bounty.criminal b) /\
  (forall cr, criminalObj = Some cr -> Bounty.criminal b = cr) /\
  Bounty.calcRewards b = Ok ∅.
Proof.
  intros Hfresh Hinit.
  destruct (init_Ok_inv _ _ _ _ _ _ _ Hfresh Hinit)
    as (c0 & c' & d' & Hrun & Hr & _ & _ & _ & _ & Hc & Hresp & Hfac & Hcrim).
  apply generate_Ok_inv in Hrun as (_ & _ & _ & _ & _ & _ & _ & _ & Hchk & _).
  cbv iota in Hchk. rewrite <- Hc, <- Hr in Hchk.
  assert (forall s, s ∈ Bounty.route b -> Bounty.checked b !! s = Some UNCHECKED)
    as Hblank.
  { intros s Hs. rewrite Hchk, fillChecked_fresh.
    by rewrite bool_decide_eq_true_2. }
  split; [exact Hblank|].
  split; [rewrite Hchk; apply fillChecked_fresh_dom|].
  split; [done|]. split; [done|]. split; [done|].
  destruct (calcRewards_entries b) as (rs & -> & Hlook & _).
  { intros s Hs. rewrite (Hblank s Hs). eauto. }
  f_equal. apply map_eq. intros u. rewrite Hlook, lookup_empty.
  unfold nChecked. rewrite tally_none; [done|].
  intros s Hs. unfold checkedBy. by rewrite (Hblank s Hs).
Qed.

(** X17.  Whatever calls of [check] are made, failed ones included, the
    keys of [checked] stay as they were, and so does every attribute of the
    bounty other than [checked]. *)
Theorem checks_keep_keys calls : forall b,
  dom (Bounty.checked (checks b calls)) =@{gset string} dom (Bounty.checked b) /\
  checks b calls = Bounty.set_checked (Bounty.checked (checks b calls)) b.
Proof.
  induction calls as [|[system userID] calls IH]; intros b.
  { simpl. by rewrite set_checked_same. }
  simpl. rewrite check_cases.
  destruct (bool_decide (system ∈ Bounty.route b)); [|apply IH].
  destruct (Bounty.checked b !! system) as [v|] eqn:Hv; [|apply IH].
  destruct (v =? UNCHECKED); [|apply IH].
  destruct (IH (Bounty.set_checked (<[system := userID]> (Bounty.checked b)) b))
    as [Hdom Hrest].
  split.
  - rewrite Hdom. cbn. apply dom_insert_lookup_L. eauto.
  - rewrite Hrest at 1. by destruct b.
Qed.

End constructor_more.

Section constructor_more_runs.
Import BountySpec MoreSpec.

Lemma init_fresh_blank_witness :
  exists b,
    Bounty.init Sample.world None
      (Some (BountyConfig.init (Sample.custom ["A"; "B"] "A" (Int 30))))
      (Some Sample.db) false [] = Ok b /\
    (forall s, s ∈ Bounty.route b -> Bounty.checked b !! s = Some UNCHECKED) /\
    Bounty.respawnTT b = None /\ Bounty.calcRewards b = Ok ∅.
Proof.
  destruct (Bounty.init Sample.world None
              (Some (BountyConfig.init (Sample.custom ["A"; "B"] "A" (Int 30))))
              (Some Sample.db) false []) as [b| |] eqn:Hinit;
    [|vm_compute in Hinit; discriminate..].
  exists b. split; [done|].
  assert (forall c,
            Some (BountyConfig.init (Sample.custom ["A"; "B"] "A" (Int 30)))
              = Some c -> BountyConfig.generated c = false) as Hfresh
    by (by intros c [= <-]).
  destruct (init_fresh_blank _ _ _ _ _ _ Hfresh Hinit)
    as (Hblank & _ & Hresp & _ & _ & Hpay).
  done.
Defined.

End constructor_more_runs.

(** * The entries of the checked map that [generate] leaves *)

Section checked_more.
Import BountyConfig ConfigSpec.

(** X18.  The entries of [checked] after a successful [generate].  Without
    [forceKeepChecked] the supplied map is discarded: every route system is
    unchecked and there is no other entry.  With it every supplied entry is
    kept, on and off the route, also when it records a checker, and the
    route systems that lack one are added as unchecked. *)
Theorem generate_checked_entries w owningDB noCriminal forceKeepChecked
    forceNoDBCheck c d c' d' :
  generate w owningDB noCriminal forceKeepChecked forceNoDBCheck (c, d)
    = (Ok tt, (c', d')) ->
  forall s,
    checked c' !! s =
      match (if forceKeepChecked then checked c !! s else None) with
      | Some v => Some v
      | None => if bool_decide (s ∈ route c') then Some UNCHECKED else None
      end.
Proof.
  intros Hrun s.
  apply generate_Ok_inv in Hrun as (_ & _ & _ & _ & _ & _ & _ & _ & -> & _).
  destruct forceKeepChecked.
  - apply fillChecked_keep.
  - by rewrite fillChecked_fresh, lookup_empty.
Qed.

Lemma generate_checked_entries_witness :
  let kept := generate Sample.world None false true true
                (init Sample.partial, []) in
  let fresh := generate Sample.world (Some Sample.db) true false false
                 (init Sample.partial, []) in
  kept.1 = Ok tt /\ fresh.1 = Ok tt /\
  checked kept.2.1 !! "A" = Some 7 /\ checked kept.2.1 !! "B" = Some UNCHECKED /\
  checked fresh.2.1 !! "A" = Some UNCHECKED /\ checked fresh.2.1 !! "D" = None.
Proof.
  cbv zeta.
  set (kept := generate Sample.world None false true true
                 (init Sample.partial, [])).
  set (fresh := generate Sample.world (Some Sample.db) true false false
                  (init Sample.partial, [])).
  assert (generate Sample.world None false true true (init Sample.partial, [])
          = (Ok tt, (kept.2.1, kept.2.2))) as Hkept by (by vm_compute).
  assert (generate Sample.world (Some Sample.db) true false false
            (init Sample.partial, [])
          = (Ok tt, (fresh.2.1, fresh.2.2))) as Hfresh by (by vm_compute).
  pose proof (generate_checked_entries _ _ _ _ _ _ _ _ _ Hkept) as Hk.
  pose proof (generate_checked_entries _ _ _ _ _ _ _ _ _ Hfresh) as Hf.
  assert (route kept.2.1 = ["A"; "B"; "C"]) as Hrk by (by vm_compute).
  assert (route fresh.2.1 = ["A"; "B"; "C"]) as Hrf by (by vm_compute).
  split; [by vm_compute|]. split; [by vm_compute|].
  rewrite (Hk "A"), (Hk "B"), (Hf "A"), (Hf "D"), Hrk, Hrf.
  repeat split; by vm_compute.
Defined.

End checked_more.

Section marks_runs.
Import BountyConfig ConfigSpec.

Lemma generate_marks_success_only_witness :
  generated (generate Sample.world (Some Sample.db) true false false
               (init (Sample.custom ["A"; "B"] "A" (Int 30)), [])).2.1 = true /\
  generated (generate Sample.world (Some Sample.db) true false false
               (init (Sample.custom ["A"; "B"] "A" (Int (-5))), [])).2.1 = false.
Proof.
  split.
  - apply (generate_marks_success_only Sample.world (Some Sample.db) true false
             false (init (Sample.custom ["A"; "B"] "A" (Int 30)), [])).
    by vm_compute.
  - apply (generate_marks_success_only Sample.world (Some Sample.db) true false
             false (init (Sample.custom ["A"; "B"] "A" (Int (-5))), [])).
    by vm_compute.
Defined.

End marks_runs.

Section respawn_runs.
Import Bounty BountySpec.

Lemma respawn_never_succeeds_witness :
  cancelRespawn abcd = Raise AttributeError /\
  forceRespawn abcd = Raise AttributeError /\
  cancelRespawn (set_respawnTT (Some 5%nat) abcd) = Raise ValueError /\
  forceRespawn (set_respawnTT (Some 5%nat) abcd) = Raise ValueError.
Proof.
  destruct (respawn_never_succeeds abcd) as (_ & _ & Hcancel & Hforce & _).
  destruct (respawn_never_succeeds (set_respawnTT (Some 5%nat) abcd))
    as (_ & _ & _ & _ & Hcancel' & Hforce' & _).
  split; [by apply Hcancel|]. split; [by apply Hforce|].
  split; [by apply Hcancel' | by apply Hforce'].
Defined.

End respawn_runs.

Section init_runs.
Import MoreSpec.

Lemma init_idempotent_witness :
  let a := BountyConfig.mkArgs "TERRAN" "mkkt bkkt" None ["pan"; "ni kirom"] "" ""
             "pan" ∅ (Float (5 # 2)) NOT_GIVEN NOT_GIVEN "" [] "" None in
  BountyConfig.name (BountyConfig.init a) = "Mkkt Bkkt" /\
  BountyConfig.init (fields (BountyConfig.init a)) = BountyConfig.init a.
Proof.
  cbv zeta. split; [reflexivity|].
  apply init_idempotent. repeat split; repeat constructor.
Defined.

End init_runs.

(** * Where floating point and the host's clock show *)

Section rounding_runs.
Import Bounty BountySpec BountyConfig ConfigSpec.

(** The statement of C4 fails from a pool of [2 ^ 53 + 1] on: the division
    is a float division, and the share is the rounded quotient.  On the
    route A with the answer A checked, the pool [2 ^ 53 + 1] pays
    [2 ^ 53], one credit less than the floor of the quotient. *)
Lemma calcRewards_rounds_share :
  let b := checks (blank ["A"] "A" (2 ^ 53 + 1)) [("A", 7)] in
  wf b /\ 0 <= Bounty.reward b /\ Bounty.route b = ["A"] /\
  Bounty.checked b !! "A" = Some 7 /\
  calcRewards b = Ok (<[7 := mkReward (2 ^ 53) 1 true]> ∅) /\
  promised b 7 = Some (mkReward (2 ^ 53 + 1) 1 true).
Proof.
  cbv zeta. split.
  { apply wf_checks. intros s Hs.
    repeat (apply elem_of_cons in Hs as [->|Hs]); [by eexists..|].
    by apply elem_of_nil in Hs. }
  split; [by vm_compute|]. split; [by vm_compute|]. split; [by vm_compute|].
  split; by vm_compute.
Qed.

(** The bound of C5 on the pool is needed as well: the rounded share can be
    above the quotient, and the pool [2 ^ 53 + 3] pays [2 ^ 53 + 4]. *)
Lemma calcRewards_overpays_large_pool :
  let b := checks (blank ["A"] "A" (2 ^ 53 + 3)) [("A", 7)] in
  exists rs,
    calcRewards b = Ok rs /\ total rs = 2 ^ 53 + 4 /\
    Bounty.reward b = 2 ^ 53 + 3.
Proof. cbv zeta. eexists. split; [vm_compute; reflexivity|]. by vm_compute. Qed.

(** With a float ratio the default reward is the rounded product: for the
    float nearest to [1 / 3] and three systems it is [1], where the floor
    of the product is [0]. *)
Lemma generate_rounds_product :
  let st := generate Sample.thirds (Some Sample.db) true false false
              (init (Sample.custom ["A"; "B"; "C"] "A" (Int (-1))), []) in
  st.1 = Ok tt /\ BountyConfig.reward st.2.1 = 1 /\
  defaultReward Sample.thirds (BountyConfig.route st.2.1) = 0.
Proof. cbv zeta. split; [by vm_compute|]. split; by vm_compute. Qed.

(** The date arithmetic of line 203 comes after the reward and raises for
    an issue time that [datetime] cannot hold: [generate] then fails with
    the default reward already in place. *)
Lemma generate_raises_after_reward :
  let st := generate Sample.world (Some Sample.db) true false false
              (init (mkArgs "terran" "Vossk" None ["A"; "B"] "" "" "A" ∅
                       (Int (-1)) (2 ^ 53) NOT_GIVEN "" [] "" None), []) in
  st.1 = Raise ValueError /\ BountyConfig.reward st.2.1 = 2000 /\
  BountyConfig.endTime st.2.1 = NOT_GIVEN /\ generated st.2.1 = false.
Proof. cbv zeta. split; [by vm_compute|]. split; [|split]; by vm_compute. Qed.

(** On a host that reads a naive date back a full day east of UTC the end
    time of a bounty with one route system is its issue time. *)
Lemma generate_end_on_far_host :
  let st := generate Sample.farEast (Some Sample.db) true false false
              (init (Sample.custom ["A"] "A" (Int 30)), []) in
  st.1 = Ok tt /\
  BountyConfig.endTime st.2.1 = BountyConfig.issueTime st.2.1.
Proof. cbv zeta. split; by vm_compute. Qed.

End rounding_runs.
